(** * AutoGLM-GUI front end: dual-model stream consumer, device panel,
      task history, and the orchestration contract they are written against.

    The development follows the TypeScript sources:
    - [DualModel]   : frontend/src/components/useDualModelState.ts
    - [History]     : frontend/src/utils/history.ts
    - [DevicePanel] : frontend/src/components/DevicePanel.tsx
    The Python orchestrator (dual_agent.py) is only described by the
    development log and the specification; [AnomalyMonitor], [Batched] and
    [Orchestrator] model it from the specification text.

    JavaScript values are embedded as follows: [string] for strings, [Z] for
    the integral numbers that travel in events (step indices, counts,
    millisecond time stamps), [option] for optional ([?:]) fields, [list] for
    arrays, [gmap string _] for the key/value store behind [localStorage]. *)

From stdpp Require Import base gmap strings list pretty.

Open Scope string_scope.
Open Scope list_scope.
Open Scope Z_scope.

(** ** useDualModelState.ts *)
Module DualModel.

(** [event.decision] and [event.action] both are objects with an [action]
    and a [target]. *)
Module Act.
Record t := { action : string; target : string }.
End Act.

(** [event.plan] *)
Module Plan.
Record t := { steps : list string; estimated_actions : Z }.
End Plan.

(** A stream event is a tagged JavaScript object: the handler switches on
    the tag [type] and then reads the payload fields of that kind.  The
    record has every field that [handleEvent] reads. *)
Record DualModelStreamEvent := {
  type : string;
  stage : string;
  chunk : string;
  decision : Act.t;
  plan : Plan.t;
  description : string;
  action : Act.t;
  action_type : string;
  target : string;
  success : bool;
  step : Z;
}.

Record DualModelState := {
  (* Decision model state *)
  decisionActive : bool;
  decisionStage : string;
  decisionThinking : string;
  decisionResult : string;
  taskPlan : list string;
  (* Vision model state *)
  visionActive : bool;
  visionStage : string;
  visionDescription : string;
  visionAction : string;
  (* Progress *)
  currentStep : Z;
  totalSteps : Z;
  (* History *)
  decisions : list DualModelStreamEvent;
  recognitions : list DualModelStreamEvent;
  actions : list DualModelStreamEvent;
}.

(** The argument of [React.useState] (and of [reset]). *)
Definition initialState : DualModelState := {|
  decisionActive := false;
  decisionStage := "idle";
  decisionThinking := "";
  decisionResult := "";
  taskPlan := [];
  visionActive := false;
  visionStage := "idle";
  visionDescription := "";
  visionAction := "";
  currentStep := 0;
  totalSteps := 0;
  decisions := [];
  recognitions := [];
  actions := [];
|}.

(** The [case] labels of the switch, in source order. *)
Inductive Kind :=
| decision_start | decision_thinking | decision_result | task_plan
| vision_start | vision_recognition | action_start | action_result
| step_complete | task_complete | error | aborted.

Definition label (k : Kind) : string :=
  match k with
  | decision_start => "decision_start"
  | decision_thinking => "decision_thinking"
  | decision_result => "decision_result"
  | task_plan => "task_plan"
  | vision_start => "vision_start"
  | vision_recognition => "vision_recognition"
  | action_start => "action_start"
  | action_result => "action_result"
  | step_complete => "step_complete"
  | task_complete => "task_complete"
  | error => "error"
  | aborted => "aborted"
  end.

Definition kinds : list Kind :=
  [decision_start; decision_thinking; decision_result; task_plan;
   vision_start; vision_recognition; action_start; action_result;
   step_complete; task_complete; error; aborted].

(** [switch (event.type)]: the first label equal to the tag, [None] for
    the [default] branch. *)
Definition dispatch (tag : string) : option Kind :=
  find (λ k, String.eqb tag (label k)) kinds.

(** The body of each [case]; [error] and [aborted] share one body. *)
Definition reduce (prev : DualModelState) (k : Kind)
    (event : DualModelStreamEvent) : DualModelState :=
  match k with
  | decision_start =>
      {| decisionActive := true;
         decisionStage := stage event;
         decisionThinking := decisionThinking prev;
         decisionResult := decisionResult prev;
         taskPlan := taskPlan prev;
         visionActive := false;
         visionStage := visionStage prev;
         visionDescription := visionDescription prev;
         visionAction := visionAction prev;
         currentStep := currentStep prev;
         totalSteps := totalSteps prev;
         decisions := decisions prev;
         recognitions := recognitions prev;
         actions := actions prev |}
  | decision_thinking =>
      {| decisionActive := decisionActive prev;
         decisionStage := decisionStage prev;
         decisionThinking := decisionThinking prev +:+ chunk event;
         decisionResult := decisionResult prev;
         taskPlan := taskPlan prev;
         visionActive := visionActive prev;
         visionStage := visionStage prev;
         visionDescription := visionDescription prev;
         visionAction := visionAction prev;
         currentStep := currentStep prev;
         totalSteps := totalSteps prev;
         decisions := decisions prev;
         recognitions := recognitions prev;
         actions := actions prev |}
  | decision_result =>
      {| decisionActive := false;
         decisionStage := "idle";
         decisionThinking := "";
         decisionResult :=
           Act.action (decision event) +:+ ": " +:+ Act.target (decision event);
         taskPlan := taskPlan prev;
         visionActive := visionActive prev;
         visionStage := visionStage prev;
         visionDescription := visionDescription prev;
         visionAction := visionAction prev;
         currentStep := currentStep prev;
         totalSteps := totalSteps prev;
         decisions := decisions prev ++ [event];
         recognitions := recognitions prev;
         actions := actions prev |}
  | task_plan =>
      {| decisionActive := decisionActive prev;
         decisionStage := decisionStage prev;
         decisionThinking := decisionThinking prev;
         decisionResult := decisionResult prev;
         taskPlan := Plan.steps (plan event);
         visionActive := visionActive prev;
         visionStage := visionStage prev;
         visionDescription := visionDescription prev;
         visionAction := visionAction prev;
         currentStep := currentStep prev;
         totalSteps := Plan.estimated_actions (plan event);
         decisions := decisions prev;
         recognitions := recognitions prev;
         actions := actions prev |}
  | vision_start =>
      {| decisionActive := false;
         decisionStage := decisionStage prev;
         decisionThinking := decisionThinking prev;
         decisionResult := decisionResult prev;
         taskPlan := taskPlan prev;
         visionActive := true;
         visionStage := stage event;
         visionDescription := visionDescription prev;
         visionAction := visionAction prev;
         currentStep := currentStep prev;
         totalSteps := totalSteps prev;
         decisions := decisions prev;
         recognitions := recognitions prev;
         actions := actions prev |}
  | vision_recognition =>
      {| decisionActive := decisionActive prev;
         decisionStage := decisionStage prev;
         decisionThinking := decisionThinking prev;
         decisionResult := decisionResult prev;
         taskPlan := taskPlan prev;
         visionActive := visionActive prev;
         visionStage := visionStage prev;
         visionDescription := description event;
         visionAction := visionAction prev;
         currentStep := currentStep prev;
         totalSteps := totalSteps prev;
         decisions := decisions prev;
         recognitions := recognitions prev ++ [event];
         actions := actions prev |}
  | action_start =>
      {| decisionActive := decisionActive prev;
         decisionStage := decisionStage prev;
         decisionThinking := decisionThinking prev;
         decisionResult := decisionResult prev;
         taskPlan := taskPlan prev;
         visionActive := visionActive prev;
         visionStage := "executing";
         visionDescription := visionDescription prev;
         visionAction :=
           Act.action (action event) +:+ ": " +:+ Act.target (action event);
         currentStep := currentStep prev;
         totalSteps := totalSteps prev;
         decisions := decisions prev;
         recognitions := recognitions prev;
         actions := actions prev |}
  | action_result =>
      {| decisionActive := decisionActive prev;
         decisionStage := decisionStage prev;
         decisionThinking := decisionThinking prev;
         decisionResult := decisionResult prev;
         taskPlan := taskPlan prev;
         visionActive := false;
         visionStage := "idle";
         visionDescription := visionDescription prev;
         visionAction :=
           action_type event +:+ ": " +:+ target event +:+ " - "
             +:+ (if success event then "Success" else "Failed");
         currentStep := currentStep prev;
         totalSteps := totalSteps prev;
         decisions := decisions prev;
         recognitions := recognitions prev;
         actions := actions prev ++ [event] |}
  | step_complete =>
      {| decisionActive := decisionActive prev;
         decisionStage := decisionStage prev;
         decisionThinking := decisionThinking prev;
         decisionResult := decisionResult prev;
         taskPlan := taskPlan prev;
         visionActive := visionActive prev;
         visionStage := visionStage prev;
         visionDescription := visionDescription prev;
         visionAction := visionAction prev;
         currentStep := step event;
         totalSteps := totalSteps prev;
         decisions := decisions prev;
         recognitions := recognitions prev;
         actions := actions prev |}
  | task_complete | error | aborted =>
      {| decisionActive := false;
         decisionStage := "idle";
         decisionThinking := decisionThinking prev;
         decisionResult := decisionResult prev;
         taskPlan := taskPlan prev;
         visionActive := false;
         visionStage := "idle";
         visionDescription := visionDescription prev;
         visionAction := visionAction prev;
         currentStep := currentStep prev;
         totalSteps := totalSteps prev;
         decisions := decisions prev;
         recognitions := recognitions prev;
         actions := actions prev |}
  end.

(** [setState(prev => { switch (event.type) { ... default: return prev } })] *)
Definition handleEvent (prev : DualModelState)
    (event : DualModelStreamEvent) : DualModelState :=
  match dispatch (type event) with
  | Some k => reduce prev k event
  | None => prev
  end.

(** The state after the events of a stream have been handled in order. *)
Definition handleAll (s : DualModelState)
    (events : list DualModelStreamEvent) : DualModelState :=
  fold_left handleEvent events s.

(** The tags for which some case of the switch is taken. *)
Definition handled_kinds : list string := map label kinds.



(** An event of the given tag with every payload field filled in, and a
    state with both sides active, for trying the handler on. *)
Definition probe (tag : string) : DualModelStreamEvent := {|
  type := tag; stage := "s"; chunk := "c";
  decision := {| Act.action := "a"; Act.target := "t" |};
  plan := {| Plan.steps := ["p"]; Plan.estimated_actions := 1 |};
  description := "d";
  action := {| Act.action := "a"; Act.target := "t" |};
  action_type := "a"; target := "t"; success := true; step := 1 |}.

Definition busyState : DualModelState := {|
  decisionActive := true;
  decisionStage := "idle";
  decisionThinking := "";
  decisionResult := "";
  taskPlan := [];
  visionActive := true;
  visionStage := "idle";
  visionDescription := "";
  visionAction := "";
  currentStep := 0;
  totalSteps := 0;
  decisions := [];
  recognitions := [];
  actions := [];
|}.

(** The two sides are not active together. *)
Definition exclusive (s : DualModelState) : Prop :=
  ¬ (decisionActive s = true ∧ visionActive s = true).

(** The [step_complete] events of a stream carry step values that never
    go down from [low] and stay at or below [bound]. *)
Fixpoint stepsAscend (low bound : Z) (events : list DualModelStreamEvent)
    : Prop :=
  match events with
  | [] => True
  | e :: rest =>
      if String.eqb (type e) "step_complete"
      then low ≤ step e ∧ step e ≤ bound ∧ stepsAscend (step e) bound rest
      else stepsAscend low bound rest
  end.

Definition stepCompleteEvent (n : Z) : DualModelStreamEvent := {|
  type := "step_complete"; stage := ""; chunk := "";
  decision := {| Act.action := ""; Act.target := "" |};
  plan := {| Plan.steps := []; Plan.estimated_actions := 0 |};
  description := "";
  action := {| Act.action := ""; Act.target := "" |};
  action_type := ""; target := ""; success := false; step := n |}.

End DualModel.

(** ** utils/history.ts *)
Module History.

Definition MAX_HISTORY_ITEMS : nat := 100.
Definition FALLBACK_HISTORY_ITEMS : nat := 20.

(** One executed action, a [Record<string, unknown>]; kept as its JSON text. *)
Definition ActionRecord := string.

(** types/history.ts; dates are millisecond time stamps. *)
Record HistoryItem := {
  id : string;
  deviceId : string;
  deviceName : string;
  taskText : string;
  success : bool;
  steps : Z;
  startTime : Z;
  endTime : Z;
  duration : Z;
  thinking : list string;
  actions : list ActionRecord;
  finalMessage : string;
  errorMessage : option string;
}.

(** The two message arguments of [createHistoryItem]. *)
Record UserMessage := { u_content : string; u_timestamp : Z }.
Record AgentMessage := {
  a_content : string;
  a_timestamp : Z;
  a_success : option bool;
  a_steps : option Z;
  a_thinking : option (list string);
  a_actions : option (list ActionRecord);
}.

(** [s || d] on strings: the empty string is falsy. *)
Definition or_else (s d : string) : string :=
  if String.eqb s "" then d else s.

(** [getTime() || Date.now()]: the number of milliseconds is falsy at 0, so
    a time stamp at the epoch gives way to the clock. *)
Definition getTime_or_now (getTime now : Z) : Z :=
  if getTime =? 0 then now else getTime.

(** [createHistoryItem]; [now] is the reading of [Date.now()]. Both
    messages are present at every call site and a [Date] object is truthy,
    so the [?.] guards and the [|| new Date()] fallbacks of [startTime] and
    [endTime] are not taken; the fallbacks inside [duration] are on numbers
    and are taken at 0. *)
Definition createHistoryItem (now : Z) (deviceId deviceName : string)
    (userMessage : UserMessage) (agentMessage : AgentMessage) : HistoryItem := {|
  id := pretty now;
  deviceId := or_else deviceId "unknown";
  deviceName := or_else deviceName "Unknown Device";
  taskText := or_else (u_content userMessage) "No task description";
  success := default false (a_success agentMessage);
  steps := default 0 (a_steps agentMessage);
  startTime := u_timestamp userMessage;
  endTime := a_timestamp agentMessage;
  duration :=
    getTime_or_now (a_timestamp agentMessage) now
    - getTime_or_now (u_timestamp userMessage) now;
  thinking := default [] (a_thinking agentMessage);
  actions := default [] (a_actions agentMessage);
  finalMessage := or_else (a_content agentMessage) "No result message";
  errorMessage :=
    match a_success agentMessage with
    | Some false => Some (or_else (a_content agentMessage) "Unknown error")
    | _ => None
    end;
|}.

(** A string held by [localStorage], seen through [JSON.parse]: the text
    [JSON.stringify] makes of a history array parses back to that array;
    any other text either is empty or makes the [try] block throw
    (a [SyntaxError] of [JSON.parse], or a [TypeError] when the parsed
    value is no array). *)
Inductive StoredText :=
| Json (items : list HistoryItem)
| EmptyText
| Malformed.

Definition JSON_stringify (items : list HistoryItem) : StoredText := Json items.

Abbreviation Storage := (gmap string StoredText).

(** [`history-${deviceId}`] *)
Definition historyKey (deviceId : string) : string := "history-" +:+ deviceId.

(** [stored ? JSON.parse(stored) : []]; [None] when the expression (or the
    array method called on its value) throws. *)
Definition parseStored (stored : option StoredText) : option (list HistoryItem) :=
  match stored with
  | None => Some []
  | Some EmptyText => Some []
  | Some (Json items) => Some items
  | Some Malformed => None
  end.

(** Which branch of [saveHistoryItem] was left through. *)
Inductive SaveOutcome :=
| Saved              (* the first [setItem] succeeded *)
| SavedReduced       (* quota exceeded, the reduced list was written *)
| ReductionFailed    (* quota exceeded again: [console.error] *)
| Warned.            (* any other exception: [console.warn] *)

Section WithQuota.
(** [accepts store key value]: the browser takes [setItem(key, value)]
    in the store; otherwise it throws [QuotaExceededError] and leaves the
    store as it was. *)
Variable accepts : Storage → string → StoredText → bool.

Definition saveHistoryItem (localStorage : Storage) (deviceId : string)
    (item : HistoryItem) : Storage * SaveOutcome :=
  let key := historyKey deviceId in
  match parseStored (localStorage !! key) with
  | None => (localStorage, Warned)
  | Some history =>
      let history := item :: history in
      let limited := take MAX_HISTORY_ITEMS history in
      if accepts localStorage key (JSON_stringify limited)
      then (<[key := JSON_stringify limited]> localStorage, Saved)
      else
        let key := historyKey deviceId in
        match parseStored (localStorage !! key) with
        | None => (localStorage, ReductionFailed)
        | Some history =>
            let reduced := take FALLBACK_HISTORY_ITEMS history in
            let reduced := item :: reduced in
            if accepts localStorage key (JSON_stringify reduced)
            then (<[key := JSON_stringify reduced]> localStorage, SavedReduced)
            else (localStorage, ReductionFailed)
        end
  end.
End WithQuota.

(** The history array a device has in the store, if it parses. *)
Definition storedHistory (localStorage : Storage) (deviceId : string)
    : option (list HistoryItem) :=
  match localStorage !! historyKey deviceId with
  | Some (Json items) => Some items
  | _ => None
  end.

Definition clearHistory (localStorage : Storage) (deviceId : string) : Storage :=
  delete (historyKey deviceId) localStorage.

(** A finished task, for trying the functions on. *)
Definition sampleItem (name : string) : HistoryItem :=
  createHistoryItem 1700000000000 "d" "Pixel"
    {| u_content := name; u_timestamp := 1700000000000 |}
    {| a_content := "ok"; a_timestamp := 1700000005000;
       a_success := Some true; a_steps := Some 3;
       a_thinking := None; a_actions := None |}.

End History.

(** ** components/DevicePanel.tsx *)
Module DevicePanel.

Inductive Role := user | assistant.

Record Message := {
  id : string;
  role : Role;
  content : string;
  timestamp : Z;
  steps : option Z;
  success : option bool;
  thinking : option (list string);
  actions : option (list History.ActionRecord);
  isStreaming : option bool;
  currentThinking : option string;
}.

Record GlobalConfig := {
  base_url : string;
  model_name : string;
  api_key : option string;
  thinking_mode : option string;
  agent_type : option string;
}.

(** The props the handlers read, and [t.chat.aborted] of the translation
    context. *)
Record DevicePanelProps := {
  deviceId : string;
  deviceSerial : string;
  deviceName : string;
  config : option GlobalConfig;
  chat_aborted : string;
}.

(** Payloads of the five callbacks of [sendMessageStream]. *)
Module ThinkingChunkEvent.
Record t := { chunk : string }.
End ThinkingChunkEvent.
Module StepEvent.
Record t := { thinking : string; action : History.ActionRecord; step : Z }.
End StepEvent.
Module DoneEvent.
Record t := { message : string; success : bool; steps : Z }.
End DoneEvent.
Module ErrorEvent.
Record t := { message : string }.
End ErrorEvent.
Module AbortedEvent.
Record t := { message : string }.
End AbortedEvent.

(** The variables one call of [handleSend] declares and its callbacks
    close over. *)
Record Closure := {
  userMessage : Message;
  agentMessageId : string;
  agentMessage : Message;
  thinkingList : list string;
  actionsList : list History.ActionRecord;
  currentThinkingText : string;
  thinkingChunksBuffer : list string;
  updateTimeoutId : option nat;
}.

(** Calls that leave the component. *)
Inductive ApiCall :=
| InitAgent (device : string) (force : bool)
| SendMessageStream (text device : string) (stream : nat)
| StreamClose (stream : nat)
| AbortChat (device : string)
| ResetChat (device : string).

(** A call of [initAgent] that has not returned yet: the [force] argument
    of the [handleInit] that made it and, when a [handleSend] awaits that
    [handleInit], the trimmed input this [handleSend] goes on with. *)
Record PendingInit := {
  initForce : bool;
  resumesSend : option string;
}.

(** The component state ([useState] and [useRef] cells the handlers
    touch), and what lies outside it: the store, the calls made so far,
    the streams [sendMessageStream] has handed out, and the handlers that
    wait at an [await] for [initAgent] to return. *)
Record World := {
  messages : list Message;
  input : string;
  loading : bool;
  aborting : bool;
  error : option string;
  initialized : bool;
  chatStreamRef : option nat;
  localStorage : History.Storage;
  calls : list ApiCall;
  closures : gmap nat Closure;
  openStreams : gset nat;
  streamCount : nat;
  pendingInits : list PendingInit;
}.

Definition initialWorld (store : History.Storage) : World := {|
  messages := []; input := ""; loading := false; aborting := false;
  error := None; initialized := false; chatStreamRef := None;
  localStorage := store; calls := []; closures := ∅; openStreams := ∅;
  streamCount := 0; pendingInits := [] |}.

(** *** State setters *)

Definition setMessages (f : list Message → list Message) (w : World) : World :=
  {| messages := f (messages w); input := input w; loading := loading w;
     aborting := aborting w; error := error w; initialized := initialized w;
     chatStreamRef := chatStreamRef w; localStorage := localStorage w;
     calls := calls w; closures := closures w; openStreams := openStreams w;
     streamCount := streamCount w;
     pendingInits := pendingInits w |}.

Definition setInput (s : string) (w : World) : World :=
  {| messages := messages w; input := s; loading := loading w;
     aborting := aborting w; error := error w; initialized := initialized w;
     chatStreamRef := chatStreamRef w; localStorage := localStorage w;
     calls := calls w; closures := closures w; openStreams := openStreams w;
     streamCount := streamCount w;
     pendingInits := pendingInits w |}.

Definition setLoading (b : bool) (w : World) : World :=
  {| messages := messages w; input := input w; loading := b;
     aborting := aborting w; error := error w; initialized := initialized w;
     chatStreamRef := chatStreamRef w; localStorage := localStorage w;
     calls := calls w; closures := closures w; openStreams := openStreams w;
     streamCount := streamCount w;
     pendingInits := pendingInits w |}.

Definition setAborting (b : bool) (w : World) : World :=
  {| messages := messages w; input := input w; loading := loading w;
     aborting := b; error := error w; initialized := initialized w;
     chatStreamRef := chatStreamRef w; localStorage := localStorage w;
     calls := calls w; closures := closures w; openStreams := openStreams w;
     streamCount := streamCount w;
     pendingInits := pendingInits w |}.

Definition setError (e : option string) (w : World) : World :=
  {| messages := messages w; input := input w; loading := loading w;
     aborting := aborting w; error := e; initialized := initialized w;
     chatStreamRef := chatStreamRef w; localStorage := localStorage w;
     calls := calls w; closures := closures w; openStreams := openStreams w;
     streamCount := streamCount w;
     pendingInits := pendingInits w |}.

Definition setInitialized (b : bool) (w : World) : World :=
  {| messages := messages w; input := input w; loading := loading w;
     aborting := aborting w; error := error w; initialized := b;
     chatStreamRef := chatStreamRef w; localStorage := localStorage w;
     calls := calls w; closures := closures w; openStreams := openStreams w;
     streamCount := streamCount w;
     pendingInits := pendingInits w |}.

(** [chatStreamRef.current = r] *)
Definition setChatStreamRef (r : option nat) (w : World) : World :=
  {| messages := messages w; input := input w; loading := loading w;
     aborting := aborting w; error := error w; initialized := initialized w;
     chatStreamRef := r; localStorage := localStorage w;
     calls := calls w; closures := closures w; openStreams := openStreams w;
     streamCount := streamCount w;
     pendingInits := pendingInits w |}.

Definition setLocalStorage (store : History.Storage) (w : World) : World :=
  {| messages := messages w; input := input w; loading := loading w;
     aborting := aborting w; error := error w; initialized := initialized w;
     chatStreamRef := chatStreamRef w; localStorage := store;
     calls := calls w; closures := closures w; openStreams := openStreams w;
     streamCount := streamCount w;
     pendingInits := pendingInits w |}.

Definition logCall (c : ApiCall) (w : World) : World :=
  {| messages := messages w; input := input w; loading := loading w;
     aborting := aborting w; error := error w; initialized := initialized w;
     chatStreamRef := chatStreamRef w; localStorage := localStorage w;
     calls := calls w ++ [c]; closures := closures w;
     openStreams := openStreams w; streamCount := streamCount w;
     pendingInits := pendingInits w |}.

(** [sendMessageStream(text, device, ...callbacks)]: a new stream, open,
    with the closure of its callbacks; the stream is the call's value. *)
Definition sendMessageStream (text device : string) (c : Closure) (w : World)
    : nat * World :=
  let stream := streamCount w in
  (stream,
   {| messages := messages w; input := input w; loading := loading w;
      aborting := aborting w; error := error w; initialized := initialized w;
      chatStreamRef := chatStreamRef w; localStorage := localStorage w;
      calls := calls w ++ [SendMessageStream text device stream];
      closures := <[stream := c]> (closures w);
      openStreams := {[stream]} ∪ openStreams w;
      streamCount := S stream; pendingInits := pendingInits w |}).

(** [stream.close()] *)
Definition closeStream (stream : nat) (w : World) : World :=
  {| messages := messages w; input := input w; loading := loading w;
     aborting := aborting w; error := error w; initialized := initialized w;
     chatStreamRef := chatStreamRef w; localStorage := localStorage w;
     calls := calls w ++ [StreamClose stream]; closures := closures w;
     openStreams := openStreams w ∖ {[stream]}; streamCount := streamCount w;
     pendingInits := pendingInits w |}.

(** The stream has delivered its last event. *)
Definition endStream (stream : nat) (w : World) : World :=
  {| messages := messages w; input := input w; loading := loading w;
     aborting := aborting w; error := error w; initialized := initialized w;
     chatStreamRef := chatStreamRef w; localStorage := localStorage w;
     calls := calls w; closures := closures w;
     openStreams := openStreams w ∖ {[stream]}; streamCount := streamCount w;
     pendingInits := pendingInits w |}.

Definition setPendingInits (l : list PendingInit) (w : World) : World :=
  {| messages := messages w; input := input w; loading := loading w;
     aborting := aborting w; error := error w; initialized := initialized w;
     chatStreamRef := chatStreamRef w; localStorage := localStorage w;
     calls := calls w; closures := closures w; openStreams := openStreams w;
     streamCount := streamCount w; pendingInits := l |}.

Definition setClosure (stream : nat) (c : Closure) (w : World) : World :=
  {| messages := messages w; input := input w; loading := loading w;
     aborting := aborting w; error := error w; initialized := initialized w;
     chatStreamRef := chatStreamRef w; localStorage := localStorage w;
     calls := calls w; closures := <[stream := c]> (closures w);
     openStreams := openStreams w; streamCount := streamCount w;
     pendingInits := pendingInits w |}.

(** *** Helpers *)

(** White space.  The strings of the model hold the UTF-8 bytes of the
    strings of the program.  [String.prototype.trim] removes the WhiteSpace
    and LineTerminator code points of ECMAScript from both ends: U+0009 to
    U+000D, U+0020, U+00A0, U+1680, U+2000 to U+200A, U+2028, U+2029,
    U+202F, U+205F, U+3000 and U+FEFF, which take one, two or three bytes. *)
Definition byte (a : Ascii.ascii) : N := Ascii.N_of_ascii a.

(** U+0009 to U+000D and U+0020. *)
Definition white1 (a : Ascii.ascii) : bool :=
  ((9 <=? byte a) && (byte a <=? 13) || (byte a =? 32))%N.

(** U+00A0 is C2 A0. *)
Definition white2 (a b : Ascii.ascii) : bool :=
  ((byte a =? 194) && (byte b =? 160))%N.

(** U+1680 is E1 9A 80; U+2000 to U+200A, U+2028, U+2029 and U+202F are
    E2 80 followed by 80 to 8A, A8, A9 and AF; U+205F is E2 81 9F; U+3000 is
    E3 80 80; U+FEFF is EF BB BF. *)
Definition white3 (a b c : Ascii.ascii) : bool :=
  ((byte a =? 225) && (byte b =? 154) && (byte c =? 128)
   || (byte a =? 226) && (byte b =? 128)
      && ((128 <=? byte c) && (byte c <=? 138)
          || (byte c =? 168) || (byte c =? 169) || (byte c =? 175))
   || (byte a =? 226) && (byte b =? 129) && (byte c =? 159)
   || (byte a =? 227) && (byte b =? 128) && (byte c =? 128)
   || (byte a =? 239) && (byte b =? 187) && (byte c =? 191))%N.

(** The string with its leading white space removed. *)
Fixpoint trimStart (s : string) : string :=
  match s with
  | EmptyString => EmptyString
  | String a rest =>
      if white1 a then trimStart rest
      else
        match rest with
        | EmptyString => s
        | String b rest2 =>
            if white2 a b then trimStart rest2
            else
              match rest2 with
              | EmptyString => s
              | String c rest3 =>
                  if white3 a b c then trimStart rest3 else s
              end
        end
  end.

(** The string is made of white space only. *)
Fixpoint blank (s : string) : bool :=
  match s with
  | EmptyString => true
  | String a rest =>
      if white1 a then blank rest
      else
        match rest with
        | EmptyString => false
        | String b rest2 =>
            if white2 a b then blank rest2
            else
              match rest2 with
              | EmptyString => false
              | String c rest3 =>
                  if white3 a b c then blank rest3 else false
              end
        end
  end.

(** The string begins with a white space character. *)
Definition startsWhite (s : string) : bool :=
  match s with
  | EmptyString => false
  | String a rest =>
      white1 a
      || match rest with
         | EmptyString => false
         | String b rest2 =>
             white2 a b
             || match rest2 with
                | EmptyString => false
                | String c _ => white3 a b c
                end
         end
  end.

(** The string with its trailing white space removed: it is cut where
    what follows is white space only. *)
Fixpoint trimEnd (s : string) : string :=
  match s with
  | EmptyString => EmptyString
  | String a rest => if blank s then EmptyString else String a (trimEnd rest)
  end.

(** [String.prototype.trim] *)
Definition trim (s : string) : string := trimEnd (trimStart s).

(** [prev.map(msg => msg.id === target ? f(msg) : msg)] *)
Definition updateById (target : string) (f : Message → Message)
    (prev : list Message) : list Message :=
  map (λ msg, if String.eqb (id msg) target then f msg else msg) prev.

Definition isAssistant (r : Role) : bool :=
  match r with assistant => true | user => false end.

(** A truthy optional boolean. *)
Definition truthy (b : option bool) : bool :=
  match b with Some true => true | _ => false end.

Definition asUserMessage (m : Message) : History.UserMessage :=
  {| History.u_content := content m; History.u_timestamp := timestamp m |}.

Definition asAgentMessage (m : Message) : History.AgentMessage :=
  {| History.a_content := content m; History.a_timestamp := timestamp m;
     History.a_success := success m; History.a_steps := steps m;
     History.a_thinking := thinking m; History.a_actions := actions m |}.

(** *** Handlers.  A handler runs as one step from its call to its first
    [await] of a call to the backend, and as one more step from there when
    that call has returned: in between, anything else can happen to the
    panel.  A clock reading [now] and the outcome of the awaited call are
    arguments of the step. *)

(** [handleInit(force)] up to its [await]: without a configuration it
    returns; otherwise it calls [initAgent] and waits.  [resumesSend] is the
    input of the [handleSend] that awaits this [handleInit], if one does. *)
Definition handleInit (P : DevicePanelProps) (force : bool)
    (resumesSend : option string) (w : World) : World :=
  match config P with
  | None => w
  | Some _ =>
      let w := logCall (InitAgent (deviceId P) force) w in
      setPendingInits
        (pendingInits w
           ++ [{| initForce := force; resumesSend := resumesSend |}]) w
  end.

(** [handleInit(force)] from its [await] on; [initAgent_result] is [None]
    when [initAgent] resolved and [Some msg] when it rejected with message
    [msg]. *)
Definition handleInitResumes (force : bool) (initAgent_result : option string)
    (w : World) : World :=
  match initAgent_result with
  | None => setError None (setInitialized true w)
  | Some errorMessage =>
      let w := setError (Some errorMessage) w in
      if force then setInitialized false w else w
  end.

(** [handleSend] from the declaration of [userMessage] on, that is after
    the guard and after [handleInit], if it was awaited, has returned. *)
Definition handleSendResumes (P : DevicePanelProps) (inputValue : string)
    (now : Z) (w : World) : World :=
  let userMessage :=
    {| id := pretty now; role := user; content := inputValue;
       timestamp := now; steps := None; success := None; thinking := None;
       actions := None; isStreaming := None; currentThinking := None |} in
  let w := setMessages (λ prev, prev ++ [userMessage]) w in
  let w := setInput "" w in
  let w := setLoading true w in
  let w := setError None w in
  let agentMessageId := pretty (now + 1) in
  let agentMessage :=
    {| id := agentMessageId; role := assistant; content := "";
       timestamp := now; steps := None; success := None;
       thinking := Some []; actions := Some [];
       isStreaming := Some true; currentThinking := Some "" |} in
  let w := setMessages (λ prev, prev ++ [agentMessage]) w in
  let closure :=
    {| userMessage := userMessage; agentMessageId := agentMessageId;
       agentMessage := agentMessage; thinkingList := []; actionsList := [];
       currentThinkingText := ""; thinkingChunksBuffer := [];
       updateTimeoutId := None |} in
  let '(stream, w) :=
    sendMessageStream (content userMessage) (deviceId P) closure w in
  setChatStreamRef (Some stream) w.

(** [handleSend] up to its [await].  On an initialized panel there is
    none and the handler runs to its end.  Without a configuration
    [handleInit] returns without a call, and nothing comes between its
    return and the rest of [handleSend]. *)
Definition handleSend (P : DevicePanelProps) (now : Z) (w : World) : World :=
  let inputValue := trim (input w) in
  if String.eqb inputValue "" || loading w then w
  else if initialized w then handleSendResumes P inputValue now w
  else
    match config P with
    | None => handleSendResumes P inputValue now (handleInit P false None w)
    | Some _ => handleInit P false (Some inputValue) w
    end.

(** [initAgent] returns to the [k]-th of the handlers that wait for it:
    [handleInit] goes on, and then the [handleSend] that awaited it, if
    there is one. *)
Definition initAgentReturns (P : DevicePanelProps) (k : nat)
    (initAgent_result : option string) (now : Z) (w : World) : World :=
  match pendingInits w !! k with
  | None => w
  | Some p =>
      let w := setPendingInits (delete k (pendingInits w)) w in
      let w := handleInitResumes (initForce p) initAgent_result w in
      match resumesSend p with
      | Some inputValue => handleSendResumes P inputValue now w
      | None => w
      end
  end.

(** [flushThinkingUpdate] *)
Definition flushThinkingUpdate (c : Closure) (w : World) : Closure * World :=
  match thinkingChunksBuffer c with
  | [] =>
      ({| userMessage := userMessage c; agentMessageId := agentMessageId c;
          agentMessage := agentMessage c; thinkingList := thinkingList c;
          actionsList := actionsList c;
          currentThinkingText := currentThinkingText c;
          thinkingChunksBuffer := []; updateTimeoutId := None |}, w)
  | _ :: _ =>
      let chunksToAdd := String.concat "" (thinkingChunksBuffer c) in
      let text := currentThinkingText c +:+ chunksToAdd in
      ({| userMessage := userMessage c; agentMessageId := agentMessageId c;
          agentMessage := agentMessage c; thinkingList := thinkingList c;
          actionsList := actionsList c; currentThinkingText := text;
          thinkingChunksBuffer := []; updateTimeoutId := None |},
       setMessages
         (updateById (agentMessageId c)
            (λ msg,
               {| id := id msg; role := role msg; content := content msg;
                  timestamp := timestamp msg; steps := steps msg;
                  success := success msg; thinking := thinking msg;
                  actions := actions msg; isStreaming := isStreaming msg;
                  currentThinking := Some text |}))
         w)
  end.

(** The thinking-chunk callback; [timer] is what [setTimeout] returns. *)
Definition onThinkingChunk (c : Closure) (event : ThinkingChunkEvent.t)
    (timer : nat) (w : World) : Closure * World :=
  ({| userMessage := userMessage c; agentMessageId := agentMessageId c;
      agentMessage := agentMessage c; thinkingList := thinkingList c;
      actionsList := actionsList c;
      currentThinkingText := currentThinkingText c;
      thinkingChunksBuffer :=
        thinkingChunksBuffer c ++ [ThinkingChunkEvent.chunk event];
      updateTimeoutId :=
        match updateTimeoutId c with
        | None => Some timer
        | Some running => Some running
        end |}, w).

(** The step callback. *)
Definition onStep (c : Closure) (event : StepEvent.t) (w : World)
    : Closure * World :=
  let '(c, w) :=
    match updateTimeoutId c with
    | Some _ => flushThinkingUpdate c w
    | None => (c, w)
    end in
  let stepThinking :=
    if String.eqb (StepEvent.thinking event) ""
    then currentThinkingText c else StepEvent.thinking event in
  let thinkingList' :=
    if String.eqb stepThinking "" then thinkingList c
    else thinkingList c ++ [stepThinking] in
  let actionsList' := actionsList c ++ [StepEvent.action event] in
  ({| userMessage := userMessage c; agentMessageId := agentMessageId c;
      agentMessage := agentMessage c; thinkingList := thinkingList';
      actionsList := actionsList'; currentThinkingText := "";
      thinkingChunksBuffer := thinkingChunksBuffer c;
      updateTimeoutId := updateTimeoutId c |},
   setMessages
     (updateById (agentMessageId c)
        (λ msg,
           {| id := id msg; role := role msg; content := content msg;
              timestamp := timestamp msg;
              steps := Some (StepEvent.step event);
              success := success msg; thinking := Some thinkingList';
              actions := Some actionsList'; isStreaming := isStreaming msg;
              currentThinking := Some "" |}))
     w).

Section WithQuota.
Variable accepts : History.Storage → string → History.StoredText → bool.

(** [saveHistoryItem(deviceSerial, createHistoryItem(...))] *)
Definition saveToHistory (P : DevicePanelProps) (now : Z)
    (userMessage updatedAgentMessage : Message) (w : World) : World :=
  let historyItem :=
    History.createHistoryItem now (deviceSerial P) (deviceName P)
      (asUserMessage userMessage) (asAgentMessage updatedAgentMessage) in
  setLocalStorage
    (fst (History.saveHistoryItem accepts (localStorage w)
            (deviceSerial P) historyItem))
    w.

(** The done callback. *)
Definition onDone (P : DevicePanelProps) (c : Closure)
    (event : DoneEvent.t) (now : Z) (w : World) : World :=
  let updatedAgentMessage :=
    {| id := id (agentMessage c); role := role (agentMessage c);
       content := DoneEvent.message event;
       timestamp := now;
       steps := Some (DoneEvent.steps event);
       success := Some (DoneEvent.success event);
       thinking := Some (thinkingList c);
       actions := Some (actionsList c);
       isStreaming := Some false;
       currentThinking := None |} in
  let w :=
    setMessages (updateById (agentMessageId c) (λ _, updatedAgentMessage)) w in
  let w := setLoading false w in
  let w := setChatStreamRef None w in
  saveToHistory P now (userMessage c) updatedAgentMessage w.

(** The error callback. *)
Definition onError (P : DevicePanelProps) (c : Closure)
    (event : ErrorEvent.t) (now : Z) (w : World) : World :=
  let updatedAgentMessage :=
    {| id := id (agentMessage c); role := role (agentMessage c);
       content := "Error: " +:+ ErrorEvent.message event;
       timestamp := now;
       steps := steps (agentMessage c);
       success := Some false;
       thinking := Some (thinkingList c);
       actions := Some (actionsList c);
       isStreaming := Some false;
       currentThinking := None |} in
  let w :=
    setMessages (updateById (agentMessageId c) (λ _, updatedAgentMessage)) w in
  let w := setLoading false w in
  let w := setError (Some (ErrorEvent.message event)) w in
  let w := setChatStreamRef None w in
  saveToHistory P now (userMessage c) updatedAgentMessage w.

(** The aborted callback. *)
Definition onAborted (c : Closure) (event : AbortedEvent.t) (now : Z)
    (w : World) : World :=
  let updatedAgentMessage :=
    {| id := id (agentMessage c); role := role (agentMessage c);
       content :=
         History.or_else (AbortedEvent.message event) "Chat aborted by user";
       timestamp := now;
       steps := steps (agentMessage c);
       success := Some false;
       thinking := Some (thinkingList c);
       actions := Some (actionsList c);
       isStreaming := Some false;
       currentThinking := None |} in
  let w :=
    setMessages (updateById (agentMessageId c) (λ _, updatedAgentMessage)) w in
  let w := setLoading false w in
  setChatStreamRef None w.
End WithQuota.

(** The updater [handleAbortChat] passes to [setMessages]. *)
Definition abortLastMessage (aborted : string) (prev : list Message)
    : list Message :=
  match last prev with
  | Some lastMessage =>
      if isAssistant (role lastMessage) && truthy (isStreaming lastMessage)
      then
        imap (λ index msg,
                if Nat.eqb index (length prev - 1)%nat
                then {| id := id msg; role := role msg;
                        content := History.or_else (content msg) aborted;
                        timestamp := timestamp msg; steps := steps msg;
                        success := Some false; thinking := thinking msg;
                        actions := actions msg; isStreaming := Some false;
                        currentThinking := None |}
                else msg)
             prev
      else prev
  | None => prev
  end.

Definition handleAbortChat (P : DevicePanelProps) (w : World) : World :=
  match chatStreamRef w with
  | None => w
  | Some stream =>
      let w := setAborting true w in
      (* Close SSE connection first *)
      let w := closeStream stream w in
      let w := setChatStreamRef None w in
      (* Immediately update UI *)
      let w := setMessages (abortLastMessage (chat_aborted P)) w in
      (* Notify backend to abort (don't wait for response) *)
      let w := logCall (AbortChat (deviceId P)) w in
      (* finally *)
      let w := setLoading false w in
      setAborting false w
  end.

Definition handleReset (P : DevicePanelProps) (w : World) : World :=
  let w :=
    match chatStreamRef w with
    | Some stream => closeStream stream w
    | None => w
    end in
  let w := setMessages (λ _, []) w in
  let w := setLoading false w in
  let w := setError None w in
  let w := setChatStreamRef None w in
  logCall (ResetChat (deviceId P)) w.

(** *** The history popover, as far as the state above goes (the popover
    itself and the scroll refs are in [PanelView]) *)

(** The two messages [handleSelectHistory] makes of a history item. *)
Definition historyUserMessage (item : History.HistoryItem) : Message := {|
  id := History.id item +:+ "-user";
  role := user;
  content := History.taskText item;
  timestamp := History.startTime item;
  steps := None; success := None; thinking := None; actions := None;
  isStreaming := None; currentThinking := None |}.

Definition historyAgentMessage (item : History.HistoryItem) : Message := {|
  id := History.id item +:+ "-agent";
  role := assistant;
  content := History.finalMessage item;
  timestamp := History.endTime item;
  steps := Some (History.steps item);
  success := Some (History.success item);
  thinking := Some (History.thinking item);
  actions := Some (History.actions item);
  isStreaming := Some false;
  currentThinking := None |}.

(** [handleSelectHistory]: [setMessages(newMessages)]. *)
Definition selectHistory (item : History.HistoryItem) (w : World) : World :=
  setMessages (λ _, [historyUserMessage item; historyAgentMessage item]) w.

(** [handleClearHistory]: [clearHistory(deviceSerial)] when the answer of
    [confirm] is yes. *)
Definition clearStoredHistory (confirmed : bool) (P : DevicePanelProps)
    (w : World) : World :=
  if confirmed
  then setLocalStorage (History.clearHistory (localStorage w) (deviceSerial P)) w
  else w.

(** *** The panel as a transition system *)

Inductive StreamEvent :=
| ThinkingChunk (event : ThinkingChunkEvent.t) (timer : nat)
| Step (event : StepEvent.t)
| Done (event : DoneEvent.t)
| Error (event : ErrorEvent.t)
| Aborted (event : AbortedEvent.t).

Definition isTerminal (ev : StreamEvent) : bool :=
  match ev with
  | Done _ | Error _ | Aborted _ => true
  | ThinkingChunk _ _ | Step _ => false
  end.

(** What can happen to a mounted panel whose props stay as they are: a call
    of any handler of the component that touches the state above, the
    return of an awaited [initAgent], an event of a stream, a timer. *)
Inductive Action :=
| Typing (text : string)
    (* [setInput]: the textarea, and [handleExecuteWorkflow] *)
| ClickSend (now : Z)
    (* [handleSend]: the button, and Ctrl or Cmd with Enter *)
| CallInit (force : bool)
    (* [handleInit(force)]: the button and the effect on mount, and the
       effect that re-initializes *)
| InitAgentReturns (k : nat) (initAgent_result : option string) (now : Z)
| ClickAbort
| ClickReset
| SelectHistory (item : History.HistoryItem)
| ClearHistory (confirmed : bool)
| DeleteItem (itemId : string)
| Deliver (stream : nat) (ev : StreamEvent) (now : Z)
| TimerFires (stream : nat).

Section WithQuota.
Variable accepts : History.Storage → string → History.StoredText → bool.
(** [deleteHistoryItem] of utils/history.ts is not among the sources; it is
    taken as it comes: some function of the store, the device and the id
    of the item. *)
Variable deleteHistoryItem : History.Storage → string → string → History.Storage.

(** Modelled from the spec: the EventChannel behind [sendMessageStream]
    (api.ts is not among the sources).  An open stream hands each event
    to the callback of its kind; a terminal event (done, error, aborted)
    is the last one of its stream; a closed stream delivers nothing. *)
Definition deliver (P : DevicePanelProps) (stream : nat) (ev : StreamEvent)
    (now : Z) (w : World) : World :=
  if bool_decide (stream ∈ openStreams w) then
    match closures w !! stream with
    | None => w
    | Some c =>
        match ev with
        | ThinkingChunk event timer =>
            let '(c, w) := onThinkingChunk c event timer w in
            setClosure stream c w
        | Step event =>
            let '(c, w) := onStep c event w in
            setClosure stream c w
        | Done event => endStream stream (onDone accepts P c event now w)
        | Error event => endStream stream (onError accepts P c event now w)
        | Aborted event => endStream stream (onAborted c event now w)
        end
    end
  else w.

(** The 50 ms timer of a closure fires: [flushThinkingUpdate]. *)
Definition timerFires (stream : nat) (w : World) : World :=
  match closures w !! stream with
  | Some c =>
      match updateTimeoutId c with
      | Some _ =>
          let '(c, w) := flushThinkingUpdate c w in
          setClosure stream c w
      | None => w
      end
  | None => w
  end.

(** [handleDeleteItem]: [deleteHistoryItem(deviceSerial, itemId)]. *)
Definition deleteStoredItem (P : DevicePanelProps) (itemId : string)
    (w : World) : World :=
  setLocalStorage (deleteHistoryItem (localStorage w) (deviceSerial P) itemId) w.

Definition act (P : DevicePanelProps) (w : World) (a : Action) : World :=
  match a with
  | Typing text => setInput text w
  | ClickSend now => handleSend P now w
  | CallInit force => handleInit P force None w
  | InitAgentReturns k initAgent_result now =>
      initAgentReturns P k initAgent_result now w
  | ClickAbort => handleAbortChat P w
  | ClickReset => handleReset P w
  | SelectHistory item => selectHistory item w
  | ClearHistory confirmed => clearStoredHistory confirmed P w
  | DeleteItem itemId => deleteStoredItem P itemId w
  | Deliver stream ev now => deliver P stream ev now w
  | TimerFires stream => timerFires stream w
  end.

Definition actAll (P : DevicePanelProps) (w : World) (l : list Action)
    : World :=
  fold_left (act P) l w.

(** Does the action, taken in [w], end the run of [stream] as aborted:
    the stop button while the panel refers to the stream, or the aborted
    event of the stream reaching its callback. *)
Definition abortsRun (stream : nat) (w : World) (a : Action) : bool :=
  match a with
  | ClickAbort => bool_decide (chatStreamRef w = Some stream)
  | Deliver s (Aborted _) _ =>
      bool_decide (s = stream) && bool_decide (stream ∈ openStreams w)
      && bool_decide (is_Some (closures w !! stream))
  | _ => false
  end.

(** How often the run of [stream] is ended as aborted along a trace. *)
Fixpoint abortedOutcomes (P : DevicePanelProps) (stream : nat) (w : World)
    (l : list Action) : nat :=
  match l with
  | [] => 0
  | a :: rest =>
      ((if abortsRun stream w a then 1 else 0)
       + abortedOutcomes P stream (act P w a) rest)%nat
  end.
End WithQuota.

(** How many streams a call log opened. *)
Definition opensStream (c : ApiCall) : bool :=
  match c with SendMessageStream _ _ _ => true | _ => false end.

Definition streamsStarted (l : list ApiCall) : nat :=
  length (List.filter opensStream l).

(** The stream the panel refers to is the only one that can be open, and
    the panel is loading while it refers to one. *)
Definition coherent (w : World) : Prop :=
  match chatStreamRef w with
  | Some stream => openStreams w ⊆ {[stream]} ∧ loading w = true
  | None => openStreams w = ∅
  end.

(** The streams in use were numbered by the counter. *)
Definition wellNumbered (w : World) : Prop :=
  (∀ stream, chatStreamRef w = Some stream → (stream < streamCount w)%nat)
  ∧ (∀ stream, stream ∈ openStreams w → (stream < streamCount w)%nat).

(** The run of the stream is over for the panel: the stream is closed and
    the panel does not refer to it. *)
Definition over (stream : nat) (w : World) : Prop :=
  (stream < streamCount w)%nat ∧ (stream ∉ openStreams w)
  ∧ chatStreamRef w ≠ Some stream.

(** [w'] differs from [w] in neither flag, reference, streams nor calls. *)
Definition sameControl (w w' : World) : Prop :=
  chatStreamRef w' = chatStreamRef w ∧ loading w' = loading w
  ∧ openStreams w' = openStreams w ∧ calls w' = calls w.

(** Every message of the run has left the streaming state. *)
Definition runSettled (c : Closure) (w : World) : Prop :=
  loading w = false
  ∧ chatStreamRef w = None
  ∧ Forall (λ msg, id msg = agentMessageId c → isStreaming msg = Some false)
      (messages w).

(** A configured panel; the panel after [initAgent], called on mount, has
    returned; and the world right after a first message was sent from it,
    for trying the handlers on. *)
Definition sampleProps : DevicePanelProps := {|
  deviceId := "emulator-5554"; deviceSerial := "SER1"; deviceName := "Pixel";
  config := Some {| base_url := "http://localhost"; model_name := "glm";
                    api_key := None; thinking_mode := None;
                    agent_type := None |};
  chat_aborted := "Aborted" |}.

Definition sampleReady : World :=
  initAgentReturns sampleProps 0 None 1699999999000
    (handleInit sampleProps false None (initialWorld ∅)).

Definition sampleRunning : World :=
  handleSend sampleProps 1700000000000 (setInput "open settings" sampleReady).

End DevicePanel.

(** ** The anomaly detector of the orchestrator (dual_agent.py) *)
Module AnomalyMonitor.

(** The [AnomalyState] dataclass as the development log prints it, with
    its defaults. *)
Record AnomalyState := {
  consecutive_failures : nat;
  consecutive_same_screen : nat;
  last_screenshot_hash : string;
  last_action : string;
  repeated_actions : nat;
}.

Definition initial : AnomalyState := {|
  consecutive_failures := 0;
  consecutive_same_screen := 0;
  last_screenshot_hash := "";
  last_action := "";
  repeated_actions := 0;
|}.

(** Modelled from the spec: the thresholds N, M and K of section 4.1, which
    the detector of dual_agent.py (not among the sources) is configured with. *)
Record Thresholds := {
  sameScreenLimit : nat;
  failureLimit : nat;
  repeatLimit : nat;
}.

(** Modelled from the spec: the default thresholds 3, 2 and 3 of section 4.1. *)
Definition defaults : Thresholds :=
  {| sameScreenLimit := 3; failureLimit := 2; repeatLimit := 3 |}.

(** Modelled from the spec: the three rules of section 4.1, in their order. *)
Inductive Rule := ScreenNotChanging | ConsecutiveFailures | ActionHasNoEffect.

(** Modelled from the spec: the AnomalyContext of section 4.1 (which rule
    fired, its count, and the action it fired on). *)
Record AnomalyContext := {
  rule : Rule;
  count : nat;
  lastAction : string;
}.

(** Modelled from the spec: the three arguments of [observe]. *)
Record Observation := {
  screenFingerprint : string;
  actionSignature : string;
  outcomeSuccess : bool;
}.

(** Modelled from the spec: [observe] of section 4.1 (the detector lives in
    dual_agent.py, which is not among the sources).  A counter whose
    condition holds on the new observation grows by one, a counter whose
    condition does not hold is reset; the rules are then tried in the
    order 1, 2, 3 and the first one at its threshold gives the context. *)
Definition observe (cfg : Thresholds) (st : AnomalyState) (o : Observation)
    : AnomalyState * option AnomalyContext :=
  let sameScreen := String.eqb (screenFingerprint o) (last_screenshot_hash st) in
  let sameAction := String.eqb (actionSignature o) (last_action st) in
  let screens := if sameScreen then S (consecutive_same_screen st) else 0%nat in
  let failures := if outcomeSuccess o then 0%nat else S (consecutive_failures st) in
  let repeats := if sameAction && sameScreen then S (repeated_actions st) else 0%nat in
  let st' := {|
    consecutive_failures := failures;
    consecutive_same_screen := screens;
    last_screenshot_hash := screenFingerprint o;
    last_action := actionSignature o;
    repeated_actions := repeats |} in
  let context r n :=
    Some {| rule := r; count := n; lastAction := actionSignature o |} in
  (st',
   if (sameScreenLimit cfg <=? screens)%nat then context ScreenNotChanging screens
   else if (failureLimit cfg <=? failures)%nat then context ConsecutiveFailures failures
   else if (repeatLimit cfg <=? repeats)%nat then context ActionHasNoEffect repeats
   else None).

(** The detector state after a sequence of observations, oldest first. *)
Definition observeAll (cfg : Thresholds) (st : AnomalyState)
    (history : list Observation) : AnomalyState :=
  fold_left (λ st o, fst (observe cfg st o)) history st.

(** *** The three conditions, read off an observation history
    (most recent observation first). *)

(** Fingerprint and action signature before the history began. *)
Definition previousFingerprint (older : list Observation) : string :=
  match older with
  | o :: _ => screenFingerprint o
  | [] => last_screenshot_hash initial
  end.

Definition previousAction (older : list Observation) : string :=
  match older with
  | o :: _ => actionSignature o
  | [] => last_action initial
  end.

(** The number of latest observations that each found the fingerprint of
    the observation before. *)
Fixpoint sameScreenStreak (recent : list Observation) : nat :=
  match recent with
  | [] => 0
  | o :: older =>
      if String.eqb (screenFingerprint o) (previousFingerprint older)
      then S (sameScreenStreak older) else 0
  end.

(** The number of latest observations that all failed. *)
Fixpoint failureStreak (recent : list Observation) : nat :=
  match recent with
  | [] => 0
  | o :: older => if outcomeSuccess o then 0 else S (failureStreak older)
  end.

(** The number of latest observations that each repeated the action of
    the observation before on an unchanged fingerprint. *)
Fixpoint repeatStreak (recent : list Observation) : nat :=
  match recent with
  | [] => 0
  | o :: older =>
      if String.eqb (actionSignature o) (previousAction older)
         && String.eqb (screenFingerprint o) (previousFingerprint older)
      then S (repeatStreak older) else 0
  end.

(** The first rule, in the order 1, 2, 3, whose streak is at its
    threshold, with that streak. *)
Definition firstRuleMet (cfg : Thresholds) (recent : list Observation)
    : option (Rule * nat) :=
  if (sameScreenLimit cfg <=? sameScreenStreak recent)%nat
  then Some (ScreenNotChanging, sameScreenStreak recent)
  else if (failureLimit cfg <=? failureStreak recent)%nat
  then Some (ConsecutiveFailures, failureStreak recent)
  else if (repeatLimit cfg <=? repeatStreak recent)%nat
  then Some (ActionHasNoEffect, repeatStreak recent)
  else None.

(** Two failed taps on changing screens, for trying the detector on. *)
Definition failedTap (fingerprint : string) : Observation :=
  {| screenFingerprint := fingerprint; actionSignature := "tap: send";
     outcomeSuccess := false |}.

End AnomalyMonitor.

(** ** The Batched (TURBO) strategy of the orchestrator (dual_agent.py) *)
Module Batched.

(** Modelled from the spec: ActionStep and ActionSequence of section 3 (the
    dataclasses of decision_model.py, which is not among the sources). *)
Record ActionStep := {
  action : string;
  target : string;
  content : option string;
  needsGeneration : bool;
}.

Record ActionSequence := {
  steps : list ActionStep;
  summary : string;
}.

(** Modelled from the spec: the event taxonomy of section 6, as the closed
    sum the orchestrator emits from. *)
Inductive Event :=
| plan (steps : list string) (estimatedActions : nat)
| decision_start (stage : string)
| decision_thinking (chunk : string)
| decision_result (action target : string)
| vision_start (stage : string)
| vision_recognition (description : string)
| action_start (action target : string)
| action_result (actionType target : string) (success : bool)
| step_complete (stepIndex : nat)
| task_complete
| error (message : string)
| aborted (message : string).

Definition isTerminal (e : Event) : bool :=
  match e with
  | task_complete | error _ | aborted _ => true
  | _ => false
  end.

(** Modelled from the spec: the states of section 4.4 a run can be in. *)
Inductive Status := Running | Done | Failed | Cancelled.

(** The re-plan limit of the development log ("at most 3 re-plans"). *)
Definition MAX_REPLANS : Z := 3.

(** Modelled from the spec: what the orchestrator keeps during a Batched run
    (current sequence and index, ReplanBudget, AnomalyState, executed steps)
    together with the events emitted so far. *)
Record Run := {
  sequence : list ActionStep;
  index : nat;
  replanBudget : Z;
  replansUsed : nat;
  anomaly : AnomalyMonitor.AnomalyState;
  executed : list ActionStep;
  emitted : list Event;
  status : Status;
}.

(** Modelled from the spec: what the collaborators of section 4.2 and 4.3
    answer during one iteration of the loop: the
    cancellation flag as read before each call, the text [humanize]
    returns, fingerprint and outcome of [execute], and the sequence
    [replan] returns. *)
Record Turn := {
  cancelledBeforeHumanize : bool;
  humanized : string;
  cancelledBeforeExecute : bool;
  fingerprint : string;
  outcomeSuccess : bool;
  cancelledBeforeReplan : bool;
  replanned : list ActionStep;
}.

Definition emit (events : list Event) (s : Status) (r : Run) : Run :=
  {| sequence := sequence r; index := index r;
     replanBudget := replanBudget r; replansUsed := replansUsed r;
     anomaly := anomaly r; executed := executed r;
     emitted := emitted r ++ events; status := s |}.

(** Modelled from the spec: step 4 of the Batched strategy (all steps
    consumed, emit done). *)
Definition finishIfConsumed (r : Run) : Run :=
  match status r with
  | Running =>
      if (length (sequence r) <=? index r)%nat
      then emit [task_complete] Done r else r
  | _ => r
  end.

Definition describe (a : ActionStep) : string := action a +:+ ": " +:+ target a.

(** What the detector is told about the execution of a step. *)
Definition observationOf (a : ActionStep) (t : Turn)
    : AnomalyMonitor.Observation :=
  {| AnomalyMonitor.screenFingerprint := fingerprint t;
     AnomalyMonitor.actionSignature := describe a;
     AnomalyMonitor.outcomeSuccess := outcomeSuccess t |}.

(** Modelled from the spec: step 1 of the Batched strategy (section 4.4). *)
Definition start (planned : ActionSequence) : Run :=
  finishIfConsumed
    {| sequence := steps planned; index := 0;
       replanBudget := MAX_REPLANS; replansUsed := 0;
       anomaly := AnomalyMonitor.initial; executed := [];
       emitted := [plan (map describe (steps planned)) (length (steps planned))];
       status := Running |}.

(** Modelled from the spec: the cancellation rule of section 4.4. *)
Definition cancel (r : Run) : Run := emit [aborted "aborted"] Cancelled r.

(** Modelled from the spec: steps 2 to 4 of the Batched strategy and the
    cancellation rule (section 4.4); the orchestrator is dual_agent.py,
    which is not among the sources. *)
Definition step (cfg : AnomalyMonitor.Thresholds) (r : Run) (t : Turn) : Run :=
  match status r with
  | Running =>
      match sequence r !! index r with
      | None => finishIfConsumed r
      | Some a =>
          if needsGeneration a && cancelledBeforeHumanize t then cancel r
          else if cancelledBeforeExecute t then cancel r
          else
            let a' :=
              {| action := action a; target := target a;
                 content := if needsGeneration a then Some (humanized t)
                            else content a;
                 needsGeneration := needsGeneration a |} in
            let '(anomaly', context) :=
              AnomalyMonitor.observe cfg (anomaly r) (observationOf a t) in
            let events :=
              [action_start (action a) (target a);
               action_result (action a) (target a) (outcomeSuccess t)] in
            match context with
            | None =>
                finishIfConsumed
                  {| sequence := sequence r; index := S (index r);
                     replanBudget := replanBudget r;
                     replansUsed := replansUsed r;
                     anomaly := anomaly'; executed := executed r ++ [a'];
                     emitted := emitted r ++ events ++ [step_complete (S (index r))];
                     status := Running |}
            | Some _ =>
                if (0 <? replanBudget r)%Z then
                  if cancelledBeforeReplan t
                  then cancel (emit events Running r)
                  else
                    finishIfConsumed
                      {| sequence := take (index r) (sequence r) ++ replanned t;
                         index := index r;
                         replanBudget := (replanBudget r - 1)%Z;
                         replansUsed := S (replansUsed r);
                         anomaly := anomaly'; executed := executed r;
                         emitted := emitted r ++ events;
                         status := Running |}
                else
                  {| sequence := sequence r; index := index r;
                     replanBudget := replanBudget r;
                     replansUsed := replansUsed r;
                     anomaly := anomaly'; executed := executed r;
                     emitted := emitted r ++ events ++ [error "recovery exhausted"];
                     status := Failed |}
            end
      end
  | _ => r
  end.

Definition run (cfg : AnomalyMonitor.Thresholds) (planned : ActionSequence)
    (turns : list Turn) : Run :=
  fold_left (step cfg) turns (start planned).

Definition terminalEvents (r : Run) : list Event :=
  List.filter isTerminal (emitted r).

(** The event that ends a run in the given status. *)
Definition endsIn (s : Status) (e : Event) : Prop :=
  match s, e with
  | Done, task_complete => True
  | Failed, error _ => True
  | Cancelled, aborted _ => True
  | _, _ => False
  end.

(** A running run has emitted no terminal event and has a step left; a
    run that is over has emitted one terminal event, the one of its
    status, as its last event. *)
Definition settled (r : Run) : Prop :=
  match status r with
  | Running => terminalEvents r = [] ∧ (index r < length (sequence r))%nat
  | s =>
      ∃ e, endsIn s e ∧ terminalEvents r = [e] ∧ last (emitted r) = Some e
  end.

(** Budget and counter add up to the limit, and the index is within the
    active sequence. *)
Definition bounded (r : Run) : Prop :=
  (0 ≤ replanBudget r)%Z
  ∧ (replanBudget r + Z.of_nat (replansUsed r) = MAX_REPLANS)%Z
  ∧ (index r ≤ length (sequence r))%nat.

(** A plan of taps and a turn on which the action fails on a new screen,
    for trying the strategy on. *)
Definition tap (name : string) : ActionStep :=
  {| action := "tap"; target := name; content := None;
     needsGeneration := false |}.

Definition samplePlan : ActionSequence :=
  {| steps := [tap "a"; tap "b"; tap "c"]; summary := "three taps" |}.

Definition succeedingTurn (screen : string) : Turn :=
  {| cancelledBeforeHumanize := false; humanized := "";
     cancelledBeforeExecute := false; fingerprint := screen;
     outcomeSuccess := true; cancelledBeforeReplan := false;
     replanned := [] |}.

Definition failingTurn (screen : string) : Turn :=
  {| cancelledBeforeHumanize := false; humanized := "";
     cancelledBeforeExecute := false; fingerprint := screen;
     outcomeSuccess := false; cancelledBeforeReplan := false;
     replanned := [tap "retry"; tap "then"] |}.

End Batched.

(** ** The orchestrator (dual_agent.py): modes, failures and the event
       channel *)
Module Orchestrator.

(** Modelled from the spec: the Mode of section 3 (the orchestrator is
    dual_agent.py, which is not among the sources). *)
Inductive Mode := Deliberate | Responsive | Batched.

(** Modelled from the spec: the two errors of section 7 that a call into
    DecisionAgent or PerceptionActuator raises, each with its message. *)
Inductive Fault :=
| ModelCallError (message : string)
| DeviceError (message : string).

Definition faultMessage (f : Fault) : string :=
  match f with
  | ModelCallError message | DeviceError message => message
  end.

(** Modelled from the spec: a call into a collaborator returns its result
    or raises one of the two errors (sections 4.2 and 4.3); with an error
    comes the cancellation flag as the orchestrator finds it when the
    error reaches it, since a cancellation takes precedence over an error
    that is forming (section 7). *)
Inductive Answer (A : Type) :=
| returned (a : A)
| raised (f : Fault) (cancelledMeanwhile : bool).
Arguments returned {A} a.
Arguments raised {A} f cancelledMeanwhile.

(** Modelled from the spec: Plan and Decision of section 3. *)
Record Plan := {
  planSteps : list string;
  estimatedActions : nat;
}.

Record Decision := {
  action : string;
  target : string;
  content : option string;
  completion : bool;
}.

(** Modelled from the spec: what a run is configured with: the maximum
    step count of section 4.4, the thresholds of the detector, and the
    stage names the [decision_start] and [vision_start] events carry
    (the specification names none). *)
Record Settings := {
  maxSteps : nat;
  thresholds : AnomalyMonitor.Thresholds;
  decisionStage : string;
  visionStage : string;
}.

(** *** The Deliberate/Responsive strategy *)

(** Modelled from the spec: what the orchestrator keeps during a
    Deliberate or Responsive run: the step count, the AnomalyState, the
    AnomalyContext pending for the next [decide], the running history, and
    the events emitted so far. *)
Record Loop := {
  stepCount : nat;
  anomaly : AnomalyMonitor.AnomalyState;
  pending : option AnomalyMonitor.AnomalyContext;
  history : list (Decision * bool);
  emitted : list Batched.Event;
  status : Batched.Status;
}.

(** Modelled from the spec: the start of a Deliberate or Responsive run:
    whether the optional plan is asked for, the cancellation flag as read
    before that call, and what [plan] answers. *)
Record Opening := {
  cancelledBeforePlan : bool;
  planned : option (Answer Plan);
}.

(** Modelled from the spec: what the collaborators answer during one
    iteration of the loop of section 4.4: the cancellation flag as read
    before each call, [decide] as a function of the running history and
    the pending AnomalyContext (its streamed reasoning, then its Decision),
    the description [recognize] returns, the fingerprint and success flag
    [execute] returns, and the flag as found when [execute] has returned
    (the outcome of an action that was in flight when the run was
    cancelled is discarded). *)
Record Round := {
  cancelledBeforeDecide : bool;
  decided : list (Decision * bool) → option AnomalyMonitor.AnomalyContext
            → Answer (list string * Decision);
  cancelledBeforeRecognize : bool;
  recognized : Answer string;
  cancelledBeforeExecute : bool;
  executed : Answer (string * bool);
  cancelledDuringExecute : bool;
}.

Definition emit (events : list Batched.Event) (s : Batched.Status)
    (r : Loop) : Loop :=
  {| stepCount := stepCount r; anomaly := anomaly r; pending := pending r;
     history := history r; emitted := emitted r ++ events; status := s |}.

(** Modelled from the spec: the cancellation rule of section 4.4. *)
Definition cancel (r : Loop) : Loop :=
  emit [Batched.aborted "aborted"] Batched.Cancelled r.

(** Modelled from the spec: ModelCallError and DeviceError are fatal in
    Deliberate and Responsive mode (sections 5 and 7), unless the run was
    cancelled meanwhile: then the error is suppressed in favour of
    [aborted] (section 7). *)
Definition fatal (f : Fault) (cancelledMeanwhile : bool) (r : Loop) : Loop :=
  if cancelledMeanwhile then cancel r
  else emit [Batched.error (faultMessage f)] Batched.Failed r.

(** Modelled from the spec: step 3 of the Deliberate/Responsive strategy. *)
Definition stopIfExceeded (cfg : Settings) (r : Loop) : Loop :=
  match status r with
  | Batched.Running =>
      if (maxSteps cfg <=? stepCount r)%nat
      then emit [Batched.error "step budget exceeded"] Batched.Failed r
      else r
  | _ => r
  end.

Definition idleLoop : Loop :=
  {| stepCount := 0; anomaly := AnomalyMonitor.initial; pending := None;
     history := []; emitted := []; status := Batched.Running |}.

(** Modelled from the spec: step 1 of the Deliberate/Responsive strategy
    (the plan is optional and for display only). *)
Definition startLoop (cfg : Settings) (o : Opening) : Loop :=
  match planned o with
  | None => stopIfExceeded cfg idleLoop
  | Some answer =>
      if cancelledBeforePlan o then cancel idleLoop
      else
        match answer with
        | raised f c => fatal f c idleLoop
        | returned p =>
            stopIfExceeded cfg
              (emit [Batched.plan (planSteps p) (estimatedActions p)]
                 Batched.Running idleLoop)
        end
  end.

(** Modelled from the spec: step 2 of the Deliberate/Responsive strategy,
    with the cancellation rule and the fatal errors of sections 5 and 7. *)
Definition round (cfg : Settings) (r : Loop) (t : Round) : Loop :=
  match status r with
  | Batched.Running =>
      if cancelledBeforeDecide t then cancel r
      else
        match decided t (history r) (pending r) with
        | raised f c => fatal f c r
        | returned (chunks, d) =>
            let r1 :=
              emit ([Batched.decision_start (decisionStage cfg)]
                      ++ map Batched.decision_thinking chunks
                      ++ [Batched.decision_result (action d) (target d)])
                Batched.Running r in
            if cancelledBeforeRecognize t then cancel r1
            else
              match recognized t with
              | raised f c => fatal f c r1
              | returned description =>
                  let r2 :=
                    emit [Batched.vision_start (visionStage cfg);
                          Batched.vision_recognition description]
                      Batched.Running r1 in
                  if cancelledBeforeExecute t then cancel r2
                  else
                    match executed t with
                    | raised f c => fatal f c r2
                    | returned (fingerprint, success) =>
                        if cancelledDuringExecute t then cancel r2 else
                        let '(anomaly', context) :=
                          AnomalyMonitor.observe (thresholds cfg) (anomaly r)
                            {| AnomalyMonitor.screenFingerprint := fingerprint;
                               AnomalyMonitor.actionSignature :=
                                 action d +:+ ": " +:+ target d;
                               AnomalyMonitor.outcomeSuccess := success |} in
                        let r3 :=
                          {| stepCount := S (stepCount r);
                             anomaly := anomaly'; pending := context;
                             history := history r ++ [(d, success)];
                             emitted :=
                               emitted r2
                                 ++ [Batched.action_start (action d) (target d);
                                     Batched.action_result (action d) (target d)
                                       success;
                                     Batched.step_complete (S (stepCount r))];
                             status := Batched.Running |} in
                        if completion d
                        then emit [Batched.task_complete] Batched.Done r3
                        else stopIfExceeded cfg r3
                    end
              end
        end
  | _ => r
  end.

Definition runLoop (cfg : Settings) (o : Opening) (rounds : list Round)
    : Loop :=
  fold_left (round cfg) rounds (startLoop cfg o).

(** *** The Batched strategy, with cancellation and errors at every call *)

(** Modelled from the spec: the start of a Batched run: the cancellation
    flag as read before [planBatch], and what [planBatch] answers. *)
Record BatchOpening := {
  stopBeforePlanBatch : bool;
  planBatchReturns : Answer Batched.ActionSequence;
}.

(** Modelled from the spec: what the collaborators answer during one
    iteration of the Batched loop, each call returning or raising: the
    flag read before each call, the fingerprint of the screen the detector
    is given, the answers of [humanize], [execute] and [replan], and the
    flag as found when [execute] has returned. *)
Record BatchRound := {
  stopBeforeHumanize : bool;
  humanizeReturns : Answer string;
  stopBeforeExecute : bool;
  screen : string;
  executeReturns : Answer bool;
  stopDuringExecute : bool;
  stopBeforeReplan : bool;
  replanReturns : Answer (list Batched.ActionStep);
}.

Definition hasRaised {A : Type} (a : Answer A) : bool :=
  match a with
  | raised _ _ => true
  | returned _ => false
  end.

(** The flag an error came with. *)
Definition cancelledAt {A : Type} (a : Answer A) : bool :=
  match a with
  | raised _ cancelledMeanwhile => cancelledMeanwhile
  | returned _ => false
  end.

(** Modelled from the spec: in Batched mode a ModelCallError or
    DeviceError is a step failure that is fed to the detector (section 5),
    the re-plan being the recovery (section 7).  So a raised [humanize]
    (on a step that needs it; [execute] is then not called) or a raised
    [execute] counts as a failed outcome, and a raised [replan] leaves the
    remaining steps as they are.  A cancellation found when a call has
    raised, or when [execute] has returned, ends the run like one found
    before the call: the error is suppressed, the outcome discarded. *)
Definition asTurn (r : Batched.Run) (b : BatchRound) : Batched.Turn :=
  let humanizeFailed :=
    match Batched.sequence r !! Batched.index r with
    | Some a => Batched.needsGeneration a && hasRaised (humanizeReturns b)
    | None => false
    end in
  {| Batched.cancelledBeforeHumanize :=
       stopBeforeHumanize b || cancelledAt (humanizeReturns b);
     Batched.humanized :=
       match humanizeReturns b with
       | returned text => text
       | raised _ _ => ""
       end;
     Batched.cancelledBeforeExecute :=
       negb humanizeFailed
       && (stopBeforeExecute b || stopDuringExecute b
           || cancelledAt (executeReturns b));
     Batched.fingerprint := screen b;
     Batched.outcomeSuccess :=
       match executeReturns b with
       | returned success => negb humanizeFailed && success
       | raised _ _ => false
       end;
     Batched.cancelledBeforeReplan :=
       stopBeforeReplan b || cancelledAt (replanReturns b);
     Batched.replanned :=
       match replanReturns b with
       | returned sequence => sequence
       | raised _ _ => drop (Batched.index r) (Batched.sequence r)
       end |}.

(** Some cancellation flag of the iteration was found set. *)
Definition stopObserved (b : BatchRound) : bool :=
  stopBeforeHumanize b || cancelledAt (humanizeReturns b)
  || stopBeforeExecute b || stopDuringExecute b
  || cancelledAt (executeReturns b)
  || stopBeforeReplan b || cancelledAt (replanReturns b).

Definition stepBatched (cfg : AnomalyMonitor.Thresholds) (r : Batched.Run)
    (b : BatchRound) : Batched.Run :=
  Batched.step cfg r (asTurn r b).

Definition idleRun : Batched.Run :=
  {| Batched.sequence := []; Batched.index := 0;
     Batched.replanBudget := Batched.MAX_REPLANS; Batched.replansUsed := 0;
     Batched.anomaly := AnomalyMonitor.initial; Batched.executed := [];
     Batched.emitted := []; Batched.status := Batched.Running |}.

(** Modelled from the spec: step 1 of the Batched strategy with the
    cancellation rule; without a sequence there is no step to fail and no
    re-plan, so a raised [planBatch] ends the run with an error event, or
    with [aborted] if the run was cancelled meanwhile (section 7). *)
Definition startBatched (o : BatchOpening) : Batched.Run :=
  if stopBeforePlanBatch o then Batched.cancel idleRun
  else
    match planBatchReturns o with
    | returned planned => Batched.start planned
    | raised f cancelledMeanwhile =>
        if cancelledMeanwhile then Batched.cancel idleRun
        else
          Batched.emit [Batched.error (faultMessage f)] Batched.Failed idleRun
    end.

Definition runBatched (cfg : AnomalyMonitor.Thresholds) (o : BatchOpening)
    (rounds : list BatchRound) : Batched.Run :=
  fold_left (stepBatched cfg) rounds (startBatched o).

(** *** One interface for the three modes *)

(** Modelled from the spec: what a caller sees of a run: the events of its
    channel and how it stands, with the current-step index. *)
Record Trace := {
  events : list Batched.Event;
  outcome : Batched.Status;
  stepIndex : nat;
}.

(** Everything the collaborators answer during a run, for either
    strategy. *)
Record Answers := {
  opening : Opening;
  rounds : list Round;
  batchOpening : BatchOpening;
  batchRounds : list BatchRound;
}.

(** Modelled from the spec: the mode selects the strategy; Deliberate and
    Responsive share one (section 3). *)
Definition runTask (cfg : Settings) (m : Mode) (a : Answers) : Trace :=
  match m with
  | Deliberate | Responsive =>
      let r := runLoop cfg (opening a) (rounds a) in
      {| events := emitted r; outcome := status r; stepIndex := stepCount r |}
  | Batched =>
      let r := runBatched (thresholds cfg) (batchOpening a) (batchRounds a) in
      {| events := Batched.emitted r; outcome := Batched.status r;
         stepIndex := Batched.index r |}
  end.

Definition terminalEvents (t : Trace) : list Batched.Event :=
  List.filter Batched.isTerminal (events t).

(** *** The event channel *)

Definition payload (tag stage chunk : string) (decision : DualModel.Act.t)
    (plan : DualModel.Plan.t) (description : string)
    (action : DualModel.Act.t) (action_type target : string)
    (success : bool) (step : Z) : DualModel.DualModelStreamEvent :=
  {| DualModel.type := tag; DualModel.stage := stage;
     DualModel.chunk := chunk; DualModel.decision := decision;
     DualModel.plan := plan; DualModel.description := description;
     DualModel.action := action; DualModel.action_type := action_type;
     DualModel.target := target; DualModel.success := success;
     DualModel.step := step |}.

Definition noAct : DualModel.Act.t :=
  {| DualModel.Act.action := ""; DualModel.Act.target := "" |}.

Definition noPlan : DualModel.Plan.t :=
  {| DualModel.Plan.steps := []; DualModel.Plan.estimated_actions := 0 |}.

(** Modelled from the spec: an event on the EventChannel as the object the
    consumer of useDualModelState.ts is handed: the tag is the event's
    name (the plan event travels as [task_plan]) and the payload of
    section 6 sits in the fields [handleEvent] reads for that tag. *)
Definition wire (e : Batched.Event) : DualModel.DualModelStreamEvent :=
  match e with
  | Batched.plan steps estimatedActions =>
      payload "task_plan" "" "" noAct
        {| DualModel.Plan.steps := steps;
           DualModel.Plan.estimated_actions := Z.of_nat estimatedActions |}
        "" noAct "" "" false 0
  | Batched.decision_start stage =>
      payload "decision_start" stage "" noAct noPlan "" noAct "" "" false 0
  | Batched.decision_thinking chunk =>
      payload "decision_thinking" "" chunk noAct noPlan "" noAct "" "" false 0
  | Batched.decision_result action target =>
      payload "decision_result" "" ""
        {| DualModel.Act.action := action; DualModel.Act.target := target |}
        noPlan "" noAct "" "" false 0
  | Batched.vision_start stage =>
      payload "vision_start" stage "" noAct noPlan "" noAct "" "" false 0
  | Batched.vision_recognition description =>
      payload "vision_recognition" "" "" noAct noPlan description noAct
        "" "" false 0
  | Batched.action_start action target =>
      payload "action_start" "" "" noAct noPlan ""
        {| DualModel.Act.action := action; DualModel.Act.target := target |}
        "" "" false 0
  | Batched.action_result actionType target success =>
      payload "action_result" "" "" noAct noPlan "" noAct actionType target
        success 0
  | Batched.step_complete stepIndex =>
      payload "step_complete" "" "" noAct noPlan "" noAct "" "" false
        (Z.of_nat stepIndex)
  | Batched.task_complete =>
      payload "task_complete" "" "" noAct noPlan "" noAct "" "" false 0
  | Batched.error _ =>
      payload "error" "" "" noAct noPlan "" noAct "" "" false 0
  | Batched.aborted _ =>
      payload "aborted" "" "" noAct noPlan "" noAct "" "" false 0
  end.

(** What the consumer of useDualModelState.ts shows after the events of a
    channel. *)
Definition shown (events : list Batched.Event) : DualModel.DualModelState :=
  DualModel.handleAll DualModel.initialState (map wire events).

(** Modelled from the spec: the terminal events as the callbacks of the
    panel's chat stream receive them: [done], [error] and [aborted] with
    their message.  The [done] callback also gets a message and a step
    count, which the taxonomy of section 6 does not name; they are passed
    in. *)
Definition toPanel (summary : DevicePanel.DoneEvent.t) (e : Batched.Event)
    : option DevicePanel.StreamEvent :=
  match e with
  | Batched.task_complete => Some (DevicePanel.Done summary)
  | Batched.error message =>
      Some (DevicePanel.Error {| DevicePanel.ErrorEvent.message := message |})
  | Batched.aborted message =>
      Some (DevicePanel.Aborted
              {| DevicePanel.AbortedEvent.message := message |})
  | _ => None
  end.

(** An event that neither moves the step index nor carries a plan. *)
Definition quiet (e : Batched.Event) : bool :=
  match e with
  | Batched.step_complete _ | Batched.plan _ _ => false
  | _ => true
  end.

(** The consumer follows the step index: the step values of the channel
    ascend from 0 to [n], and [n] is the step the consumer shows. *)
Definition tracks (events : list Batched.Event) (n : nat) : Prop :=
  DualModel.stepsAscend 0 (Z.of_nat n) (map wire events)
  ∧ DualModel.currentStep (shown events) = Z.of_nat n.

(** An event in the middle of a run: it neither moves the step index,
    nor carries a plan, nor ends the run. *)
Definition passing (e : Batched.Event) : Prop :=
  quiet e = true ∧ Batched.isTerminal e = false.

Definition endOf (ending : option Batched.Event) : list Batched.Event :=
  match ending with
  | Some e => [e]
  | None => []
  end.

(** A running loop has emitted no terminal event and has a step left in
    its budget; one that is over has emitted one terminal event, the one of
    its status, as its last event. *)
Definition settled (cfg : Settings) (r : Loop) : Prop :=
  match status r with
  | Batched.Running =>
      List.filter Batched.isTerminal (emitted r) = []
      ∧ (stepCount r < maxSteps cfg)%nat
  | s =>
      ∃ e, Batched.endsIn s e
           ∧ List.filter Batched.isTerminal (emitted r) = [e]
           ∧ last (emitted r) = Some e
  end.

(** What is left to do in a Batched run when no re-plan is longer than
    [longest]: the steps left in the sequence, and for every re-plan left
    in the budget one step that fails and a new sequence. *)
Definition workLeft (longest : nat) (r : Batched.Run) : nat :=
  (length (Batched.sequence r) - Batched.index r
   + Z.to_nat (Batched.replanBudget r) * S longest)%nat.

(** The re-plans of a Batched round are at most [longest] steps long. *)
Definition replansWithin (longest : nat) (b : BatchRound) : Prop :=
  match replanReturns b with
  | returned sequence => (length sequence ≤ longest)%nat
  | raised _ _ => True
  end.

(** Settings, and the answers of a Batched run of two taps whose second
    step is re-planned into two, for trying the channel on. *)
Definition sampleSettings : Settings :=
  {| maxSteps := 10; thresholds := AnomalyMonitor.defaults;
     decisionStage := "analyzing"; visionStage := "capturing" |}.

Definition tapFails (fingerprint : string) : BatchRound :=
  {| stopBeforeHumanize := false; humanizeReturns := returned "";
     stopBeforeExecute := false; screen := fingerprint;
     executeReturns := returned false; stopDuringExecute := false;
     stopBeforeReplan := false;
     replanReturns := returned [Batched.tap "retry"; Batched.tap "then"] |}.

Definition tapSucceeds (fingerprint : string) : BatchRound :=
  {| stopBeforeHumanize := false; humanizeReturns := returned "";
     stopBeforeExecute := false; screen := fingerprint;
     executeReturns := returned true; stopDuringExecute := false;
     stopBeforeReplan := false;
     replanReturns := returned [] |}.

Definition replannedRun : Answers :=
  {| opening := {| cancelledBeforePlan := false; planned := None |};
     rounds := [];
     batchOpening :=
       {| stopBeforePlanBatch := false;
          planBatchReturns :=
            returned {| Batched.steps := [Batched.tap "a"; Batched.tap "b"];
                        Batched.summary := "two taps" |} |};
     batchRounds :=
       [tapFails "s1"; tapFails "s2"; tapSucceeds "s3"; tapSucceeds "s4"] |}.

(** An iteration of the loop in which every call returns: a tap is
    decided, found and executed on a screen with the given fingerprint. *)
Definition tapRound (fingerprint : string) (finished : bool) : Round :=
  {| cancelledBeforeDecide := false;
     decided := λ _ _,
       returned (["the button is visible"],
                 {| action := "tap"; target := "send"; content := None;
                    completion := finished |});
     cancelledBeforeRecognize := false;
     recognized := returned "a button labelled send";
     cancelledBeforeExecute := false;
     executed := returned (fingerprint, true);
     cancelledDuringExecute := false |}.

Definition stepwiseRun (l : list Round) : Answers :=
  {| opening :=
       {| cancelledBeforePlan := false;
          planned :=
            Some (returned {| planSteps := ["open the chat"; "send"];
                              estimatedActions := 2 |}) |};
     rounds := l;
     batchOpening :=
       {| stopBeforePlanBatch := false;
          planBatchReturns := raised (ModelCallError "not asked") false |};
     batchRounds := [] |}.

End Orchestrator.

(** ** utils/history.ts: reading, formatting and grouping *)
Module HistoryRead.

(** [{...item, startTime: new Date(item.startTime), endTime: new Date(item.endTime)}] *)
Definition reviveDates (item : History.HistoryItem) : History.HistoryItem := {|
  History.id := History.id item;
  History.deviceId := History.deviceId item;
  History.deviceName := History.deviceName item;
  History.taskText := History.taskText item;
  History.success := History.success item;
  History.steps := History.steps item;
  History.startTime := History.startTime item;
  History.endTime := History.endTime item;
  History.duration := History.duration item;
  History.thinking := History.thinking item;
  History.actions := History.actions item;
  History.finalMessage := History.finalMessage item;
  History.errorMessage := History.errorMessage item;
|}.

(** [loadHistoryItems]: nothing stored gives [[]], and so does whatever makes
    the [try] block throw. *)
Definition loadHistoryItems (localStorage : History.Storage) (deviceId : string)
    : list History.HistoryItem :=
  match localStorage !! History.historyKey deviceId with
  | None => []
  | Some History.EmptyText => []
  | Some (History.Json parsed) => map reviveDates parsed
  | Some History.Malformed => []
  end.

(** [formatDuration(ms)], for an integral number of milliseconds:
    [Math.floor] is the floor division, [%] the remainder that takes the
    sign of the dividend. *)
Definition formatDuration (ms : Z) : string :=
  let totalSeconds := ms `div` 1000 in
  let minutes := totalSeconds `div` 60 in
  let seconds := totalSeconds `rem` 60 in
  if minutes =? 0 then pretty seconds +:+ "s"
  else pretty minutes +:+ "m " +:+ pretty seconds +:+ "s".

Section WithLocale.
(** [timestamp.toLocaleString('en-US', {...})], which the browser supplies. *)
Variable toLocaleString : Z → string.

(** [formatHistoryTime(timestamp)]; [now] is the reading of [new Date()]. *)
Definition formatHistoryTime (now timestamp : Z) : string :=
  let diffMs := now - timestamp in
  let diffMinutes := diffMs `div` 60000 in
  let diffHours := diffMs `div` 3600000 in
  let diffDays := diffMs `div` 86400000 in
  if diffMinutes <? 1 then "Just now"
  else if diffMinutes <? 60 then pretty diffMinutes +:+ "m ago"
  else if diffHours <? 24 then pretty diffHours +:+ "h ago"
  else if diffDays <? 7 then pretty diffDays +:+ "d ago"
  else toLocaleString timestamp.
End WithLocale.

Record Groups := {
  today : list History.HistoryItem;
  yesterday : list History.HistoryItem;
  earlier : list History.HistoryItem;
}.

(** The callback of [items.reduce]. *)
Definition pushToGroup (todayStart yesterdayStart : Z) (groups : Groups)
    (item : History.HistoryItem) : Groups :=
  let itemDate := History.startTime item in
  if todayStart <=? itemDate then
    {| today := today groups ++ [item]; yesterday := yesterday groups;
       earlier := earlier groups |}
  else if yesterdayStart <=? itemDate then
    {| today := today groups; yesterday := yesterday groups ++ [item];
       earlier := earlier groups |}
  else
    {| today := today groups; yesterday := yesterday groups;
       earlier := earlier groups ++ [item] |}.

(** [groupHistoryByDate(items)]; [todayStart] and [yesterdayStart] are the
    two local midnights the function takes from the calendar. *)
Definition groupHistoryByDate (todayStart yesterdayStart : Z)
    (items : list History.HistoryItem) : Groups :=
  fold_left (pushToGroup todayStart yesterdayStart) items
    {| today := []; yesterday := []; earlier := [] |}.

(** The date ranges of the three groups. *)
Definition isToday (todayStart : Z) (item : History.HistoryItem) : bool :=
  todayStart <=? History.startTime item.

Definition isYesterday (todayStart yesterdayStart : Z)
    (item : History.HistoryItem) : bool :=
  negb (todayStart <=? History.startTime item)
  && (yesterdayStart <=? History.startTime item).

Definition isEarlier (todayStart yesterdayStart : Z)
    (item : History.HistoryItem) : bool :=
  negb (todayStart <=? History.startTime item)
  && negb (yesterdayStart <=? History.startTime item).

(** Saving a list of items to one device, oldest first. *)
Definition saveAll (accepts : History.Storage → string → History.StoredText → bool)
    (localStorage : History.Storage) (deviceId : string)
    (items : list History.HistoryItem) : History.Storage :=
  fold_left (λ store item, fst (History.saveHistoryItem accepts store deviceId item))
    items localStorage.

(** Saves to any devices, in order. *)
Definition saveMany (accepts : History.Storage → string → History.StoredText → bool)
    (localStorage : History.Storage)
    (saves : list (string * History.HistoryItem)) : History.Storage :=
  fold_left (λ store save,
               fst (History.saveHistoryItem accepts store save.1 save.2))
    saves localStorage.

(** Every list in the store is within the limit of [saveHistoryItem]. *)
Definition withinLimit (localStorage : History.Storage) : Prop :=
  ∀ deviceId,
    (length (loadHistoryItems localStorage deviceId)
       ≤ History.MAX_HISTORY_ITEMS)%nat.

End HistoryRead.

(** ** components/HistoryDialog.tsx and components/HistoryGroup.tsx *)
Module HistoryDialog.

(** [HistoryGroup]: [null] for no items, else one card per item. *)
Definition HistoryGroup (items : list History.HistoryItem)
    : option (list History.HistoryItem) :=
  if (length items =? 0)%nat then None else Some items.

(** What the dialog puts on the screen. *)
Record View := {
  todayGroup : option (list History.HistoryItem);
  yesterdayGroup : option (list History.HistoryItem);
  earlierGroup : option (list History.HistoryItem);
  emptyState : bool;
  clearAllButton : bool;
}.

(** The effect on [open] and [deviceId]: load when the dialog is open. *)
Definition loadEffect (open : bool) (deviceId : string)
    (localStorage : History.Storage)
    (historyItems : option (list History.HistoryItem))
    : option (list History.HistoryItem) :=
  if open && negb (String.eqb deviceId "")
  then Some (HistoryRead.loadHistoryItems localStorage deviceId)
  else historyItems.

(** [handleClearAll]; [confirmed] is the answer of [confirm]. *)
Definition handleClearAll (confirmed : bool) (deviceId : string)
    (localStorage : History.Storage)
    (historyItems : option (list History.HistoryItem))
    : History.Storage * option (list History.HistoryItem) :=
  if confirmed then (History.clearHistory localStorage deviceId, Some [])
  else (localStorage, historyItems).

(** The body of the component after the hooks. *)
Definition render (todayStart yesterdayStart : Z)
    (historyItems : option (list History.HistoryItem)) : option View :=
  match historyItems with
  | None => None
  | Some items =>
      let grouped :=
        HistoryRead.groupHistoryByDate todayStart yesterdayStart items in
      Some {|
        todayGroup :=
          if (0 <? length (HistoryRead.today grouped))%nat
          then HistoryGroup (HistoryRead.today grouped) else None;
        yesterdayGroup :=
          if (0 <? length (HistoryRead.yesterday grouped))%nat
          then HistoryGroup (HistoryRead.yesterday grouped) else None;
        earlierGroup :=
          if (0 <? length (HistoryRead.earlier grouped))%nat
          then HistoryGroup (HistoryRead.earlier grouped) else None;
        emptyState := (length items =? 0)%nat;
        clearAllButton := (0 <? length items)%nat;
      |}
  end.

(** The cards on the screen, top to bottom. *)
Definition cards (v : View) : list History.HistoryItem :=
  default [] (todayGroup v) ++ default [] (yesterdayGroup v)
    ++ default [] (earlierGroup v).

End HistoryDialog.

(** ** components/DualModelPanel.tsx *)
Module DualModelPanel.

(** The line under the name of the decision model. *)
Definition decisionLabel (state : DualModel.DualModelState) : string :=
  if String.eqb (DualModel.decisionStage state) "analyzing" then "Analyzing task..."
  else if String.eqb (DualModel.decisionStage state) "deciding" then "Making decision..."
  else if String.eqb (DualModel.decisionStage state) "generating" then "Generating content..."
  else if DualModel.decisionActive state then "Active"
  else "Idle".

(** The line under the name of the vision model. *)
Definition visionLabel (state : DualModel.DualModelState) : string :=
  if String.eqb (DualModel.visionStage state) "capturing" then "Capturing screen..."
  else if String.eqb (DualModel.visionStage state) "recognizing" then "Recognizing elements..."
  else if String.eqb (DualModel.visionStage state) "executing" then "Executing action..."
  else if DualModel.visionActive state then "Active"
  else "Idle".

(** How a line of the task plan is drawn. *)
Inductive StepMark := Completed | Current | Upcoming.

Definition stepMark (currentStep : Z) (idx : nat) : StepMark :=
  if Z.of_nat idx <? currentStep then Completed
  else if Z.of_nat idx =? currentStep then Current
  else Upcoming.

(** [state.taskPlan.map((step, idx) => ...)] *)
Definition planMarks (state : DualModel.DualModelState) : list StepMark :=
  imap (λ idx _, stepMark (DualModel.currentStep state) idx)
    (DualModel.taskPlan state).

(** [xs.slice(-5)] *)
Definition lastFive {A : Type} (xs : list A) : list A :=
  drop (length xs - 5)%nat xs.

Definition decisionHistory (state : DualModel.DualModelState)
    : list DualModel.DualModelStreamEvent :=
  lastFive (DualModel.decisions state).

Definition actionHistory (state : DualModel.DualModelState)
    : list DualModel.DualModelStreamEvent :=
  lastFive (DualModel.actions state).

End DualModelPanel.

(** ** [ResizableHandle] (second component of useDualModelState.ts) *)
Module ResizableHandle.

Record ResizableHandleProps := {
  minWidth : Z;
  maxWidth : Z;
}.

(** The defaults of the destructured props. *)
Definition defaultProps : ResizableHandleProps :=
  {| minWidth := 240; maxWidth := 640 |}.

(** Widths and pointer positions are kept as whole numbers of pixels.
    The source computes with doubles, whose sums and differences are exact
    on whole numbers well below 2^53 and rounded on fractions; a fractional
    width, which [getBoundingClientRect] can report, is outside this model.
    [wholePixels x]: a whole number small enough for every sum the handler
    forms of such numbers to be exact. *)
Definition wholePixels (x : Z) : Prop := Z.abs x ≤ 2 ^ 50.

(** [isDragging] and the two refs. *)
Record Handle := {
  isDragging : bool;
  startX : Z;
  startWidth : Z;
}.

Definition initialHandle : Handle :=
  {| isDragging := false; startX := 0; startWidth := 0 |}.

(** The callbacks of the parent. *)
Inductive Callback :=
| onResizeStart
| onResize (deltaX : Z)
| onResizeEnd.

(** [handleMouseDown]; [parentWidth] is the width of the parent element,
    when there is one. *)
Definition handleMouseDown (clientX : Z) (parentWidth : option Z) (h : Handle)
    : Handle * list Callback :=
  ({| isDragging := true; startX := clientX;
      startWidth := default (startWidth h) parentWidth |},
   [onResizeStart]).

(** [handleMouseMove], which listens only while dragging. *)
Definition handleMouseMove (P : ResizableHandleProps) (clientX : Z) (h : Handle)
    : Handle * list Callback :=
  if isDragging h then
    let deltaX := clientX - startX h in
    let newWidth := Z.min (maxWidth P) (Z.max (minWidth P) (startWidth h + deltaX)) in
    (h, [onResize (newWidth - startWidth h)])
  else (h, []).

(** [handleMouseUp], which listens only while dragging. *)
Definition handleMouseUp (h : Handle) : Handle * list Callback :=
  if isDragging h then
    ({| isDragging := false; startX := startX h; startWidth := startWidth h |},
     [onResizeEnd])
  else (h, []).

Inductive Mouse :=
| Down (clientX : Z) (parentWidth : option Z)
| Move (clientX : Z)
| Up.

Definition mouse (P : ResizableHandleProps) (h : Handle) (m : Mouse)
    : Handle * list Callback :=
  match m with
  | Down clientX parentWidth => handleMouseDown clientX parentWidth h
  | Move clientX => handleMouseMove P clientX h
  | Up => handleMouseUp h
  end.

(** The callbacks a sequence of mouse events makes, in order. *)
Fixpoint mouseAll (P : ResizableHandleProps) (h : Handle) (ms : list Mouse)
    : Handle * list Callback :=
  match ms with
  | [] => (h, [])
  | m :: rest =>
      let '(h1, out1) := mouse P h m in
      let '(h2, out2) := mouseAll P h1 rest in
      (h2, out1 ++ out2)
  end.

(** A trace of callbacks in which every [onResize] and every [onResizeEnd]
    comes inside a drag, that is after an [onResizeStart] that no
    [onResizeEnd] has closed yet. *)
Fixpoint bracketed (dragging : bool) (trace : list Callback) : bool :=
  match trace with
  | [] => true
  | onResizeStart :: rest => bracketed true rest
  | onResize _ :: rest => dragging && bracketed dragging rest
  | onResizeEnd :: rest => dragging && bracketed false rest
  end.

End ResizableHandle.

(** ** components/WidthControl.tsx *)
Module WidthControl.

(** [number | 'auto'], for a number of whole pixels: the presets are whole
    and a step of 40 keeps a whole width whole.  The steps of the source are
    exact on whole numbers well below 2^53 and rounded on fractions; a
    fractional width, which a drag of the resize handle can leave, is
    outside this model. *)
Inductive Width := Px (w : Z) | Auto.

(** A whole width on which the steps of 40 are exact. *)
Definition wholePixels (w : Z) : Prop := Z.abs w ≤ 2 ^ 50.

Inductive WidthPreset := compact | standard | wide | auto.

Definition WIDTH_PRESETS (preset : WidthPreset) : Width :=
  match preset with
  | compact => Px 320
  | standard => Px 400
  | wide => Px 480
  | auto => Auto
  end.

(** Each handler gives the argument it calls [onWidthChange] with, [None]
    when it returns without calling. *)
Definition handlePresetClick (preset : WidthPreset) : option Width :=
  Some (WIDTH_PRESETS preset).

Definition handleDecrease (currentWidth : Width) : option Width :=
  match currentWidth with
  | Px w => Some (Px (Z.max 240 (w - 40)))
  | Auto => None
  end.

Definition handleIncrease (currentWidth : Width) : option Width :=
  match currentWidth with
  | Px w => Some (Px (Z.min 640 (w + 40)))
  | Auto => None
  end.

(** The [disabled] attributes of the two step buttons. *)
Definition decreaseDisabled (w : Z) : bool := w <=? 240.
Definition increaseDisabled (w : Z) : bool := 640 <=? w.

(** Which preset button is drawn as selected. *)
Definition selected (currentWidth : Width) (preset : WidthPreset) : bool :=
  match preset, currentWidth with
  | compact, Px w => w =? 320
  | standard, Px w => w =? 400
  | wide, Px w => w =? 480
  | auto, Auto => true
  | _, _ => false
  end.

(** The component is controlled: the parent stores what [onWidthChange]
    is called with and passes it back as [currentWidth]. *)
Definition afterClick (currentWidth : Width) (called : option Width) : Width :=
  default currentWidth called.



End WidthControl.

(** ** components/DevicePanel.tsx: history popover, scrolling, keyboard *)
Module PanelView.

(** The state cells and refs of the panel that the stream handlers do not
    touch. *)
Record Chrome := {
  showHistoryPopover : bool;
  historyItems : list History.HistoryItem;
  isAtBottom : bool;
  showNewMessageNotice : bool;
  prevMessageCountRef : nat;
  prevMessageSigRef : option string;
}.

Definition initialChrome : Chrome := {|
  showHistoryPopover := false; historyItems := []; isAtBottom := true;
  showNewMessageNotice := false; prevMessageCountRef := 0;
  prevMessageSigRef := None |}.

Section WithLengths.
(** [s.length] of a string and [JSON.stringify(xs).length] of a string
    array, as the engine computes them. *)
Variable codeUnits : string → nat.
Variable jsonLength : list string → nat.

(** The signature both [handleSelectHistory] and the scroll effect take of
    a message: six fields joined by a bar. *)
Definition signature (m : DevicePanel.Message) : string :=
  String.concat "|"
    [DevicePanel.id m;
     pretty (codeUnits (DevicePanel.content m));
     pretty (from_option codeUnits 0%nat (DevicePanel.currentThinking m));
     pretty (from_option jsonLength 0%nat (DevicePanel.thinking m));
     from_option pretty "" (DevicePanel.steps m);
     if DevicePanel.truthy (DevicePanel.isStreaming m) then "1" else "0"].

(** [handleSelectHistory] *)
Definition handleSelectHistory (item : History.HistoryItem)
    (w : DevicePanel.World) (c : Chrome) : DevicePanel.World * Chrome :=
  let userMessage := DevicePanel.historyUserMessage item in
  let agentMessage := DevicePanel.historyAgentMessage item in
  let newMessages := [userMessage; agentMessage] in
  (DevicePanel.selectHistory item w,
   {| showHistoryPopover := false;
      historyItems := historyItems c;
      isAtBottom := true;
      showNewMessageNotice := false;
      prevMessageCountRef := length newMessages;
      prevMessageSigRef := Some (signature agentMessage) |}).

(** The effect on [messages] and [isAtBottom]. *)
Definition scrollEffect (w : DevicePanel.World) (c : Chrome) : Chrome :=
  let messages := DevicePanel.messages w in
  let latestSignature := signature <$> last messages in
  let isNewMessage := (prevMessageCountRef c <? length messages)%nat in
  let hasLatestChanged :=
    negb (bool_decide (latestSignature = prevMessageSigRef c))
    && (0 <? length messages)%nat in
  let notice :=
    if isAtBottom c then false
    else if (length messages =? 0)%nat then false
    else if isNewMessage || hasLatestChanged then true
    else showNewMessageNotice c in
  {| showHistoryPopover := showHistoryPopover c;
     historyItems := historyItems c;
     isAtBottom := isAtBottom c;
     showNewMessageNotice := notice;
     prevMessageCountRef := length messages;
     prevMessageSigRef := latestSignature |}.
End WithLengths.

(** The throttled scroll handler; [distanceFromBottom] is
    [scrollHeight - scrollTop - clientHeight]. *)
Definition updateScrollState (distanceFromBottom : Z) (c : Chrome) : Chrome :=
  let threshold := 80 in
  let atBottom := distanceFromBottom <=? 1 in
  {| showHistoryPopover := showHistoryPopover c;
     historyItems := historyItems c;
     isAtBottom := atBottom;
     showNewMessageNotice :=
       if distanceFromBottom <=? threshold then false
       else showNewMessageNotice c;
     prevMessageCountRef := prevMessageCountRef c;
     prevMessageSigRef := prevMessageSigRef c |}.

Definition handleScrollToLatest (c : Chrome) : Chrome :=
  {| showHistoryPopover := showHistoryPopover c;
     historyItems := historyItems c;
     isAtBottom := true;
     showNewMessageNotice := false;
     prevMessageCountRef := prevMessageCountRef c;
     prevMessageSigRef := prevMessageSigRef c |}.

(** The popover is opened or closed ([onOpenChange]), and the effect on
    [showHistoryPopover] loads the items when it is open. *)
Definition setShowHistoryPopover (open : bool) (P : DevicePanel.DevicePanelProps)
    (w : DevicePanel.World) (c : Chrome) : Chrome :=
  {| showHistoryPopover := open;
     historyItems :=
       if open
       then HistoryRead.loadHistoryItems (DevicePanel.localStorage w)
              (DevicePanel.deviceSerial P)
       else historyItems c;
     isAtBottom := isAtBottom c;
     showNewMessageNotice := showNewMessageNotice c;
     prevMessageCountRef := prevMessageCountRef c;
     prevMessageSigRef := prevMessageSigRef c |}.

(** [handleClearHistory]; [confirmed] is the answer of [confirm]. *)
Definition handleClearHistory (confirmed : bool) (P : DevicePanel.DevicePanelProps)
    (w : DevicePanel.World) (c : Chrome) : DevicePanel.World * Chrome :=
  if confirmed then
    (DevicePanel.clearStoredHistory true P w,
     {| showHistoryPopover := showHistoryPopover c;
        historyItems := [];
        isAtBottom := isAtBottom c;
        showNewMessageNotice := showNewMessageNotice c;
        prevMessageCountRef := prevMessageCountRef c;
        prevMessageSigRef := prevMessageSigRef c |})
  else (w, c).

(** [handleInputKeyDown] *)
Definition handleInputKeyDown (P : DevicePanel.DevicePanelProps)
    (metaKey ctrlKey : bool) (key : string) (now : Z) (w : DevicePanel.World)
    : DevicePanel.World :=
  if (metaKey || ctrlKey) && String.eqb key "Enter"
  then DevicePanel.handleSend P now w
  else w.

(** What a closure has received of the streamed reasoning and not yet put
    into a step: the shown text followed by the buffered chunks. *)
Definition pendingText (c : DevicePanel.Closure) : string :=
  DevicePanel.currentThinkingText c
    +:+ String.concat "" (DevicePanel.thinkingChunksBuffer c).

(** The thinking-chunk callback, or the timer, acting on a closure. *)
Inductive Feed :=
| Chunk (event : DevicePanel.ThinkingChunkEvent.t) (timer : nat)
| Flush.

Definition feed (cw : DevicePanel.Closure * DevicePanel.World) (f : Feed)
    : DevicePanel.Closure * DevicePanel.World :=
  match f with
  | Chunk event timer => DevicePanel.onThinkingChunk cw.1 event timer cw.2
  | Flush => DevicePanel.flushThinkingUpdate cw.1 cw.2
  end.

Definition chunkOf (f : Feed) : string :=
  match f with
  | Chunk event _ => DevicePanel.ThinkingChunkEvent.chunk event
  | Flush => ""
  end.

(** The step lists of a closure: no empty reasoning is kept, and there is
    at most one reasoning per action. *)
Definition listsAligned (c : DevicePanel.Closure) : Prop :=
  Forall (λ t, t ≠ "") (DevicePanel.thinkingList c)
  ∧ (length (DevicePanel.thinkingList c)
       ≤ length (DevicePanel.actionsList c))%nat.

(** Every closure of the world has aligned lists. *)
Definition allAligned (w : DevicePanel.World) : Prop :=
  map_Forall (λ _ c, listsAligned c) (DevicePanel.closures w).

(** Does the action write to [localStorage]: the done and the error
    callback, a confirmed [handleClearHistory], and [handleDeleteItem]. *)
Definition writesHistory (a : DevicePanel.Action) : bool :=
  match a with
  | DevicePanel.Deliver _ (DevicePanel.Done _) _ => true
  | DevicePanel.Deliver _ (DevicePanel.Error _) _ => true
  | DevicePanel.ClearHistory confirmed => confirmed
  | DevicePanel.DeleteItem _ => true
  | _ => false
  end.

(** Is the action a call of [handleDeleteItem]? *)
Definition deletesItem (a : DevicePanel.Action) : bool :=
  match a with DevicePanel.DeleteItem _ => true | _ => false end.

(** Can the action put messages into an empty chat: a click on send, the
    return of [initAgent] to a send that waits for it, the choice of a
    history item. *)
Definition refills (a : DevicePanel.Action) : bool :=
  match a with
  | DevicePanel.ClickSend _ => true
  | DevicePanel.InitAgentReturns _ _ _ => true
  | DevicePanel.SelectHistory _ => true
  | _ => false
  end.

(** An empty chat with no run that the panel knows of: what [handleReset]
    leaves. *)
Definition cleared (w : DevicePanel.World) : Prop :=
  DevicePanel.messages w = [] ∧ DevicePanel.loading w = false
  ∧ DevicePanel.chatStreamRef w = None.

End PanelView.

(** * Properties *)

(** ** The dual-model stream consumer *)
Module DualModelTheory.
Import DualModel.

Lemma dispatch_label (k : Kind) : dispatch (label k) = Some k.
Proof. by destruct k. Qed.

Lemma dispatch_Some (tag : string) (k : Kind) :
  dispatch tag = Some k → tag = label k.
Proof.
  unfold dispatch. intros Hfind.
  apply find_some in Hfind as [_ Heq].
  by apply String.eqb_eq in Heq.
Qed.

Lemma label_handled (k : Kind) : In (label k) handled_kinds.
Proof. unfold handled_kinds. apply in_map. destruct k; simpl; tauto. Qed.


Lemma dispatch_unhandled (tag : string) :
  ¬ In tag handled_kinds → dispatch tag = None.
Proof.
  intros Hnot. destruct (dispatch tag) as [k|] eqn:Hk; [|done].
  apply dispatch_Some in Hk as ->. destruct Hnot. apply label_handled.
Qed.

Lemma handleEvent_label (prev : DualModelState) (k : Kind)
    (event : DualModelStreamEvent) :
  type event = label k → handleEvent prev event = reduce prev k event.
Proof. intros Ht. unfold handleEvent. by rewrite Ht, dispatch_label. Qed.

Lemma handleAll_app (s : DualModelState) (l1 l2 : list DualModelStreamEvent) :
  handleAll s (l1 ++ l2) = handleAll (handleAll s l1) l2.
Proof. apply fold_left_app. Qed.

Lemma handleEvent_default (prev : DualModelState)
    (event : DualModelStreamEvent) :
  dispatch (type event) = None → handleEvent prev event = prev.
Proof. intros Hd. unfold handleEvent. by rewrite Hd. Qed.

(** C9. An event whose tag is none of the twelve handled ones leaves the
    state as it was, field for field. *)
Theorem handleEvent_unknown (prev : DualModelState)
    (event : DualModelStreamEvent) :
  length handled_kinds = 12%nat
  ∧ (¬ In (type event) handled_kinds → handleEvent prev event = prev).
Proof.
  split; [reflexivity|].
  intros Hnot. by apply handleEvent_default, dispatch_unhandled.
Qed.

Lemma handleEvent_unknown_witness :
  ¬ In (type (probe "heartbeat")) handled_kinds
  ∧ handleEvent busyState (probe "heartbeat") = busyState.
Proof.
  assert (Hnot : ¬ In (type (probe "heartbeat")) handled_kinds).
  { simpl. intros H. repeat (destruct H as [H|H]; [discriminate H|]). exact H. }
  split; [exact Hnot | exact (proj2 (handleEvent_unknown busyState _) Hnot)].
Defined.

Lemma handleEvent_exclusive (s : DualModelState) (e : DualModelStreamEvent) :
  exclusive s → exclusive (handleEvent s e).
Proof.
  unfold exclusive, handleEvent. intros Hs.
  destruct (dispatch (type e)) as [k|]; [|done].
  destruct k; simpl; try tauto; intros [? ?]; congruence.
Qed.

Lemma handleAll_exclusive (events : list DualModelStreamEvent) :
  ∀ s, exclusive s → exclusive (handleAll s events).
Proof.
  induction events as [|e rest IH]; intros s Hs; [done|].
  simpl. apply IH. by apply handleEvent_exclusive.
Qed.

(** C8. From the initial state, whatever events are handled, the flags
    [decisionActive] and [visionActive] are never both true: a
    [decision_start] sets the first and clears the second, a
    [vision_start] does the converse, and any other event leaves each flag
    as it was or clears it. *)
Theorem active_flags_exclusive :
  (∀ events,
     let s := handleAll initialState events in
     ¬ (decisionActive s = true ∧ visionActive s = true))
  ∧ (∀ prev event, type event = "decision_start" →
       decisionActive (handleEvent prev event) = true
       ∧ visionActive (handleEvent prev event) = false)
  ∧ (∀ prev event, type event = "vision_start" →
       visionActive (handleEvent prev event) = true
       ∧ decisionActive (handleEvent prev event) = false)
  ∧ (∀ prev event,
       type event ≠ "decision_start" → type event ≠ "vision_start" →
       let s := handleEvent prev event in
       (decisionActive s = decisionActive prev ∨ decisionActive s = false)
       ∧ (visionActive s = visionActive prev ∨ visionActive s = false)).
Proof.
  split; [|split; [|split]].
  - intros events. apply handleAll_exclusive.
    unfold exclusive. simpl. intros [? _]. discriminate.
  - intros prev event Ht.
    by rewrite (handleEvent_label prev decision_start event Ht).
  - intros prev event Ht.
    by rewrite (handleEvent_label prev vision_start event Ht).
  - intros prev event Hd Hv. unfold handleEvent.
    destruct (dispatch (type event)) as [k|] eqn:Hk; [|by auto].
    apply dispatch_Some in Hk.
    destruct k; simpl in *; try congruence; auto.
Qed.

Lemma active_flags_exclusive_witness :
  decisionActive (handleEvent busyState (probe "decision_start")) = true
  ∧ visionActive (handleEvent busyState (probe "decision_start")) = false.
Proof.
  apply (proj1 (proj2 active_flags_exclusive) busyState (probe "decision_start")).
  reflexivity.
Defined.






(** How [currentStep] moves: a [step_complete] event overwrites it with
    the event's step value, any other event keeps it. *)
Lemma currentStep_step_complete (prev : DualModelState)
    (event : DualModelStreamEvent) :
  type event = "step_complete" → currentStep (handleEvent prev event) = step event.
Proof. intros Ht. by rewrite (handleEvent_label prev step_complete event Ht). Qed.

Lemma currentStep_other (prev : DualModelState) (event : DualModelStreamEvent) :
  type event ≠ "step_complete" →
  currentStep (handleEvent prev event) = currentStep prev.
Proof.
  intros Ht. unfold handleEvent.
  destruct (dispatch (type event)) as [k|] eqn:Hk; [|done].
  apply dispatch_Some in Hk. destruct k; simpl in *; congruence.
Qed.

Lemma stepsAscend_weaken (events : list DualModelStreamEvent) :
  ∀ low low' bound, low' ≤ low →
    stepsAscend low bound events → stepsAscend low' bound events.
Proof.
  induction events as [|e rest IH]; intros low low' bound Hle; simpl; [done|].
  destruct (String.eqb (type e) "step_complete").
  - intros (? & ? & ?). repeat split; [lia | done | done].
  - by apply IH.
Qed.

Lemma currentStep_ascends (events : list DualModelStreamEvent) :
  ∀ s bound, currentStep s ≤ bound →
    stepsAscend (currentStep s) bound events →
    currentStep s ≤ currentStep (handleAll s events)
    ∧ currentStep (handleAll s events) ≤ bound.
Proof.
  induction events as [|e rest IH]; intros s bound Hb Hasc; simpl in *; [lia|].
  destruct (String.eqb_spec (type e) "step_complete") as [Ht|Ht].
  - destruct Hasc as (Hlow & Hup & Hrest).
    destruct (IH (handleEvent s e) bound) as [Hmono Hbound].
    + by rewrite currentStep_step_complete.
    + by rewrite currentStep_step_complete.
    + rewrite currentStep_step_complete in Hmono by done. split; [lia | done].
  - destruct (IH (handleEvent s e) bound) as [Hmono Hbound].
    + by rewrite currentStep_other.
    + by rewrite currentStep_other.
    + rewrite currentStep_other in Hmono by done. done.
Qed.

Lemma stepsAscend_app (l1 : list DualModelStreamEvent) :
  ∀ l2 s bound,
    stepsAscend (currentStep s) bound (l1 ++ l2) →
    stepsAscend (currentStep s) bound l1
    ∧ stepsAscend (currentStep (handleAll s l1)) bound l2.
Proof.
  induction l1 as [|e rest IH]; intros l2 s bound Hasc; simpl in *; [done|].
  destruct (String.eqb_spec (type e) "step_complete") as [Ht|Ht].
  - destruct Hasc as (Hlow & Hup & Hrest).
    rewrite <- (currentStep_step_complete s e Ht) in Hrest.
    destruct (IH l2 (handleEvent s e) bound Hrest) as [H1 H2].
    rewrite (currentStep_step_complete s e Ht) in H1. done.
  - rewrite <- (currentStep_other s e Ht) in Hasc.
    destruct (IH l2 (handleEvent s e) bound Hasc) as [H1 H2].
    rewrite (currentStep_other s e Ht) in H1. done.
Qed.

(** The consumer side of the step-index property: when the stream's
    [step_complete] events carry ascending step values up to [bound],
    [currentStep] never decreases along the stream and stays at or below
    [bound]. *)
Lemma currentStep_monotone_on_ascending
    (s : DualModelState) (bound : Z) (before after : list DualModelStreamEvent) :
  currentStep s ≤ bound →
  stepsAscend (currentStep s) bound (before ++ after) →
  currentStep (handleAll s before) ≤ currentStep (handleAll s (before ++ after))
  ∧ currentStep (handleAll s (before ++ after)) ≤ bound.
Proof.
  intros Hb Hasc.
  destruct (stepsAscend_app before after s bound Hasc) as [H1 H2].
  destruct (currentStep_ascends before s bound Hb H1) as [_ Hb1].
  rewrite handleAll_app.
  by apply currentStep_ascends.
Qed.

End DualModelTheory.

(** ** The task history in [localStorage] *)
Module HistoryTheory.
Import History.

Lemma storedHistory_insert (store : Storage) (deviceId : string)
    (items : list HistoryItem) :
  storedHistory (<[historyKey deviceId := JSON_stringify items]> store) deviceId
  = Some items.
Proof. unfold storedHistory. by rewrite lookup_insert_eq. Qed.

Lemma length_take_cons_le (n : nat) (item : HistoryItem)
    (old : list HistoryItem) :
  (length (item :: take n old) ≤ S n)%nat.
Proof. simpl. rewrite length_take. lia. Qed.

(** C10. Which path [saveHistoryItem] takes and what it stores.  When
    the stored text parses, the list for the normal path is the new item
    followed by the items stored before, cut to 100 entries: it begins with
    the new item and has at most 100 entries; when the browser accepts it,
    the function leaves through the normal path with exactly that list
    stored for the device.  When the browser refuses it for lack of space,
    the list for the fallback is the new item followed by the first (most
    recent) 20 of the items stored before, at most 21 entries; when the
    browser accepts that one, it is what is stored, and when not, nothing is
    written.  When the stored text does not parse nothing is written.
    Read from the result: after the normal path and after the fallback the
    stored list is as said, on the two failing paths the store is as it
    was. *)
Theorem saveHistoryItem_bounds
    (accepts : Storage → string → StoredText → bool)
    (store : Storage) (deviceId : string) (item : HistoryItem) :
  let key := historyKey deviceId in
  let result := saveHistoryItem accepts store deviceId item in
  (∀ old,
     parseStored (store !! key) = Some old →
     let full := take 100 (item :: old) in
     let reduced := item :: take 20 old in
     (head full = Some item ∧ (length full ≤ 100)%nat)
     ∧ (head reduced = Some item ∧ tail reduced = take 20 old
        ∧ (length reduced ≤ 21)%nat)
     ∧ (accepts store key (JSON_stringify full) = true →
        result = (<[key := JSON_stringify full]> store, Saved)
        ∧ storedHistory result.1 deviceId = Some full)
     ∧ (accepts store key (JSON_stringify full) = false →
        accepts store key (JSON_stringify reduced) = true →
        result = (<[key := JSON_stringify reduced]> store, SavedReduced)
        ∧ storedHistory result.1 deviceId = Some reduced)
     ∧ (accepts store key (JSON_stringify full) = false →
        accepts store key (JSON_stringify reduced) = false →
        result = (store, ReductionFailed)))
  ∧ (parseStored (store !! key) = None → result = (store, Warned))
  ∧ (∀ store' outcome,
       result = (store', outcome) →
       match outcome with
       | Saved =>
           ∃ old written,
             parseStored (store !! key) = Some old
             ∧ written = take 100 (item :: old)
             ∧ storedHistory store' deviceId = Some written
             ∧ head written = Some item
             ∧ (length written ≤ 100)%nat
       | SavedReduced =>
           ∃ old written,
             parseStored (store !! key) = Some old
             ∧ written = item :: take 20 old
             ∧ storedHistory store' deviceId = Some written
             ∧ head written = Some item
             ∧ (length written ≤ 21)%nat
       | ReductionFailed | Warned => store' = store
       end).
Proof.
  intros key result. subst key result. unfold saveHistoryItem.
  split; [|split].
  - intros old Hold. cbv zeta. rewrite Hold.
    change MAX_HISTORY_ITEMS with 100%nat.
    change FALLBACK_HISTORY_ITEMS with 20%nat.
    split; [split; [done | rewrite length_take; lia]|].
    split; [repeat split; apply length_take_cons_le|].
    split; [|split].
    + intros ->. split; [done | apply storedHistory_insert].
    + intros -> ->. split; [done | apply storedHistory_insert].
    + by intros -> ->.
  - by intros ->.
  - intros store' outcome Hsave.
    destruct (parseStored (store !! historyKey deviceId)) as [old|] eqn:Hold;
      [|by inversion Hsave].
    destruct (accepts store (historyKey deviceId)
                (JSON_stringify (take MAX_HISTORY_ITEMS (item :: old)))).
    + inversion Hsave; subst. exists old, (take 100 (item :: old)).
      repeat split; [apply storedHistory_insert|].
      rewrite length_take. lia.
    + destruct (accepts store (historyKey deviceId)
                  (JSON_stringify (item :: take FALLBACK_HISTORY_ITEMS old)));
        inversion Hsave; subst; [|done].
      exists old, (item :: take 20 old).
      repeat split; [apply storedHistory_insert|].
      apply length_take_cons_le.
Qed.

Lemma saveHistoryItem_bounds_witness :
  saveHistoryItem (λ _ _ _, true)
    (<[historyKey "d" := JSON_stringify [sampleItem "first"]]> ∅)
    "d" (sampleItem "second")
  = (<[historyKey "d" :=
         JSON_stringify [sampleItem "second"; sampleItem "first"]]>
       (<[historyKey "d" := JSON_stringify [sampleItem "first"]]> ∅),
     Saved).
Proof.
  assert (Hold : parseStored
                   ((<[historyKey "d" := JSON_stringify [sampleItem "first"]]> ∅
                      : Storage) !! historyKey "d")
                 = Some [sampleItem "first"]).
  { by rewrite lookup_insert_eq. }
  exact (proj1 (proj1 (proj2 (proj2
           (proj1 (saveHistoryItem_bounds (λ _ _ _, true)
                     (<[historyKey "d" := JSON_stringify [sampleItem "first"]]> ∅)
                     "d" (sampleItem "second"))
              [sampleItem "first"] Hold))) eq_refl)).
Defined.

End HistoryTheory.

(** ** The device panel *)
Module DevicePanelTheory.
Import DevicePanel.

(** *** White space *)

Lemma string_length_ind (Q : string → Prop) :
  (∀ s, (∀ t, (String.length t < String.length s)%nat → Q t) → Q s) →
  ∀ s, Q s.
Proof.
  intros Hstep s. remember (String.length s) as n eqn:Hn. revert s Hn.
  induction n as [n IH] using lt_wf_ind. intros s ->.
  apply Hstep. intros t Ht. by apply (IH (String.length t)).
Qed.

Lemma white1_head (a : Ascii.ascii) (r : string) :
  white1 a = true →
  trimStart (String a r) = trimStart r ∧ blank (String a r) = blank r.
Proof. intros Ha. simpl. by rewrite Ha. Qed.

Lemma white2_head (a b : Ascii.ascii) (r : string) :
  white1 a = false → white2 a b = true →
  trimStart (String a (String b r)) = trimStart r
  ∧ blank (String a (String b r)) = blank r.
Proof.
  intros Ha Hb.
  change (trimStart (String a (String b r)))
    with (if white1 a then trimStart (String b r)
          else if white2 a b then trimStart r
               else match r with
                    | EmptyString => String a (String b r)
                    | String c rest3 =>
                        if white3 a b c then trimStart rest3
                        else String a (String b r)
                    end).
  change (blank (String a (String b r)))
    with (if white1 a then blank (String b r)
          else if white2 a b then blank r
               else match r with
                    | EmptyString => false
                    | String c rest3 =>
                        if white3 a b c then blank rest3 else false
                    end).
  by rewrite Ha, Hb.
Qed.

Lemma white3_head (a b c : Ascii.ascii) (r : string) :
  white1 a = false → white2 a b = false → white3 a b c = true →
  trimStart (String a (String b (String c r))) = trimStart r
  ∧ blank (String a (String b (String c r))) = blank r.
Proof.
  intros Ha Hb Hc.
  change (trimStart (String a (String b (String c r))))
    with (if white1 a then trimStart (String b (String c r))
          else if white2 a b then trimStart (String c r)
               else if white3 a b c then trimStart r
                    else String a (String b (String c r))).
  change (blank (String a (String b (String c r))))
    with (if white1 a then blank (String b (String c r))
          else if white2 a b then blank (String c r)
               else if white3 a b c then blank r else false).
  by rewrite Ha, Hb, Hc.
Qed.

Lemma not_white_head (s : string) :
  s ≠ "" → startsWhite s = false → trimStart s = s ∧ blank s = false.
Proof.
  destruct s as [|a [|b [|c r]]]; [done| | |]; intros _.
  - simpl. destruct (white1 a); [done|]. done.
  - unfold startsWhite.
    change (trimStart (String a (String b "")))
      with (if white1 a then trimStart (String b "")
            else if white2 a b then "" else String a (String b "")).
    change (blank (String a (String b "")))
      with (if white1 a then blank (String b "")
            else if white2 a b then true else false).
    destruct (white1 a); [done|]. destruct (white2 a b); [done|]. done.
  - unfold startsWhite.
    change (trimStart (String a (String b (String c r))))
      with (if white1 a then trimStart (String b (String c r))
            else if white2 a b then trimStart (String c r)
                 else if white3 a b c then trimStart r
                      else String a (String b (String c r))).
    change (blank (String a (String b (String c r))))
      with (if white1 a then blank (String b (String c r))
            else if white2 a b then blank (String c r)
                 else if white3 a b c then blank r else false).
    destruct (white1 a); [done|]. destruct (white2 a b); [done|].
    destruct (white3 a b c); [done|]. done.
Qed.

(** A string is empty, or begins with one white space character of one,
    two or three bytes, or does not begin with white space. *)
Lemma white_head_cases (s : string) :
  s = ""
  ∨ (s ≠ "" ∧ startsWhite s = false)
  ∨ (∃ a r, s = String a r ∧ white1 a = true)
  ∨ (∃ a b r, s = String a (String b r)
              ∧ white1 a = false ∧ white2 a b = true)
  ∨ (∃ a b c r, s = String a (String b (String c r))
                ∧ white1 a = false ∧ white2 a b = false
                ∧ white3 a b c = true).
Proof.
  destruct s as [|a r]; [by left|]. right.
  destruct (white1 a) eqn:Ha; [right; left; by exists a, r|].
  destruct r as [|b r].
  { left. split; [done|]. unfold startsWhite. by rewrite Ha. }
  destruct (white2 a b) eqn:Hb; [right; right; left; by exists a, b, r|].
  destruct r as [|c r].
  { left. split; [done|]. unfold startsWhite. by rewrite Ha, Hb. }
  destruct (white3 a b c) eqn:Hc.
  - right. right. right. by exists a, b, c, r.
  - left. split; [done|]. unfold startsWhite. by rewrite Ha, Hb, Hc.
Qed.

Lemma trimStart_cases (s : string) :
  (blank s = true ∧ trimStart s = "")
  ∨ (blank s = false ∧ trimStart s ≠ ""
     ∧ startsWhite (trimStart s) = false ∧ blank (trimStart s) = false).
Proof.
  induction s as [s IH] using string_length_ind.
  destruct (white_head_cases s)
    as [->|[[Hne Hs]|[(a & r & -> & Ha)|[(a & b & r & -> & Ha & Hb)
       |(a & b & c & r & -> & Ha & Hb & Hc)]]]].
  - by left.
  - right. destruct (not_white_head s Hne Hs) as [-> Hb]. done.
  - destruct (white1_head a r Ha) as [-> ->]. apply IH. simpl. lia.
  - destruct (white2_head a b r Ha Hb) as [-> ->]. apply IH. simpl. lia.
  - destruct (white3_head a b c r Ha Hb Hc) as [-> ->]. apply IH. simpl. lia.
Qed.

Lemma trimStart_blank (s : string) : blank s = true → trimStart s = "".
Proof.
  intros Hb. destruct (trimStart_cases s) as [[_ ?]|[? _]]; [done|congruence].
Qed.

Lemma trimEnd_unfold (a : Ascii.ascii) (r : string) :
  trimEnd (String a r)
  = if blank (String a r) then "" else String a (trimEnd r).
Proof. reflexivity. Qed.

Lemma trimEnd_empty (s : string) : trimEnd s = "" ↔ blank s = true.
Proof.
  destruct s as [|a r]; [done|]. rewrite trimEnd_unfold.
  by destruct (blank (String a r)).
Qed.

Lemma append_String (a : Ascii.ascii) (s t : string) :
  String a s +:+ t = String a (s +:+ t).
Proof. reflexivity. Qed.

Lemma append_EmptyString (t : string) : "" +:+ t = t.
Proof. reflexivity. Qed.

(** What [trimEnd] cuts off is white space. *)
Lemma trimEnd_split (s : string) :
  ∃ q, s = trimEnd s +:+ q ∧ blank q = true.
Proof.
  induction s as [|a r (q & Hr & Hq)]; [by exists ""|].
  rewrite trimEnd_unfold. destruct (blank (String a r)) eqn:Hb.
  - by exists (String a r).
  - exists q. by rewrite append_String, <- Hr.
Qed.

Lemma blank_app (p q : string) : blank p = true → blank (p +:+ q) = blank q.
Proof.
  induction p as [p IH] using string_length_ind. intros Hp.
  destruct (white_head_cases p)
    as [->|[[Hne Hs]|[(a & r & -> & Ha)|[(a & b & r & -> & Ha & Hb)
       |(a & b & c & r & -> & Ha & Hb & Hc)]]]].
  - done.
  - destruct (not_white_head p Hne Hs) as [_ Hb]. congruence.
  - rewrite append_String.
    destruct (white1_head a (r +:+ q) Ha) as [_ ->].
    destruct (white1_head a r Ha) as [_ Hr]. rewrite Hr in Hp.
    apply IH; [simpl; lia | done].
  - rewrite !append_String.
    destruct (white2_head a b (r +:+ q) Ha Hb) as [_ ->].
    destruct (white2_head a b r Ha Hb) as [_ Hr]. rewrite Hr in Hp.
    apply IH; [simpl; lia | done].
  - rewrite !append_String.
    destruct (white3_head a b c (r +:+ q) Ha Hb Hc) as [_ ->].
    destruct (white3_head a b c r Ha Hb Hc) as [_ Hr]. rewrite Hr in Hp.
    apply IH; [simpl; lia | done].
Qed.

Lemma trimEnd_not_blank (s : string) :
  blank s = false → blank (trimEnd s) = false.
Proof.
  intros Hs. destruct (blank (trimEnd s)) eqn:Hb; [|done].
  destruct (trimEnd_split s) as (q & Heq & Hq).
  rewrite Heq, (blank_app _ _ Hb), Hq in Hs. done.
Qed.

Lemma trim_empty_iff_blank (s : string) : trim s = "" ↔ blank s = true.
Proof.
  unfold trim. rewrite trimEnd_empty.
  destruct (trimStart_cases s) as [[Hb Ht]|(Hb & _ & _ & Ht)].
  - by rewrite Ht, Hb.
  - rewrite Ht, Hb. done.
Qed.

Lemma trim_blank_result (s : string) : blank s = false → blank (trim s) = false.
Proof.
  intros Hb. unfold trim. apply trimEnd_not_blank.
  destruct (trimStart_cases s) as [[? _]|(_ & _ & _ & ?)]; [congruence|done].
Qed.

(** [trim] on an input with an ideographic space (U+3000) in front, a
    no-break space (U+00A0) and a tab behind, and a space inside; and an
    input of such spaces only. *)
Example trim_unicode : trim "　open settings 	" = "open settings".
Proof. reflexivity. Qed.

Example blank_unicode :
  blank " 　  " = true ∧ blank " a " = false.
Proof. by split. Qed.

(** *** The stop button *)

Lemma handleAbortChat_idle (P : DevicePanelProps) (w : World) :
  chatStreamRef w = None → handleAbortChat P w = w.
Proof. intros Href. unfold handleAbortChat. by rewrite Href. Qed.

Lemma handleAbortChat_active (P : DevicePanelProps) (w : World) (stream : nat) :
  chatStreamRef w = Some stream →
  let w1 := handleAbortChat P w in
  chatStreamRef w1 = None
  ∧ loading w1 = false
  ∧ aborting w1 = false
  ∧ calls w1 = calls w ++ [StreamClose stream; AbortChat (deviceId P)]
  ∧ openStreams w1 = openStreams w ∖ {[stream]}
  ∧ messages w1 = abortLastMessage (chat_aborted P) (messages w)
  ∧ streamCount w1 = streamCount w.
Proof.
  intros Href. unfold handleAbortChat. rewrite Href. simpl.
  repeat split. by rewrite <- app_assoc.
Qed.

Lemma imap_keep {A : Type} (f : nat → A → A) (l : list A) :
  (∀ i x, l !! i = Some x → f i x = x) → imap f l = l.
Proof.
  intros Hf. rewrite (imap_ext f (const (λ x : A, x)) l) by done.
  rewrite imap_const. apply list_fmap_id.
Qed.

(** The reply the stop button makes of a reply. *)
Lemma abortLastMessage_streaming (aborted : string) (earlier : list Message)
    (reply : Message) :
  role reply = assistant → isStreaming reply = Some true →
  abortLastMessage aborted (earlier ++ [reply])
  = earlier
      ++ [{| id := id reply; role := role reply;
             content := History.or_else (content reply) aborted;
             timestamp := timestamp reply; steps := steps reply;
             success := Some false; thinking := thinking reply;
             actions := actions reply; isStreaming := Some false;
             currentThinking := None |}].
Proof.
  intros Hr Hs. unfold abortLastMessage.
  rewrite last_snoc, Hr, Hs. simpl.
  rewrite imap_app, length_app. simpl.
  replace (length earlier + 1 - 1)%nat with (length earlier) by lia.
  rewrite Nat.add_0_r, Nat.eqb_refl. f_equal; [|by rewrite Hr].
  apply imap_keep. intros i x Hi. apply lookup_lt_Some in Hi.
  destruct (Nat.eqb_spec i (length earlier)); [lia | done].
Qed.

Lemma abortLastMessage_settles (aborted : string) (prev : list Message) :
  length (abortLastMessage aborted prev) = length prev
  ∧ ∀ m, last (abortLastMessage aborted prev) = Some m →
         role m = assistant → isStreaming m ≠ Some true.
Proof.
  split.
  { unfold abortLastMessage. destruct (last prev) as [lastMessage|]; [|done].
    destruct (isAssistant (role lastMessage) && truthy (isStreaming lastMessage));
      [apply length_imap | done]. }
  intros m. destruct (last prev) as [lastMessage|] eqn:Hlast.
  - apply last_Some in Hlast as [earlier ->].
    destruct (role lastMessage) eqn:Hrole.
    { unfold abortLastMessage. rewrite last_snoc, Hrole. simpl.
      rewrite last_snoc. intros [= <-]. congruence. }
    destruct (isStreaming lastMessage) as [[]|] eqn:Hst.
    + rewrite abortLastMessage_streaming by done.
      rewrite last_snoc. by intros [= <-].
    + unfold abortLastMessage. rewrite last_snoc, Hrole, Hst. simpl.
      rewrite last_snoc. intros [= <-]. congruence.
    + unfold abortLastMessage. rewrite last_snoc, Hrole, Hst. simpl.
      rewrite last_snoc. intros [= <-]. congruence.
  - unfold abortLastMessage. rewrite Hlast. by rewrite Hlast.
Qed.

(** *** Callbacks that keep the run going touch neither the loading
    flag nor the stream reference. *)

Lemma flushThinkingUpdate_frame (c : Closure) (w : World) :
  sameControl w (snd (flushThinkingUpdate c w))
  ∧ streamCount (snd (flushThinkingUpdate c w)) = streamCount w.
Proof. unfold flushThinkingUpdate. by destruct (thinkingChunksBuffer c). Qed.

Lemma onStep_frame (c : Closure) (event : StepEvent.t) (w : World) :
  sameControl w (snd (onStep c event w))
  ∧ streamCount (snd (onStep c event w)) = streamCount w.
Proof.
  unfold onStep. destruct (updateTimeoutId c); [|done].
  pose proof (flushThinkingUpdate_frame c w) as Hf.
  destruct (flushThinkingUpdate c w) as [c' w']. exact Hf.
Qed.

Lemma difference_of_only (X : gset nat) (a b : nat) :
  X ⊆ {[a]} → b ∈ X → X ∖ {[b]} = ∅.
Proof.
  intros Hs Hb. apply elem_of_equiv_empty_L.
  intros x [Hx Hne]%elem_of_difference. apply Hne.
  apply Hs, elem_of_singleton in Hx. apply Hs, elem_of_singleton in Hb.
  apply elem_of_singleton. congruence.
Qed.

Lemma difference_of_only_any (X : gset nat) (a : nat) :
  X ⊆ {[a]} → X ∖ {[a]} = ∅.
Proof.
  intros Hs. apply elem_of_equiv_empty_L.
  intros x [Hx Hne]%elem_of_difference. apply Hne. by apply Hs.
Qed.

Lemma not_in_difference (X : gset nat) (a : nat) : a ∉ X ∖ {[a]}.
Proof. intros [_ Hn]%elem_of_difference. apply Hn. by apply elem_of_singleton. Qed.

(** *** The guard of [handleSend] and its two halves *)

Lemma handleSend_rejected (P : DevicePanelProps) (now : Z) (w : World) :
  loading w = true → handleSend P now w = w.
Proof.
  intros Hl. unfold handleSend. rewrite Hl.
  by destruct (String.eqb (trim (input w)) "").
Qed.

Lemma handleSend_empty (P : DevicePanelProps) (now : Z) (w : World) :
  trim (input w) = "" → handleSend P now w = w.
Proof. intros He. unfold handleSend. by rewrite He. Qed.

(** A send that passes the guard on a panel that is initialized, or has no
    configuration, runs to its end at once. *)
Lemma handleSend_at_once (P : DevicePanelProps) (now : Z) (w : World) :
  trim (input w) ≠ "" → loading w = false →
  initialized w = true ∨ config P = None →
  handleSend P now w = handleSendResumes P (trim (input w)) now w.
Proof.
  intros Hin Hl Hready. unfold handleSend.
  destruct (String.eqb_spec (trim (input w)) ""); [done|].
  rewrite Hl. simpl. destruct (initialized w); [done|].
  destruct Hready as [?|Hc]; [done|]. unfold handleInit. by rewrite Hc.
Qed.

(** A send that passes the guard on a configured panel that is not
    initialized calls [initAgent] and waits. *)
Lemma handleSend_waits (P : DevicePanelProps) (now : Z) (w : World)
    (cfg : GlobalConfig) :
  trim (input w) ≠ "" → loading w = false →
  initialized w = false → config P = Some cfg →
  handleSend P now w
  = setPendingInits
      (pendingInits w
         ++ [{| initForce := false; resumesSend := Some (trim (input w)) |}])
      (logCall (InitAgent (deviceId P) false) w).
Proof.
  intros Hin Hl Hi Hc. unfold handleSend.
  destruct (String.eqb_spec (trim (input w)) ""); [done|].
  rewrite Hl, Hi. simpl. unfold handleInit. by rewrite Hc.
Qed.

Lemma handleSendResumes_fields (P : DevicePanelProps) (inputValue : string)
    (now : Z) (w : World) :
  let w' := handleSendResumes P inputValue now w in
  chatStreamRef w' = Some (streamCount w)
  ∧ loading w' = true
  ∧ openStreams w' = {[streamCount w]} ∪ openStreams w
  ∧ streamCount w' = S (streamCount w)
  ∧ calls w' = calls w ++ [SendMessageStream inputValue (deviceId P) (streamCount w)]
  ∧ localStorage w' = localStorage w
  ∧ pendingInits w' = pendingInits w
  ∧ initialized w' = initialized w.
Proof. done. Qed.

Lemma handleInitResumes_fields (force : bool) (r : option string) (w : World) :
  let w' := handleInitResumes force r w in
  sameControl w w' ∧ streamCount w' = streamCount w
  ∧ messages w' = messages w ∧ input w' = input w
  ∧ closures w' = closures w ∧ localStorage w' = localStorage w
  ∧ pendingInits w' = pendingInits w.
Proof. unfold handleInitResumes. destruct r; [destruct force|]; done. Qed.

Lemma handleInit_fields (P : DevicePanelProps) (force : bool)
    (resumes : option string) (w : World) :
  let w' := handleInit P force resumes w in
  chatStreamRef w' = chatStreamRef w ∧ loading w' = loading w
  ∧ openStreams w' = openStreams w ∧ streamCount w' = streamCount w
  ∧ messages w' = messages w ∧ input w' = input w
  ∧ closures w' = closures w ∧ localStorage w' = localStorage w
  ∧ initialized w' = initialized w
  ∧ streamsStarted (calls w') = streamsStarted (calls w).
Proof.
  unfold handleInit. destruct (config P); [|done]. simpl.
  repeat split. unfold streamsStarted.
  rewrite List.filter_app, length_app. simpl. lia.
Qed.

Lemma handleReset_fields (P : DevicePanelProps) (w : World) :
  let w' := handleReset P w in
  chatStreamRef w' = None
  ∧ openStreams w'
    = match chatStreamRef w with
      | Some stream => openStreams w ∖ {[stream]}
      | None => openStreams w
      end
  ∧ streamCount w' = streamCount w
  ∧ messages w' = [] ∧ loading w' = false ∧ error w' = None
  ∧ input w' = input w ∧ localStorage w' = localStorage w
  ∧ pendingInits w' = pendingInits w
  ∧ calls w'
    = calls w
        ++ match chatStreamRef w with
           | Some stream => [StreamClose stream]
           | None => []
           end
        ++ [ResetChat (deviceId P)].
Proof.
  unfold handleReset. destruct (chatStreamRef w); simpl; repeat split.
  by rewrite <- app_assoc.
Qed.

(** *** Terminal events *)

Lemma updateById_settled (target : string) (updated : Message)
    (prev : list Message) :
  isStreaming updated = Some false →
  Forall (λ msg, id msg = target → isStreaming msg = Some false)
    (updateById target (λ _, updated) prev).
Proof.
  intros Hup. unfold updateById. apply Forall_forall.
  intros msg Hin. apply list_elem_of_In, in_map_iff in Hin as (old & <- & _).
  destruct (String.eqb_spec (id old) target); [done|]. intros ?. done.
Qed.

Section WithQuota.
Variable accepts : History.Storage → string → History.StoredText → bool.
Variable deleteHistoryItem : History.Storage → string → string → History.Storage.

Lemma onDone_settles (P : DevicePanelProps) (c : Closure)
    (event : DoneEvent.t) (now : Z) (w : World) :
  runSettled c (onDone accepts P c event now w)
  ∧ openStreams (onDone accepts P c event now w) = openStreams w
  ∧ streamCount (onDone accepts P c event now w) = streamCount w.
Proof.
  unfold runSettled, onDone, saveToHistory. simpl.
  repeat split. by apply updateById_settled.
Qed.

Lemma onError_settles (P : DevicePanelProps) (c : Closure)
    (event : ErrorEvent.t) (now : Z) (w : World) :
  runSettled c (onError accepts P c event now w)
  ∧ openStreams (onError accepts P c event now w) = openStreams w
  ∧ streamCount (onError accepts P c event now w) = streamCount w.
Proof.
  unfold runSettled, onError, saveToHistory. simpl.
  repeat split. by apply updateById_settled.
Qed.

Lemma onAborted_settles (c : Closure) (event : AbortedEvent.t) (now : Z)
    (w : World) :
  runSettled c (onAborted c event now w)
  ∧ openStreams (onAborted c event now w) = openStreams w
  ∧ streamCount (onAborted c event now w) = streamCount w.
Proof.
  unfold runSettled, onAborted. simpl.
  repeat split. by apply updateById_settled.
Qed.

(** A terminal event delivered on an open stream settles the run and
    ends the stream. *)
Lemma deliver_terminal_settles (P : DevicePanelProps) (stream : nat)
    (ev : StreamEvent) (now : Z) (w : World) (c : Closure) :
  stream ∈ openStreams w → closures w !! stream = Some c →
  isTerminal ev = true →
  runSettled c (deliver accepts P stream ev now w)
  ∧ stream ∉ openStreams (deliver accepts P stream ev now w).
Proof.
  intros Hopen Hc Hterm. unfold deliver.
  rewrite bool_decide_true by done. rewrite Hc.
  destruct ev as [event timer|event|event|event|event]; try discriminate.
  - destruct (onDone_settles P c event now w) as [Hs _].
    split; [exact Hs | simpl; apply not_in_difference].
  - destruct (onError_settles P c event now w) as [Hs _].
    split; [exact Hs | simpl; apply not_in_difference].
  - destruct (onAborted_settles c event now w) as [Hs _].
    split; [exact Hs | simpl; apply not_in_difference].
Qed.

(** *** How the streams of a panel evolve *)

Lemma streams_same (w w' : World) :
  chatStreamRef w' = chatStreamRef w → openStreams w' = openStreams w →
  streamCount w' = streamCount w →
  (streamCount w ≤ streamCount w')%nat
  ∧ (∀ s, s ∈ openStreams w' →
          s ∈ openStreams w ∨ (streamCount w ≤ s ∧ s < streamCount w')%nat)
  ∧ (∀ s, chatStreamRef w' = Some s →
          chatStreamRef w = Some s
          ∨ (streamCount w ≤ s ∧ s < streamCount w')%nat).
Proof. intros -> -> ->. repeat split; auto. Qed.

Lemma streams_closing (w w' : World) (stream : nat) :
  chatStreamRef w' = None →
  openStreams w' = openStreams w ∖ {[stream]} ∨ openStreams w' = openStreams w →
  streamCount w' = streamCount w →
  (streamCount w ≤ streamCount w')%nat
  ∧ (∀ s, s ∈ openStreams w' →
          s ∈ openStreams w ∨ (streamCount w ≤ s ∧ s < streamCount w')%nat)
  ∧ (∀ s, chatStreamRef w' = Some s →
          chatStreamRef w = Some s
          ∨ (streamCount w ≤ s ∧ s < streamCount w')%nat).
Proof.
  intros -> Ho ->. split; [done|]. split; [|done].
  intros s Hs. left. destruct Ho as [Ho|Ho]; rewrite Ho in Hs; [|done].
  by apply elem_of_difference in Hs as [? _].
Qed.

Lemma streams_opening (P : DevicePanelProps) (inputValue : string) (now : Z)
    (w w0 : World) :
  chatStreamRef w0 = chatStreamRef w → openStreams w0 = openStreams w →
  streamCount w0 = streamCount w →
  let w' := handleSendResumes P inputValue now w0 in
  (streamCount w ≤ streamCount w')%nat
  ∧ (∀ s, s ∈ openStreams w' →
          s ∈ openStreams w ∨ (streamCount w ≤ s ∧ s < streamCount w')%nat)
  ∧ (∀ s, chatStreamRef w' = Some s →
          chatStreamRef w = Some s
          ∨ (streamCount w ≤ s ∧ s < streamCount w')%nat).
Proof.
  intros Hr Ho Hc w'. subst w'.
  destruct (handleSendResumes_fields P inputValue now w0)
    as (-> & _ & -> & -> & _). rewrite Ho, Hc.
  split; [lia|]. split.
  - intros s [Hs|Hs]%elem_of_union; [|by left].
    apply elem_of_singleton in Hs as ->. right. lia.
  - intros s [= <-]. right. lia.
Qed.

Lemma act_streams (P : DevicePanelProps) (w : World) (a : Action) :
  let w' := act accepts deleteHistoryItem P w a in
  (streamCount w ≤ streamCount w')%nat
  ∧ (∀ s, s ∈ openStreams w' →
          s ∈ openStreams w ∨ (streamCount w ≤ s ∧ s < streamCount w')%nat)
  ∧ (∀ s, chatStreamRef w' = Some s →
          chatStreamRef w = Some s
          ∨ (streamCount w ≤ s ∧ s < streamCount w')%nat).
Proof.
  destruct a as [text|now|force|k r now| | |item|confirmed|itemId
                 |stream ev now|stream]; cbn [act].
  - by apply streams_same.
  - unfold handleSend.
    destruct (String.eqb (trim (input w)) "" || loading w);
      [by apply streams_same|].
    destruct (initialized w); [by apply streams_opening|].
    destruct (handleInit_fields P false None w) as (? & _ & ? & ? & _).
    destruct (config P) eqn:Hc; [|by apply streams_opening].
    destruct (handleInit_fields P false (Some (trim (input w))) w)
      as (? & _ & ? & ? & _).
    by apply streams_same.
  - destruct (handleInit_fields P force None w) as (? & _ & ? & ? & _).
    by apply streams_same.
  - unfold initAgentReturns.
    destruct (pendingInits w !! k) as [p|]; [|by apply streams_same].
    destruct (handleInitResumes_fields (initForce p) r
                (setPendingInits (delete k (pendingInits w)) w))
      as ((? & _ & ? & _) & ? & _).
    destruct (resumesSend p); [by apply streams_opening|by apply streams_same].
  - destruct (chatStreamRef w) as [stream|] eqn:Href; rewrite <- Href.
    + destruct (handleAbortChat_active P w stream Href)
        as (? & _ & _ & _ & ? & _ & ?).
      apply (streams_closing w _ stream); auto.
    + rewrite handleAbortChat_idle by done. by apply streams_same.
  - destruct (handleReset_fields P w) as (? & Ho & ? & _).
    destruct (chatStreamRef w) as [stream|] eqn:Href; rewrite <- Href.
    + apply (streams_closing w _ stream); auto.
    + apply (streams_closing w _ 0%nat); auto.
  - by apply streams_same.
  - destruct confirmed; by apply streams_same.
  - by apply streams_same.
  - unfold deliver. case_bool_decide; [|by apply streams_same].
    destruct (closures w !! stream) as [c|]; [|by apply streams_same].
    destruct ev as [event timer|event|event|event|event].
    + by apply streams_same.
    + destruct (onStep_frame c event w) as [(? & _ & ? & _) ?].
      destruct (onStep c event w) as [c' w']. by apply streams_same.
    + destruct (onDone_settles P c event now w) as ((_ & ? & _) & Ho & ?).
      apply (streams_closing w _ stream); simpl; auto; left; by rewrite Ho.
    + destruct (onError_settles P c event now w) as ((_ & ? & _) & Ho & ?).
      apply (streams_closing w _ stream); simpl; auto; left; by rewrite Ho.
    + destruct (onAborted_settles c event now w) as ((_ & ? & _) & Ho & ?).
      apply (streams_closing w _ stream); simpl; auto; left; by rewrite Ho.
  - unfold timerFires. destruct (closures w !! stream) as [c|];
      [|by apply streams_same].
    destruct (updateTimeoutId c); [|by apply streams_same].
    destruct (flushThinkingUpdate_frame c w) as [(? & _ & ? & _) ?].
    destruct (flushThinkingUpdate c w) as [c' w']. by apply streams_same.
Qed.

Lemma act_wellNumbered (P : DevicePanelProps) (w : World) (a : Action) :
  wellNumbered w → wellNumbered (act accepts deleteHistoryItem P w a).
Proof.
  intros [Href Hopen]. destruct (act_streams P w a) as (Hc & Ho & Hr).
  split.
  - intros s Hs. destruct (Hr s Hs) as [Hold|?]; [|lia].
    specialize (Href s Hold). lia.
  - intros s Hs. destruct (Ho s Hs) as [Hold|?]; [|lia].
    specialize (Hopen s Hold). lia.
Qed.

Lemma act_over (P : DevicePanelProps) (w : World) (a : Action) (stream : nat) :
  over stream w → over stream (act accepts deleteHistoryItem P w a).
Proof.
  intros (Hlt & Hclosed & Hunref).
  destruct (act_streams P w a) as (Hc & Ho & Hr).
  split; [lia|]. split.
  - intros Hs. destruct (Ho stream Hs) as [?|?]; [done|lia].
  - intros Hs. destruct (Hr stream Hs) as [?|?]; [done|lia].
Qed.

(** Once the run of a stream was ended as aborted it is over. *)
Lemma abortsRun_over (P : DevicePanelProps) (w : World) (a : Action)
    (stream : nat) :
  wellNumbered w → abortsRun stream w a = true →
  over stream (act accepts deleteHistoryItem P w a).
Proof.
  intros [Href Hopen] Ha.
  destruct a as [text|now|force|k r now| | |item|confirmed|itemId
                 |s ev now|s]; simpl in Ha; try done.
  - case_bool_decide as Hr; [|done]. simpl.
    destruct (handleAbortChat_active P w stream Hr)
      as (Hr' & _ & _ & _ & Ho & _ & Hc).
    unfold over. rewrite Hr', Ho, Hc.
    split; [by apply Href|]. split; [apply not_in_difference | done].
  - destruct ev as [| | | |event]; try done.
    do 3 (case_bool_decide; [|done]). subst s. simpl.
    destruct (closures w !! stream) as [c|] eqn:Hcl;
      [|by destruct (is_Some_None (A:=Closure))].
    unfold deliver. rewrite bool_decide_true, Hcl by done.
    unfold over, onAborted. simpl.
    split; [by apply Hopen|]. split; [apply not_in_difference | done].
Qed.

Lemma abortedOutcomes_bound (P : DevicePanelProps) (stream : nat)
    (l : list Action) :
  ∀ w, wellNumbered w →
       (abortedOutcomes accepts deleteHistoryItem P stream w l ≤ 1)%nat
       ∧ (over stream w →
          abortedOutcomes accepts deleteHistoryItem P stream w l = 0%nat).
Proof.
  induction l as [|a l IH]; intros w Hw; [simpl; split; [lia|done]|].
  destruct (IH _ (act_wellNumbered P w a Hw)) as [Hle Hzero].
  simpl. destruct (abortsRun stream w a) eqn:Ha.
  - rewrite Hzero by (by apply abortsRun_over). split; [lia|].
    intros (Hlt & Hclosed & Hunref). exfalso.
    destruct a as [text|now|force|k r now| | |item|confirmed|itemId
                   |s ev now|s]; simpl in Ha; try done.
    + by case_bool_decide.
    + destruct ev as [| | | |event]; try done.
      do 2 (case_bool_decide; [|done]). done.
  - split; [lia|]. intros Hover. simpl. apply Hzero. by apply act_over.
Qed.
End WithQuota.

(** C5. Aborting twice is aborting once: the second call returns the
    state the first one left.  When a stream is referred to, the first call
    closes it, notifies the backend once and yields the aborted outcome: the
    panel is no longer loading and refers to no stream, the chat keeps its
    length and does not end with a streaming reply any more, and a reply
    that was streaming at its end is the same reply marked as failed and
    not streaming, with the abort text as content if it had none.  The
    second call adds no call and changes no message.  After the stop
    nothing the closed stream still sends reaches a callback, its aborted
    event included; and when the aborted event of the stream reaches its
    callback first, the run is settled by it, the stream is over and the
    stop button does nothing.  So two clicks on stop end the run as
    aborted exactly once, and along anything that can happen to a panel
    the run of any one stream is ended as aborted at most once. *)
Theorem handleAbortChat_idempotent (P : DevicePanelProps) (w : World) :
  handleAbortChat P (handleAbortChat P w) = handleAbortChat P w
  ∧ (∀ stream, chatStreamRef w = Some stream →
       let once := handleAbortChat P w in
       let twice := handleAbortChat P once in
       calls twice = calls w ++ [StreamClose stream; AbortChat (deviceId P)]
       ∧ messages twice = abortLastMessage (chat_aborted P) (messages w)
       ∧ chatStreamRef twice = None
       ∧ loading twice = false
       ∧ (stream ∉ openStreams twice)
       ∧ (∀ accepts ev now, deliver accepts P stream ev now twice = twice)
       ∧ length (messages once) = length (messages w)
       ∧ (∀ m, last (messages once) = Some m → role m = assistant →
               isStreaming m ≠ Some true)
       ∧ (∀ earlier reply,
            messages w = earlier ++ [reply] →
            role reply = assistant → isStreaming reply = Some true →
            messages once
            = earlier
                ++ [{| id := id reply; role := assistant;
                       content :=
                         History.or_else (content reply) (chat_aborted P);
                       timestamp := timestamp reply; steps := steps reply;
                       success := Some false; thinking := thinking reply;
                       actions := actions reply; isStreaming := Some false;
                       currentThinking := None |}])
       ∧ (∀ accepts deleteHistoryItem,
            abortedOutcomes accepts deleteHistoryItem P stream w
              [ClickAbort; ClickAbort] = 1%nat))
  ∧ (∀ accepts stream c event now,
       stream ∈ openStreams w → closures w !! stream = Some c →
       let settled := deliver accepts P stream (Aborted event) now w in
       runSettled c settled ∧ (stream ∉ openStreams settled)
       ∧ handleAbortChat P settled = settled)
  ∧ (∀ accepts deleteHistoryItem store happened stream,
       (abortedOutcomes accepts deleteHistoryItem P stream
          (initialWorld store) happened ≤ 1)%nat).
Proof.
  assert (Hsecond : handleAbortChat P (handleAbortChat P w) = handleAbortChat P w).
  { destruct (chatStreamRef w) as [stream|] eqn:Href.
    - apply handleAbortChat_idle.
      by destruct (handleAbortChat_active P w stream Href) as [? _].
    - by rewrite !(handleAbortChat_idle P w Href). }
  split; [exact Hsecond|]. split; [|split].
  - intros stream Href once twice. subst once twice. rewrite Hsecond.
    destruct (handleAbortChat_active P w stream Href)
      as (Hr & Hl & _ & Hc & Ho & Hm & _).
    assert (Hclosed : stream ∉ openStreams (handleAbortChat P w)).
    { rewrite Ho. apply not_in_difference. }
    destruct (abortLastMessage_settles (chat_aborted P) (messages w))
      as [Hlen Hlast].
    rewrite Hm.
    repeat match goal with |- _ ∧ _ => split end; try done.
    + intros accepts ev now. unfold deliver. by rewrite bool_decide_false.
    + intros earlier reply -> Hrole Hst.
      rewrite abortLastMessage_streaming by done. by rewrite Hrole.
    + intros accepts deleteHistoryItem. simpl.
      rewrite bool_decide_true by done.
      rewrite bool_decide_false; [done|]. by rewrite Hr.
  - intros accepts stream c event now Hopen Hc settled. subst settled.
    destruct (deliver_terminal_settles accepts P stream (Aborted event) now w c
                Hopen Hc eq_refl) as [Hs Hclosed].
    split; [exact Hs|]. split; [exact Hclosed|].
    apply handleAbortChat_idle. by destruct Hs as (_ & ? & _).
  - intros accepts deleteHistoryItem store happened stream.
    apply abortedOutcomes_bound. split; simpl; [done|].
    intros s Hs. by apply elem_of_empty in Hs.
Qed.

Lemma handleAbortChat_idempotent_witness :
  calls (handleAbortChat sampleProps (handleAbortChat sampleProps sampleRunning))
  = calls sampleRunning ++ [StreamClose 0; AbortChat "emulator-5554"].
Proof.
  apply (proj1 (proj2 (handleAbortChat_idempotent sampleProps sampleRunning))
           0%nat).
  reflexivity.
Defined.

(** C6, where the code falls short of it.  The guard of [handleSend]
    rejects a send while the panel is loading, but on a configured panel
    that is not initialized the handler waits for [initAgent] between the
    guard and [setLoading(true)].  A second send in that time passes the
    guard as well; when [initAgent] has returned to both, whatever it
    returned, two streams have been opened for the same text on the same
    device and both are open, the panel refers to the second one only, and
    the stop button closes that one and leaves the first open.  Once a send
    has gone past the wait the guard holds: a further send is rejected and
    returns the world as it is. *)
Theorem second_send_during_init (P : DevicePanelProps) (cfg : GlobalConfig)
    (w : World) (now1 now2 later1 later2 : Z) (r1 r2 : option string) :
  config P = Some cfg → initialized w = false → loading w = false →
  blank (input w) = false → pendingInits w = [] →
  let text := trim (input w) in
  let first := handleSend P now1 w in
  let second := handleSend P now2 first in
  let started := initAgentReturns P 0 r1 later1 second in
  let both := initAgentReturns P 0 r2 later2 started in
  (loading first = false ∧ input first = input w
   ∧ calls first = calls w ++ [InitAgent (deviceId P) false])
  ∧ (second ≠ first
     ∧ calls second
       = calls w ++ [InitAgent (deviceId P) false; InitAgent (deviceId P) false])
  ∧ (loading started = true
     ∧ ∀ now, handleSend P now started = started)
  ∧ calls both
    = calls w
        ++ [InitAgent (deviceId P) false; InitAgent (deviceId P) false;
            SendMessageStream text (deviceId P) (streamCount w);
            SendMessageStream text (deviceId P) (S (streamCount w))]
  ∧ streamsStarted (calls both) = S (S (streamsStarted (calls w)))
  ∧ openStreams both
    = {[S (streamCount w)]} ∪ ({[streamCount w]} ∪ openStreams w)
  ∧ chatStreamRef both = Some (S (streamCount w))
  ∧ streamCount w ∈ openStreams (handleAbortChat P both).
Proof.
  intros Hc Hi Hl Hb Hp text first second started both.
  assert (Hne : trim (input w) ≠ "").
  { intros He. apply trim_empty_iff_blank in He. congruence. }
  assert (Hfirst : first
                   = setPendingInits
                       [{| initForce := false; resumesSend := Some text |}]
                       (logCall (InitAgent (deviceId P) false) w)).
  { subst first. rewrite (handleSend_waits P now1 w cfg) by done.
    by rewrite Hp. }
  assert (Hsecond : second
                    = setPendingInits
                        [{| initForce := false; resumesSend := Some text |};
                         {| initForce := false; resumesSend := Some text |}]
                        (logCall (InitAgent (deviceId P) false)
                           (logCall (InitAgent (deviceId P) false) w))).
  { subst second. rewrite Hfirst.
    rewrite (handleSend_waits P now2 _ cfg) by done. done. }
  assert (Hstarted : started
                     = handleSendResumes P text later1
                         (handleInitResumes false r1
                            (setPendingInits
                               [{| initForce := false;
                                   resumesSend := Some text |}]
                               second))).
  { subst started. rewrite Hsecond. reflexivity. }
  assert (Hboth : both
                  = handleSendResumes P text later2
                      (handleInitResumes false r2
                         (setPendingInits [] started))).
  { subst both. unfold initAgentReturns at 1.
    replace (pendingInits started)
      with [{| initForce := false; resumesSend := Some text |}]; [done|].
    rewrite Hstarted.
    destruct (handleSendResumes_fields P text later1
                (handleInitResumes false r1
                   (setPendingInits
                      [{| initForce := false; resumesSend := Some text |}]
                      second))) as (_ & _ & _ & _ & _ & _ & -> & _).
    by destruct (handleInitResumes_fields false r1
                   (setPendingInits
                      [{| initForce := false; resumesSend := Some text |}]
                      second)) as (_ & _ & _ & _ & _ & _ & ->). }
  assert (Hcalls : calls both
                   = calls w
                       ++ [InitAgent (deviceId P) false;
                           InitAgent (deviceId P) false;
                           SendMessageStream text (deviceId P) (streamCount w);
                           SendMessageStream text (deviceId P)
                             (S (streamCount w))]).
  { rewrite Hboth, Hstarted, Hsecond.
    destruct r1, r2; simpl; by rewrite <- !app_assoc. }
  split; [by rewrite Hfirst|]. split.
  { rewrite Hsecond, Hfirst. split; [|simpl; by rewrite <- app_assoc].
    intros Heq. apply (f_equal pendingInits) in Heq. done. }
  split.
  { split; [by rewrite Hstarted|]. intros now.
    apply handleSend_rejected. by rewrite Hstarted. }
  split; [exact Hcalls|]. split.
  { rewrite Hcalls. unfold streamsStarted.
    rewrite List.filter_app, length_app. simpl. lia. }
  assert (Hopen : openStreams both
                  = {[S (streamCount w)]} ∪ ({[streamCount w]} ∪ openStreams w)).
  { rewrite Hboth, Hstarted, Hsecond. by destruct r1, r2. }
  assert (Href : chatStreamRef both = Some (S (streamCount w))).
  { rewrite Hboth, Hstarted, Hsecond. by destruct r1, r2. }
  split; [exact Hopen|]. split; [exact Href|].
  destruct (handleAbortChat_active P both _ Href) as (_ & _ & _ & _ & -> & _).
  rewrite Hopen. apply elem_of_difference. split.
  - apply elem_of_union_r, elem_of_union_l. by apply elem_of_singleton.
  - intros Hin. apply elem_of_singleton in Hin. lia.
Qed.

Lemma second_send_during_init_witness :
  calls
    (initAgentReturns sampleProps 0 None 1700000000600
       (initAgentReturns sampleProps 0 None 1700000000500
          (handleSend sampleProps 1700000000200
             (handleSend sampleProps 1700000000100
                (setInput "open settings" (initialWorld ∅))))))
  = [InitAgent "emulator-5554" false; InitAgent "emulator-5554" false;
     SendMessageStream "open settings" "emulator-5554" 0;
     SendMessageStream "open settings" "emulator-5554" 1].
Proof.
  apply (proj1 (proj2 (proj2 (proj2
           (second_send_during_init sampleProps
              {| base_url := "http://localhost"; model_name := "glm";
                 api_key := None; thinking_mode := None; agent_type := None |}
              (setInput "open settings" (initialWorld ∅))
              1700000000100 1700000000200 1700000000500 1700000000600
              None None eq_refl eq_refl eq_refl eq_refl eq_refl))))).
Defined.

(** *** The ways a send and a returning [initAgent] can go *)

Lemma handleSend_cases (P : DevicePanelProps) (now : Z) (w : World) :
  handleSend P now w = w
  ∨ handleSend P now w = handleSendResumes P (trim (input w)) now w
  ∨ handleSend P now w = handleInit P false (Some (trim (input w))) w.
Proof.
  unfold handleSend.
  destruct (String.eqb (trim (input w)) "" || loading w); [by left|].
  destruct (initialized w); [right; by left|].
  destruct (config P) eqn:Hc; [right; by right|].
  right. left. unfold handleInit. by rewrite Hc.
Qed.

Lemma initAgentReturns_cases (P : DevicePanelProps) (k : nat)
    (r : option string) (now : Z) (w : World) :
  initAgentReturns P k r now w = w
  ∨ ∃ p,
      pendingInits w !! k = Some p
      ∧ let w0 := handleInitResumes (initForce p) r
                    (setPendingInits (delete k (pendingInits w)) w) in
        initAgentReturns P k r now w = w0
        ∨ ∃ inputValue,
            resumesSend p = Some inputValue
            ∧ initAgentReturns P k r now w
              = handleSendResumes P inputValue now w0.
Proof.
  unfold initAgentReturns.
  destruct (pendingInits w !! k) as [p|]; [|by left].
  right. exists p. split; [done|]. simpl.
  destruct (resumesSend p) as [inputValue|]; [right; by exists inputValue|].
  by left.
Qed.

(** The send that waits goes on when [initAgent] returns to it. *)
Lemma send_after_init (P : DevicePanelProps) (now later : Z) (w : World)
    (cfg : GlobalConfig) (r : option string) :
  trim (input w) ≠ "" → loading w = false →
  initialized w = false → config P = Some cfg →
  initAgentReturns P (length (pendingInits w)) r later (handleSend P now w)
  = handleSendResumes P (trim (input w)) later
      (handleInitResumes false r (logCall (InitAgent (deviceId P) false) w)).
Proof.
  intros Hin Hl Hi Hc. rewrite (handleSend_waits P now w cfg) by done.
  unfold initAgentReturns. simpl.
  rewrite list_lookup_middle by done. simpl.
  by rewrite delete_middle, app_nil_r.
Qed.

Lemma handleSendResumes_shows (P : DevicePanelProps) (inputValue : string)
    (now : Z) (w : World) :
  let w' := handleSendResumes P inputValue now w in
  ∃ userMessage agentMessage closure,
    messages w' = messages w ++ [userMessage; agentMessage]
    ∧ role userMessage = user
    ∧ content userMessage = inputValue
    ∧ role agentMessage = assistant
    ∧ content agentMessage = ""
    ∧ isStreaming agentMessage = Some true
    ∧ id userMessage ≠ id agentMessage
    ∧ input w' = "" ∧ error w' = None ∧ loading w' = true
    ∧ chatStreamRef w' = Some (streamCount w)
    ∧ closures w' = <[streamCount w := closure]> (closures w)
    ∧ agentMessageId closure = id agentMessage
    ∧ thinkingList closure = [] ∧ actionsList closure = []
    ∧ calls w'
      = calls w ++ [SendMessageStream inputValue (deviceId P) (streamCount w)].
Proof.
  assert (Hid : pretty now ≠ pretty (now + 1)).
  { intros Heq. apply (inj pretty) in Heq. lia. }
  eexists _, _, _. unfold handleSendResumes. simpl.
  split; [by rewrite <- app_assoc|].
  repeat match goal with |- _ ∧ _ => split end; try reflexivity.
  exact Hid.
Qed.

(** *** Coherent panels *)

Lemma handleAbortChat_coherent (P : DevicePanelProps) (w : World) :
  coherent w → coherent (handleAbortChat P w).
Proof.
  intros Hw. destruct (chatStreamRef w) as [stream|] eqn:Href;
    [|by rewrite handleAbortChat_idle].
  destruct (handleAbortChat_active P w stream Href) as (Hr & _ & _ & _ & Ho & _).
  unfold coherent in *. rewrite Hr, Ho. rewrite Href in Hw.
  destruct Hw as [Hsub _]. by apply difference_of_only_any.
Qed.

Lemma handleReset_coherent (P : DevicePanelProps) (w : World) :
  coherent w → coherent (handleReset P w).
Proof.
  unfold coherent, handleReset. intros Hw.
  destruct (chatStreamRef w) as [stream|]; simpl; [|done].
  destruct Hw as [Hsub _]. by apply difference_of_only_any.
Qed.

End DevicePanelTheory.

(** ** The anomaly detector *)
Module AnomalyMonitorTheory.
Import AnomalyMonitor.

Lemma observeAll_snoc (cfg : Thresholds) (st : AnomalyState)
    (history : list Observation) (o : Observation) :
  observeAll cfg st (history ++ [o])
  = fst (observe cfg (observeAll cfg st history) o).
Proof. unfold observeAll. by rewrite fold_left_app. Qed.

(** The counters of the state are the streaks of the history. *)
Lemma observeAll_counts (cfg : Thresholds) (history : list Observation) :
  let st := observeAll cfg initial history in
  consecutive_same_screen st = sameScreenStreak (rev history)
  ∧ consecutive_failures st = failureStreak (rev history)
  ∧ repeated_actions st = repeatStreak (rev history)
  ∧ last_screenshot_hash st = previousFingerprint (rev history)
  ∧ last_action st = previousAction (rev history).
Proof.
  induction history as [|o history IH] using rev_ind; [done|].
  rewrite observeAll_snoc, rev_unit.
  destruct IH as (Hs & Hf & Hr & Hh & Ha). simpl.
  rewrite Hs, Hf, Hr, Hh, Ha. done.
Qed.

Lemma observe_counts (cfg : Thresholds) (history : list Observation)
    (o : Observation) :
  snd (observe cfg (observeAll cfg initial history) o)
  = match firstRuleMet cfg (o :: rev history) with
    | Some (r, n) =>
        Some {| rule := r; count := n; lastAction := actionSignature o |}
    | None => None
    end.
Proof.
  destruct (observeAll_counts cfg history) as (Hs & Hf & Hr & Hh & Ha).
  unfold observe, firstRuleMet. simpl. rewrite Hs, Hf, Hr, Hh, Ha.
  repeat case_match; done.
Qed.

(** C2. After any sequence of observations, [observe] answers on the next
    one with the first rule, in the order same screen, consecutive
    failures, repeated action, whose streak has reached its threshold, and
    with that streak as count: it answers nothing exactly when the three
    streaks are all below their thresholds, and an answer names a rule only
    when that rule's streak is at its threshold and every earlier rule's
    streak is below its own.  A streak grows by one
    observation at a time, so a threshold is met first on the observation
    where the streak equals it.  The default thresholds are 3, 2 and 3.
    ([observe] is a function of thresholds, state and observation.) *)
Theorem observe_first_rule (cfg : Thresholds) (history : list Observation)
    (o : Observation) :
  let st := observeAll cfg initial history in
  let recent := o :: rev history in
  let answer := snd (observe cfg st o) in
  (((sameScreenLimit cfg ≤ sameScreenStreak recent)%nat →
      answer = Some {| rule := ScreenNotChanging;
                       count := sameScreenStreak recent;
                       lastAction := actionSignature o |})
   ∧ ((sameScreenStreak recent < sameScreenLimit cfg)%nat →
      (failureLimit cfg ≤ failureStreak recent)%nat →
      answer = Some {| rule := ConsecutiveFailures;
                       count := failureStreak recent;
                       lastAction := actionSignature o |})
   ∧ ((sameScreenStreak recent < sameScreenLimit cfg)%nat →
      (failureStreak recent < failureLimit cfg)%nat →
      (repeatLimit cfg ≤ repeatStreak recent)%nat →
      answer = Some {| rule := ActionHasNoEffect;
                       count := repeatStreak recent;
                       lastAction := actionSignature o |})
   ∧ (answer = None ↔
        (sameScreenStreak recent < sameScreenLimit cfg)%nat
        ∧ (failureStreak recent < failureLimit cfg)%nat
        ∧ (repeatStreak recent < repeatLimit cfg)%nat)
   ∧ (∀ context, answer = Some context →
        match rule context with
        | ScreenNotChanging =>
            (sameScreenLimit cfg ≤ sameScreenStreak recent)%nat
            ∧ count context = sameScreenStreak recent
        | ConsecutiveFailures =>
            (sameScreenStreak recent < sameScreenLimit cfg)%nat
            ∧ (failureLimit cfg ≤ failureStreak recent)%nat
            ∧ count context = failureStreak recent
        | ActionHasNoEffect =>
            (sameScreenStreak recent < sameScreenLimit cfg)%nat
            ∧ (failureStreak recent < failureLimit cfg)%nat
            ∧ (repeatLimit cfg ≤ repeatStreak recent)%nat
            ∧ count context = repeatStreak recent
        end))
  ∧ ((sameScreenStreak recent ≤ S (sameScreenStreak (rev history)))%nat
     ∧ (failureStreak recent ≤ S (failureStreak (rev history)))%nat
     ∧ (repeatStreak recent ≤ S (repeatStreak (rev history)))%nat)
  ∧ (sameScreenLimit defaults = 3%nat ∧ failureLimit defaults = 2%nat
     ∧ repeatLimit defaults = 3%nat).
Proof.
  intros st recent answer. subst st answer.
  rewrite observe_counts. fold recent. unfold firstRuleMet.
  split; [|split; [|done]].
  - destruct (Nat.leb_spec (sameScreenLimit cfg) (sameScreenStreak recent));
      [repeat split; intros; simplify_eq/=; try done; try lia|].
    destruct (Nat.leb_spec (failureLimit cfg) (failureStreak recent));
      [repeat split; intros; simplify_eq/=; try done; try lia|].
    destruct (Nat.leb_spec (repeatLimit cfg) (repeatStreak recent));
      repeat split; intros; simplify_eq/=; try done; try lia.
  - subst recent. simpl. repeat split; repeat case_match; lia.
Qed.

Lemma observe_first_rule_witness :
  snd (observe defaults (observeAll defaults initial [failedTap "s1"])
         (failedTap "s2"))
  = Some {| rule := ConsecutiveFailures; count := 2;
            lastAction := "tap: send" |}.
Proof.
  apply (proj1 (proj2 (proj1
           (observe_first_rule defaults [failedTap "s1"] (failedTap "s2"))))).
  - vm_compute. lia.
  - vm_compute. lia.
Defined.

End AnomalyMonitorTheory.

(** ** The Batched strategy *)
Module BatchedTheory.
Import Batched.

Lemma terminalEvents_emit (events : list Event) (s : Status) (r : Run) :
  terminalEvents (emit events s r)
  = terminalEvents r ++ List.filter isTerminal events.
Proof. unfold terminalEvents. simpl. apply List.filter_app. Qed.

Lemma finishIfConsumed_fields (r : Run) :
  sequence (finishIfConsumed r) = sequence r
  ∧ index (finishIfConsumed r) = index r
  ∧ replanBudget (finishIfConsumed r) = replanBudget r
  ∧ replansUsed (finishIfConsumed r) = replansUsed r.
Proof. unfold finishIfConsumed. repeat case_match; done. Qed.

Lemma finishIfConsumed_settled (r : Run) :
  status r = Running → terminalEvents r = [] →
  (index r ≤ length (sequence r))%nat →
  settled (finishIfConsumed r).
Proof.
  intros Hs Ht Hi. unfold finishIfConsumed. rewrite Hs.
  destruct (Nat.leb_spec (length (sequence r)) (index r)).
  - unfold settled. simpl. exists task_complete.
    rewrite terminalEvents_emit, Ht. simpl. by rewrite last_snoc.
  - unfold settled. by rewrite Hs.
Qed.

Lemma bounded_finishIfConsumed (r : Run) :
  bounded r → bounded (finishIfConsumed r).
Proof.
  unfold bounded.
  destruct (finishIfConsumed_fields r) as (-> & -> & -> & ->). done.
Qed.

Lemma cancel_settled (r : Run) :
  terminalEvents r = [] → settled (cancel r).
Proof.
  intros Ht. unfold settled, cancel. simpl. exists (aborted "aborted").
  rewrite terminalEvents_emit, Ht. simpl. by rewrite last_snoc.
Qed.

Lemma start_ok (planned : ActionSequence) :
  bounded (start planned) ∧ settled (start planned).
Proof.
  unfold start. split.
  - apply bounded_finishIfConsumed. unfold bounded, MAX_REPLANS. simpl. lia.
  - apply finishIfConsumed_settled; simpl; [done | done | lia].
Qed.

(** One iteration keeps the bounds and the terminal-event discipline,
    never moves the index back, and uses at most one re-plan. *)
Lemma step_ok (cfg : AnomalyMonitor.Thresholds) (r : Run) (t : Turn) :
  bounded r → settled r →
  bounded (step cfg r t) ∧ settled (step cfg r t)
  ∧ (index r ≤ index (step cfg r t))%nat
  ∧ (replansUsed (step cfg r t) = replansUsed r
     ∨ (replansUsed (step cfg r t) = S (replansUsed r)
        ∧ replanBudget (step cfg r t) = replanBudget r - 1)).
Proof.
  intros Hb Hs. unfold step.
  destruct (status r) eqn:Hst.
  2-4: by (split; [exact Hb|split; [exact Hs|split; [lia|left]]]).
  unfold settled in Hs. rewrite Hst in Hs. destruct Hs as [Hterm Hlt].
  destruct (sequence r !! index r) as [a|] eqn:Ha.
  2:{ destruct (finishIfConsumed_fields r) as (Hq & Hi & Hbud & Hu).
      split; [by apply bounded_finishIfConsumed|].
      split; [apply finishIfConsumed_settled; (done || lia)|].
      rewrite Hi, Hu. auto. }
  destruct Hb as (Hb0 & Hsum & Hidx).
  destruct (needsGeneration a && cancelledBeforeHumanize t).
  { repeat split; (done || auto using cancel_settled). }
  destruct (cancelledBeforeExecute t).
  { repeat split; (done || auto using cancel_settled). }
  destruct (AnomalyMonitor.observe cfg (anomaly r) (observationOf a t))
    as [anomaly' [ctx|]].
  - destruct (Z.ltb_spec 0 (replanBudget r)) as [Hpos|Hzero].
    + destruct (cancelledBeforeReplan t).
      * repeat split; try (done || auto).
        apply cancel_settled. by rewrite terminalEvents_emit, Hterm.
      * match goal with |- context [finishIfConsumed ?x] => set (r' := x) end.
        destruct (finishIfConsumed_fields r') as (Hq & Hi & Hbud & Hu).
        assert (Hlen : (index r' ≤ length (sequence r'))%nat).
        { subst r'. simpl. rewrite length_app, length_take. lia. }
        split; [apply bounded_finishIfConsumed; subst r';
                unfold bounded in *; simpl in *; repeat split; lia|].
        split.
        { apply finishIfConsumed_settled; [done| |done].
          subst r'. unfold terminalEvents in *. simpl.
          by rewrite List.filter_app, Hterm. }
        rewrite Hi, Hu, Hbud. subst r'. simpl. split; [lia | auto].
    + repeat split; try (simpl; (done || lia || auto)).
      unfold settled. simpl. exists (error "recovery exhausted").
      split; [done|]. unfold terminalEvents in *. simpl.
      rewrite List.filter_app, Hterm. simpl.
      split; [done|]. by rewrite last_app.
  - match goal with |- context [finishIfConsumed ?x] => set (r' := x) end.
    destruct (finishIfConsumed_fields r') as (Hq & Hi & Hbud & Hu).
    split; [apply bounded_finishIfConsumed; subst r';
            unfold bounded in *; simpl in *; repeat split; lia|].
    split.
    { apply finishIfConsumed_settled; [done| |subst r'; simpl; lia].
      subst r'. unfold terminalEvents in *. simpl.
      by rewrite List.filter_app, Hterm. }
    rewrite Hi, Hu. subst r'. simpl. split; [lia | auto].
Qed.

Lemma run_snoc (cfg : AnomalyMonitor.Thresholds) (planned : ActionSequence)
    (turns : list Turn) (t : Turn) :
  run cfg planned (turns ++ [t]) = step cfg (run cfg planned turns) t.
Proof. unfold run. by rewrite fold_left_app. Qed.

Lemma run_ok (cfg : AnomalyMonitor.Thresholds) (planned : ActionSequence)
    (turns : list Turn) :
  bounded (run cfg planned turns) ∧ settled (run cfg planned turns).
Proof.
  induction turns as [|t turns IH] using rev_ind; [apply start_ok|].
  rewrite run_snoc. destruct IH as [Hb Hs].
  destruct (step_ok cfg _ t Hb Hs) as (? & ? & _). done.
Qed.

(** C3. In every Batched run the budget starts at 3, every re-plan
    takes one from it and adds one to the count of re-plans, the budget
    stays non-negative and the count never exceeds 3.  When the count is 3
    and the detector reports an anomaly on the step just executed, the run
    ends at once in the failed status with the error event
    "recovery exhausted" as its last and only terminal event: no further
    re-plan, sequence and index untouched. *)
Theorem replans_bounded (cfg : AnomalyMonitor.Thresholds)
    (planned : ActionSequence) (turns : list Turn) :
  let r := run cfg planned turns in
  (replanBudget (start planned) = 3 ∧ replansUsed (start planned) = 0%nat)
  ∧ (replansUsed r ≤ 3)%nat
  ∧ 0 ≤ replanBudget r
  ∧ replanBudget r = 3 - Z.of_nat (replansUsed r)
  ∧ (∀ t, replansUsed (step cfg r t) = replansUsed r
          ∨ (replansUsed (step cfg r t) = S (replansUsed r)
             ∧ replanBudget (step cfg r t) = replanBudget r - 1))
  ∧ (∀ t a context,
       status r = Running → replansUsed r = 3%nat →
       sequence r !! index r = Some a →
       needsGeneration a && cancelledBeforeHumanize t = false →
       cancelledBeforeExecute t = false →
       snd (AnomalyMonitor.observe cfg (anomaly r) (observationOf a t))
         = Some context →
       let r' := step cfg r t in
       status r' = Failed
       ∧ last (emitted r') = Some (error "recovery exhausted")
       ∧ terminalEvents r' = [error "recovery exhausted"]
       ∧ replansUsed r' = 3%nat
       ∧ sequence r' = sequence r ∧ index r' = index r).
Proof.
  intros r. destruct (run_ok cfg planned turns) as [Hb Hs]. fold r in Hb, Hs.
  pose proof Hb as (Hb0 & Hsum & Hidx). unfold MAX_REPLANS in Hsum.
  split.
  { unfold start. by destruct (finishIfConsumed_fields
      {| sequence := steps planned; index := 0;
         replanBudget := MAX_REPLANS; replansUsed := 0;
         anomaly := AnomalyMonitor.initial; executed := [];
         emitted := [plan (map describe (steps planned))
                       (length (steps planned))];
         status := Running |}) as (_ & _ & -> & ->). }
  split; [lia|]. split; [done|]. split; [lia|]. split.
  { intros t. by destruct (step_ok cfg r t Hb Hs) as (_ & _ & _ & ?). }
  intros t a context Hrun Hused Ha Hh He Hobs r'. subst r'.
  unfold settled in Hs. rewrite Hrun in Hs. destruct Hs as [Hterm _].
  unfold step. rewrite Hrun, Ha, Hh, He.
  destruct (AnomalyMonitor.observe cfg (anomaly r) (observationOf a t))
    as [anomaly' answer]. simpl in Hobs. subst answer.
  destruct (Z.ltb_spec 0 (replanBudget r)); [lia|]. simpl.
  repeat split; try done.
  - by rewrite last_app.
  - unfold terminalEvents in *. simpl. by rewrite List.filter_app, Hterm.
Qed.

Lemma replans_bounded_witness :
  status (step AnomalyMonitor.defaults
            (run AnomalyMonitor.defaults samplePlan
               [failingTurn "s1"; failingTurn "s2"; failingTurn "s3";
                failingTurn "s4"])
            (failingTurn "s5")) = Failed.
Proof.
  apply (proj2 (proj2 (proj2 (proj2 (proj2
           (replans_bounded AnomalyMonitor.defaults samplePlan
              [failingTurn "s1"; failingTurn "s2"; failingTurn "s3";
               failingTurn "s4"])))))
           (failingTurn "s5") (tap "retry")
           {| AnomalyMonitor.rule := AnomalyMonitor.ConsecutiveFailures;
              AnomalyMonitor.count := 5;
              AnomalyMonitor.lastAction := "tap: retry" |});
    reflexivity.
Defined.

(** The index of a Batched run never moves back and stays within the
    active sequence. *)
Lemma index_monotone_bounded (cfg : AnomalyMonitor.Thresholds)
    (planned : ActionSequence) (turns : list Turn) (t : Turn) :
  let r := run cfg planned turns in
  (index r ≤ index (step cfg r t))%nat ∧ (index r ≤ length (sequence r))%nat.
Proof.
  intros r. destruct (run_ok cfg planned turns) as [Hb Hs]. fold r in Hb, Hs.
  destruct (step_ok cfg r t Hb Hs) as (_ & _ & Hmono & _).
  destruct Hb as (_ & _ & Hidx). done.
Qed.

(** A run that is over has emitted exactly one terminal event, the one of
    its status, as its last event; a running one has emitted none. *)
Lemma one_terminal_event (cfg : AnomalyMonitor.Thresholds)
    (planned : ActionSequence) (turns : list Turn) :
  let r := run cfg planned turns in
  (status r = Running → terminalEvents r = [])
  ∧ (status r ≠ Running →
     ∃ e, isTerminal e = true ∧ endsIn (status r) e
          ∧ terminalEvents r = [e] ∧ last (emitted r) = Some e).
Proof.
  intros r. destruct (run_ok cfg planned turns) as [_ Hs]. fold r in Hs.
  unfold settled in Hs. destruct (status r); split; try done.
  - by destruct Hs.
  - intros _. destruct Hs as (e & He & Ht & Hl). exists e.
    repeat split; try done. by destruct e.
  - intros _. destruct Hs as (e & He & Ht & Hl). exists e.
    repeat split; try done. by destruct e.
  - intros _. destruct Hs as (e & He & Ht & Hl). exists e.
    repeat split; try done. by destruct e.
Qed.

End BatchedTheory.

(** ** The orchestrator: every mode, every failure *)
Module OrchestratorTheory.
Import Orchestrator.

(** *** The consumer on the events of the channel *)

Lemma handleEvent_quiet (s : DualModel.DualModelState) (e : Batched.Event) :
  quiet e = true →
  DualModel.type (wire e) ≠ "step_complete"
  ∧ DualModel.currentStep (DualModel.handleEvent s (wire e))
    = DualModel.currentStep s
  ∧ DualModel.totalSteps (DualModel.handleEvent s (wire e))
    = DualModel.totalSteps s.
Proof. by destruct e. Qed.

Lemma handleAll_quiet (l : list Batched.Event) :
  Forall (λ e, quiet e = true) l →
  ∀ s low bound,
    DualModel.stepsAscend low bound (map wire l)
    ∧ DualModel.currentStep (DualModel.handleAll s (map wire l))
      = DualModel.currentStep s
    ∧ DualModel.totalSteps (DualModel.handleAll s (map wire l))
      = DualModel.totalSteps s.
Proof.
  induction 1 as [|e l He _ IH]; intros s low bound; [done|].
  destruct (handleEvent_quiet s e He) as (Ht & Hc & Htot).
  destruct (IH (DualModel.handleEvent s (wire e)) low bound)
    as (Ha & Hc' & Htot').
  simpl. apply String.eqb_neq in Ht. rewrite Ht.
  split; [done|]. split; congruence.
Qed.

Lemma stepsAscend_bound (events : list DualModel.DualModelStreamEvent) :
  ∀ low bound bound', bound ≤ bound' →
    DualModel.stepsAscend low bound events →
    DualModel.stepsAscend low bound' events.
Proof.
  induction events as [|e rest IH]; intros low bound bound' Hle; simpl;
    [done|].
  destruct (String.eqb (DualModel.type e) "step_complete").
  - intros (? & ? & ?). repeat split; [done | lia | by eapply IH].
  - by apply IH.
Qed.

Lemma stepsAscend_join (l1 : list DualModel.DualModelStreamEvent) :
  ∀ l2 s bound,
    DualModel.stepsAscend (DualModel.currentStep s) bound l1 →
    DualModel.stepsAscend
      (DualModel.currentStep (DualModel.handleAll s l1)) bound l2 →
    DualModel.stepsAscend (DualModel.currentStep s) bound (l1 ++ l2).
Proof.
  induction l1 as [|e rest IH]; intros l2 s bound H1 H2; simpl in *; [done|].
  destruct (String.eqb_spec (DualModel.type e) "step_complete") as [Ht|Ht].
  - destruct H1 as (Hlow & Hup & Hrest). split; [done|]. split; [done|].
    rewrite <- (DualModelTheory.currentStep_step_complete s e Ht) in Hrest |- *.
    by apply IH.
  - rewrite <- (DualModelTheory.currentStep_other s e Ht) in H1 |- *.
    by apply IH.
Qed.

Lemma shown_app (l1 l2 : list Batched.Event) :
  shown (l1 ++ l2) = DualModel.handleAll (shown l1) (map wire l2).
Proof. unfold shown. by rewrite map_app, DualModelTheory.handleAll_app. Qed.

Lemma tracks_quiet (l q : list Batched.Event) (n : nat) :
  tracks l n → Forall (λ e, quiet e = true) q → tracks (l ++ q) n.
Proof.
  intros [Ha Hc] Hq.
  destruct (handleAll_quiet q Hq (shown l) (Z.of_nat n) (Z.of_nat n))
    as (Hqa & Hqc & _).
  split.
  - rewrite map_app.
    apply (stepsAscend_join (map wire l) (map wire q) DualModel.initialState);
      [done|].
    fold (shown l). by rewrite Hc.
  - rewrite shown_app. congruence.
Qed.

Lemma tracks_step (l : list Batched.Event) (n : nat) :
  tracks l n → tracks (l ++ [Batched.step_complete (S n)]) (S n).
Proof.
  intros [Ha Hc]. split.
  - rewrite map_app.
    apply (stepsAscend_join (map wire l) _ DualModel.initialState).
    + apply (stepsAscend_bound _ _ (Z.of_nat n)); [lia | done].
    + fold (shown l). rewrite Hc. simpl. lia.
  - by rewrite shown_app.
Qed.

(** What one iteration adds to the channel: events that do not move the
    step, with at most one [step_complete] among them, for the next
    index. *)
Lemma tracks_extend (l q1 q2 : list Batched.Event) (n : nat) (moved : bool) :
  tracks l n →
  Forall (λ e, quiet e = true) q1 → Forall (λ e, quiet e = true) q2 →
  tracks (l ++ q1 ++ (if moved then [Batched.step_complete (S n)] else [])
            ++ q2)
    (if moved then S n else n).
Proof.
  intros Ht H1 H2. rewrite !app_assoc.
  apply tracks_quiet; [|done].
  destruct moved.
  - apply tracks_step. by apply tracks_quiet.
  - rewrite app_nil_r. by apply tracks_quiet.
Qed.

Lemma totalSteps_extend (l q1 q2 : list Batched.Event) (n : nat)
    (moved : bool) :
  Forall (λ e, quiet e = true) q1 → Forall (λ e, quiet e = true) q2 →
  DualModel.totalSteps
    (shown (l ++ q1 ++ (if moved then [Batched.step_complete (S n)] else [])
              ++ q2))
  = DualModel.totalSteps (shown l).
Proof.
  intros H1 H2. rewrite !app_assoc, !shown_app.
  destruct (handleAll_quiet q2 H2
              (DualModel.handleAll (DualModel.handleAll (shown l) (map wire q1))
                 (map wire (if moved then [Batched.step_complete (S n)]
                            else [])))
              0 0) as (_ & _ & ->).
  destruct (handleAll_quiet q1 H1 (shown l) 0 0) as (_ & _ & <-).
  by destruct moved.
Qed.

(** A channel that ends with a terminal event leaves both sides of the
    consumer inactive. *)
Lemma shown_ended (l : list Batched.Event) (e : Batched.Event) :
  Batched.isTerminal e = true → last l = Some e →
  let s := shown l in
  DualModel.decisionActive s = false ∧ DualModel.visionActive s = false
  ∧ DualModel.decisionStage s = "idle" ∧ DualModel.visionStage s = "idle".
Proof.
  intros He Hl. apply last_Some in Hl as [l' ->].
  simpl. rewrite shown_app. by destruct e.
Qed.

(** *** The Batched strategy *)

Lemma step_over (cfg : AnomalyMonitor.Thresholds) (r : Batched.Run)
    (t : Batched.Turn) :
  Batched.status r ≠ Batched.Running → Batched.step cfg r t = r.
Proof. unfold Batched.step. by destruct (Batched.status r). Qed.

Lemma finishIfConsumed_stream (r : Batched.Run) :
  ∃ q, Batched.emitted (Batched.finishIfConsumed r) = Batched.emitted r ++ q
       ∧ Forall (λ e, quiet e = true) q.
Proof.
  unfold Batched.finishIfConsumed.
  destruct (Batched.status r);
    try (exists []; by rewrite app_nil_r).
  case_match.
  - exists [Batched.task_complete]. split; [done | by repeat constructor].
  - exists []. by rewrite app_nil_r.
Qed.

(** What one Batched iteration adds to the channel, and where it leaves
    the index. *)
Lemma step_stream (cfg : AnomalyMonitor.Thresholds) (r : Batched.Run)
    (t : Batched.Turn) :
  ∃ q1 q2 moved,
    Batched.emitted (Batched.step cfg r t)
    = Batched.emitted r
        ++ q1
        ++ (if moved : bool
            then [Batched.step_complete (S (Batched.index r))] else [])
        ++ q2
    ∧ Forall (λ e, quiet e = true) q1 ∧ Forall (λ e, quiet e = true) q2
    ∧ Batched.index (Batched.step cfg r t)
      = (if moved then S (Batched.index r) else Batched.index r).
Proof.
  assert (Hquiet : ∀ q, Forall (λ e, quiet e = true) q →
            ∃ q1 q2 moved,
              Batched.emitted r ++ q
              = Batched.emitted r
                  ++ q1
                  ++ (if moved : bool
                      then [Batched.step_complete (S (Batched.index r))]
                      else [])
                  ++ q2
              ∧ Forall (λ e, quiet e = true) q1
              ∧ Forall (λ e, quiet e = true) q2
              ∧ Batched.index r
                = (if moved then S (Batched.index r) else Batched.index r)).
  { intros q Hq. exists q, [], false. by rewrite !app_nil_r. }
  unfold Batched.step.
  destruct (Batched.status r) eqn:Hst;
    try (exists [], [], false; by rewrite !app_nil_r).
  destruct (Batched.sequence r !! Batched.index r) as [a|] eqn:Ha.
  2:{ destruct (finishIfConsumed_stream r) as (q & Hq & Hall).
      destruct (BatchedTheory.finishIfConsumed_fields r) as (_ & -> & _).
      rewrite Hq. by apply Hquiet. }
  destruct (Batched.needsGeneration a && Batched.cancelledBeforeHumanize t).
  { simpl. apply Hquiet. by repeat constructor. }
  destruct (Batched.cancelledBeforeExecute t).
  { simpl. apply Hquiet. by repeat constructor. }
  destruct (AnomalyMonitor.observe cfg (Batched.anomaly r)
              (Batched.observationOf a t)) as [anomaly' [ctx|]].
  - destruct (0 <? Batched.replanBudget r).
    + destruct (Batched.cancelledBeforeReplan t).
      * simpl. rewrite <- app_assoc. apply Hquiet. by repeat constructor.
      * match goal with
        | |- context [Batched.finishIfConsumed ?x] => set (r' := x)
        end.
        destruct (finishIfConsumed_stream r') as (q & Hq & Hall).
        destruct (BatchedTheory.finishIfConsumed_fields r') as (_ & -> & _).
        rewrite Hq. subst r'. simpl. rewrite <- app_assoc.
        apply Hquiet. by repeat constructor.
    + simpl. apply Hquiet. by repeat constructor.
  - match goal with
    | |- context [Batched.finishIfConsumed ?x] => set (r' := x)
    end.
    destruct (finishIfConsumed_stream r') as (q & Hq & Hall).
    destruct (BatchedTheory.finishIfConsumed_fields r') as (_ & -> & _).
    rewrite Hq. subst r'. simpl.
    exists [Batched.action_start (Batched.action a) (Batched.target a);
            Batched.action_result (Batched.action a) (Batched.target a)
              (Batched.outcomeSuccess t)], q, true.
    rewrite <- !app_assoc. simpl.
    split; [done|]. split; [by repeat constructor | done].
Qed.

Lemma runBatched_snoc (cfg : AnomalyMonitor.Thresholds) (o : BatchOpening)
    (l : list BatchRound) (b : BatchRound) :
  runBatched cfg o (l ++ [b]) = stepBatched cfg (runBatched cfg o l) b.
Proof. unfold runBatched. by rewrite fold_left_app. Qed.

Lemma startBatched_ok (o : BatchOpening) :
  Batched.bounded (startBatched o) ∧ Batched.settled (startBatched o).
Proof.
  unfold startBatched. destruct (stopBeforePlanBatch o).
  { split; [by unfold Batched.bounded, Batched.MAX_REPLANS|].
    by apply BatchedTheory.cancel_settled. }
  destruct (planBatchReturns o) as [planned|f [|]].
  - apply BatchedTheory.start_ok.
  - split; [by unfold Batched.bounded, Batched.MAX_REPLANS|].
    by apply BatchedTheory.cancel_settled.
  - split; [by unfold Batched.bounded, Batched.MAX_REPLANS|].
    unfold Batched.settled. simpl. by exists (Batched.error (faultMessage f)).
Qed.

Lemma runBatched_ok (cfg : AnomalyMonitor.Thresholds) (o : BatchOpening)
    (l : list BatchRound) :
  Batched.bounded (runBatched cfg o l) ∧ Batched.settled (runBatched cfg o l).
Proof.
  induction l as [|b l IH] using rev_ind; [apply startBatched_ok|].
  rewrite runBatched_snoc. destruct IH as [Hb Hs].
  by destruct (BatchedTheory.step_ok cfg _ (asTurn (runBatched cfg o l) b)
                 Hb Hs) as (? & ? & _).
Qed.

Lemma startBatched_tracks (o : BatchOpening) :
  tracks (Batched.emitted (startBatched o)) (Batched.index (startBatched o)).
Proof.
  unfold startBatched. destruct (stopBeforePlanBatch o); [done|].
  destruct (planBatchReturns o) as [planned|f [|]]; [|done|done].
  unfold Batched.start.
  match goal with
  | |- context [Batched.finishIfConsumed ?x] => set (r' := x)
  end.
  destruct (finishIfConsumed_stream r') as (q & -> & Hall).
  destruct (BatchedTheory.finishIfConsumed_fields r') as (_ & -> & _).
  by apply tracks_quiet.
Qed.

Lemma runBatched_tracks (cfg : AnomalyMonitor.Thresholds) (o : BatchOpening)
    (l : list BatchRound) :
  tracks (Batched.emitted (runBatched cfg o l))
    (Batched.index (runBatched cfg o l)).
Proof.
  induction l as [|b l IH] using rev_ind; [apply startBatched_tracks|].
  rewrite runBatched_snoc. unfold stepBatched.
  destruct (step_stream cfg (runBatched cfg o l)
              (asTurn (runBatched cfg o l) b))
    as (q1 & q2 & moved & -> & H1 & H2 & ->).
  by apply tracks_extend.
Qed.

(** The plan of a Batched run is shown once, at the start; what the
    consumer holds as [totalSteps] is the length of that first sequence. *)
Lemma runBatched_totalSteps (cfg : AnomalyMonitor.Thresholds)
    (o : BatchOpening) (l : list BatchRound) :
  DualModel.totalSteps (shown (Batched.emitted (runBatched cfg o l)))
  = if stopBeforePlanBatch o then 0
    else match planBatchReturns o with
         | returned planned => Z.of_nat (length (Batched.steps planned))
         | raised _ _ => 0
         end.
Proof.
  induction l as [|b l IH] using rev_ind.
  - unfold runBatched, startBatched. simpl.
    destruct (stopBeforePlanBatch o); [done|].
    destruct (planBatchReturns o) as [planned|f [|]]; [|done|done].
    unfold Batched.start.
    match goal with
    | |- context [Batched.finishIfConsumed ?x] => set (r' := x)
    end.
    destruct (finishIfConsumed_stream r') as (q & -> & Hall).
    rewrite shown_app.
    by destruct (handleAll_quiet q Hall (shown (Batched.emitted r')) 0 0)
      as (_ & _ & ->).
  - rewrite runBatched_snoc. unfold stepBatched.
    destruct (step_stream cfg (runBatched cfg o l)
                (asTurn (runBatched cfg o l) b))
      as (q1 & q2 & moved & -> & H1 & H2 & _).
    by rewrite totalSteps_extend.
Qed.

Lemma step_sequence (cfg : AnomalyMonitor.Thresholds) (r : Batched.Run)
    (t : Batched.Turn) :
  Batched.replansUsed (Batched.step cfg r t) = Batched.replansUsed r →
  Batched.sequence (Batched.step cfg r t) = Batched.sequence r.
Proof.
  unfold Batched.step.
  destruct (Batched.status r); try done.
  destruct (Batched.sequence r !! Batched.index r) as [a|].
  2:{ by destruct (BatchedTheory.finishIfConsumed_fields r) as (-> & _). }
  destruct (Batched.needsGeneration a && Batched.cancelledBeforeHumanize t);
    [done|].
  destruct (Batched.cancelledBeforeExecute t); [done|].
  destruct (AnomalyMonitor.observe cfg (Batched.anomaly r)
              (Batched.observationOf a t)) as [anomaly' [ctx|]].
  - destruct (0 <? Batched.replanBudget r); [|done].
    destruct (Batched.cancelledBeforeReplan t); [done|].
    match goal with
    | |- context [Batched.finishIfConsumed ?x] => set (r' := x)
    end.
    destruct (BatchedTheory.finishIfConsumed_fields r')
      as (_ & _ & _ & ->).
    subst r'. simpl. lia.
  - match goal with
    | |- context [Batched.finishIfConsumed ?x] => set (r' := x)
    end.
    by destruct (BatchedTheory.finishIfConsumed_fields r') as (-> & _).
Qed.

(** Until the first re-plan the sequence is the one [planBatch] gave. *)
Lemma runBatched_first_sequence (cfg : AnomalyMonitor.Thresholds)
    (o : BatchOpening) (l : list BatchRound)
    (planned : Batched.ActionSequence) :
  stopBeforePlanBatch o = false → planBatchReturns o = returned planned →
  Batched.replansUsed (runBatched cfg o l) = 0%nat →
  Batched.sequence (runBatched cfg o l) = Batched.steps planned.
Proof.
  intros Hstop Hplan.
  induction l as [|b l IH] using rev_ind.
  - intros _. unfold runBatched, startBatched. simpl. rewrite Hstop, Hplan.
    unfold Batched.start.
    match goal with
    | |- context [Batched.finishIfConsumed ?x] => set (r' := x)
    end.
    by destruct (BatchedTheory.finishIfConsumed_fields r') as (-> & _).
  - rewrite runBatched_snoc. unfold stepBatched.
    set (r := runBatched cfg o l) in *. set (t := asTurn r b).
    destruct (runBatched_ok cfg o l) as [Hb Hs]. fold r in Hb, Hs.
    destruct (BatchedTheory.step_ok cfg r t Hb Hs)
      as (_ & _ & _ & [Hsame|[Hmore _]]); [|lia].
    intros Hused. rewrite (step_sequence cfg r t Hsame).
    apply IH. lia.
Qed.

(** A run that is over at its start stays as it is. *)
Lemma runBatched_over (cfg : AnomalyMonitor.Thresholds) (o : BatchOpening)
    (l : list BatchRound) :
  Batched.status (startBatched o) ≠ Batched.Running →
  runBatched cfg o l = startBatched o.
Proof.
  intros Hst. induction l as [|b l IH] using rev_ind; [done|].
  rewrite runBatched_snoc, IH. unfold stepBatched. by apply step_over.
Qed.

(** Until the first re-plan the consumer's step is within the total it
    shows. *)
Lemma runBatched_within_plan (cfg : AnomalyMonitor.Thresholds)
    (o : BatchOpening) (l : list BatchRound) :
  Batched.replansUsed (runBatched cfg o l) = 0%nat →
  DualModel.currentStep (shown (Batched.emitted (runBatched cfg o l)))
  ≤ DualModel.totalSteps (shown (Batched.emitted (runBatched cfg o l))).
Proof.
  intros Hused. pose proof (runBatched_over cfg o l) as Hover.
  destruct (runBatched_tracks cfg o l) as [_ Hcur].
  destruct (runBatched_ok cfg o l) as [(_ & _ & Hidx) _].
  pose proof (runBatched_totalSteps cfg o l) as Htot.
  destruct (stopBeforePlanBatch o) eqn:Hstop.
  { rewrite Hover by (unfold startBatched; by rewrite Hstop).
    unfold startBatched. by rewrite Hstop. }
  destruct (planBatchReturns o) as [planned|f c] eqn:Hplan.
  - rewrite Htot, Hcur,
      <- (runBatched_first_sequence cfg o l planned Hstop Hplan Hused).
    lia.
  - rewrite Hover
      by (unfold startBatched; rewrite Hstop, Hplan; by destruct c).
    unfold startBatched. rewrite Hstop, Hplan. by destruct c.
Qed.

(** *** Every Batched run ends *)

Lemma asTurn_replanned (longest : nat) (r : Batched.Run) (b : BatchRound) :
  replansWithin longest b →
  (length (Batched.replanned (asTurn r b)) ≤ longest)%nat
  ∨ Batched.replanned (asTurn r b)
    = drop (Batched.index r) (Batched.sequence r).
Proof.
  unfold replansWithin, asTurn. simpl.
  destruct (replanReturns b); [by left | by right].
Qed.

(** An iteration that leaves the run going has less left to do. *)
Lemma step_workLeft (cfg : AnomalyMonitor.Thresholds) (longest : nat)
    (r : Batched.Run) (t : Batched.Turn) :
  Batched.bounded r → Batched.settled r →
  Batched.status r = Batched.Running →
  Batched.status (Batched.step cfg r t) = Batched.Running →
  (length (Batched.replanned t) ≤ longest)%nat
  ∨ Batched.replanned t = drop (Batched.index r) (Batched.sequence r) →
  (workLeft longest (Batched.step cfg r t) < workLeft longest r)%nat.
Proof.
  intros (Hb0 & _ & Hidx) Hs Hrun. unfold Batched.settled in Hs.
  rewrite Hrun in Hs. destruct Hs as [_ Hlt].
  unfold workLeft, Batched.step. rewrite Hrun.
  destruct (Batched.sequence r !! Batched.index r) as [a|] eqn:Ha.
  2:{ apply lookup_ge_None in Ha. lia. }
  destruct (Batched.needsGeneration a && Batched.cancelledBeforeHumanize t);
    [done|].
  destruct (Batched.cancelledBeforeExecute t); [done|].
  destruct (AnomalyMonitor.observe cfg (Batched.anomaly r)
              (Batched.observationOf a t)) as [anomaly' [ctx|]].
  - destruct (Z.ltb_spec 0 (Batched.replanBudget r)) as [Hpos|]; [|done].
    destruct (Batched.cancelledBeforeReplan t); [done|].
    match goal with
    | |- context [Batched.finishIfConsumed ?x] => set (r' := x)
    end.
    destruct (BatchedTheory.finishIfConsumed_fields r')
      as (-> & -> & -> & _).
    subst r'. simpl. intros _ Hre.
    rewrite length_app, length_take.
    assert (Hbudget : Z.to_nat (Batched.replanBudget r)
                      = S (Z.to_nat (Batched.replanBudget r - 1))) by lia.
    rewrite Hbudget. simpl.
    destruct Hre as [Hre|Hre].
    + lia.
    + rewrite Hre, length_drop. lia.
  - match goal with
    | |- context [Batched.finishIfConsumed ?x] => set (r' := x)
    end.
    destruct (BatchedTheory.finishIfConsumed_fields r')
      as (-> & -> & -> & _).
    subst r'. simpl. lia.
Qed.

Lemma startBatched_workLeft (longest : nat) (o : BatchOpening) :
  (workLeft longest (startBatched o)
   ≤ match planBatchReturns o with
     | returned planned => length (Batched.steps planned)
     | raised _ _ => 0
     end + 3 * S longest)%nat.
Proof.
  unfold startBatched, workLeft.
  destruct (stopBeforePlanBatch o); [simpl; lia|].
  destruct (planBatchReturns o) as [planned|f [|]]; [|simpl; lia|simpl; lia].
  unfold Batched.start.
  match goal with
  | |- context [Batched.finishIfConsumed ?x] => set (r' := x)
  end.
  destruct (BatchedTheory.finishIfConsumed_fields r') as (-> & -> & -> & _).
  subst r'. simpl. lia.
Qed.

Lemma runBatched_workLeft (cfg : AnomalyMonitor.Thresholds) (longest : nat)
    (o : BatchOpening) (l : list BatchRound) :
  Forall (replansWithin longest) l →
  Batched.status (runBatched cfg o l) = Batched.Running →
  (length l + workLeft longest (runBatched cfg o l)
   ≤ workLeft longest (startBatched o))%nat.
Proof.
  induction l as [|b l IH] using rev_ind;
    [intros _ _; apply Nat.le_refl|].
  intros Hall Hrun. apply Forall_app in Hall as [Hl Hb].
  apply Forall_inv in Hb.
  rewrite runBatched_snoc in Hrun |- *. unfold stepBatched in *.
  set (r := runBatched cfg o l) in *.
  destruct (runBatched_ok cfg o l) as [Hbd Hs]. fold r in Hbd, Hs.
  assert (Hr : Batched.status r = Batched.Running).
  { destruct (Batched.status r) eqn:Hst; [done| | |];
      rewrite step_over in Hrun by congruence; congruence. }
  pose proof (step_workLeft cfg longest r (asTurn r b) Hbd Hs Hr Hrun
                (asTurn_replanned longest r b Hb)) as Hless.
  specialize (IH Hl Hr). rewrite length_app. simpl. lia.
Qed.

(** A Batched run whose re-plans are at most [longest] steps long is over
    after as many iterations as the first sequence has steps, and
    [longest] + 1 more for each of the three re-plans. *)
Lemma runBatched_ends (cfg : AnomalyMonitor.Thresholds) (longest : nat)
    (o : BatchOpening) (l : list BatchRound) :
  Forall (replansWithin longest) l →
  (match planBatchReturns o with
   | returned planned => length (Batched.steps planned)
   | raised _ _ => 0
   end + 3 * S longest ≤ length l)%nat →
  Batched.status (runBatched cfg o l) ≠ Batched.Running.
Proof.
  intros Hall Hlen Hrun.
  pose proof (runBatched_workLeft cfg longest o l Hall Hrun) as Hwork.
  pose proof (startBatched_workLeft longest o) as Hstart.
  destruct (runBatched_ok cfg o l) as [_ Hs].
  unfold Batched.settled in Hs. rewrite Hrun in Hs. destruct Hs as [_ Hlt].
  unfold workLeft in Hwork at 1. lia.
Qed.

(** *** The Deliberate/Responsive strategy *)

Lemma round_over (cfg : Settings) (r : Loop) (t : Round) :
  status r ≠ Batched.Running → round cfg r t = r.
Proof. unfold round. by destruct (status r). Qed.

Lemma thinking_passing (chunks : list string) :
  Forall passing (map Batched.decision_thinking chunks).
Proof. apply List.Forall_map, Forall_forall. by intros. Qed.

(** What one iteration of the loop adds to the channel and how it leaves
    the run: events of the decision, the perception and the action, then
    [step_complete] with the next step count if the action was executed,
    then the terminal event if the run ends here. *)
Local Ltac shape :=
  unfold fatal; unfold cancel, emit, stopIfExceeded;
  cbn [emitted stepCount status endOf];
  rewrite <- ?app_assoc; cbn [app];
  repeat match goal with |- _ ∧ _ => split end; (done || lia).

Lemma round_shape (cfg : Settings) (r : Loop) (t : Round) :
  status r = Batched.Running →
  ∃ q (moved : bool) ending,
    emitted (round cfg r t)
    = emitted r
        ++ q
        ++ (if moved then [Batched.step_complete (S (stepCount r))] else [])
        ++ endOf ending
    ∧ Forall passing q
    ∧ stepCount (round cfg r t)
      = (if moved then S (stepCount r) else stepCount r)
    ∧ match ending with
      | Some e =>
          Batched.endsIn (status (round cfg r t)) e
          ∧ Batched.isTerminal e = true
          ∧ status (round cfg r t) ≠ Batched.Running
      | None =>
          status (round cfg r t) = Batched.Running ∧ moved = true
          ∧ (S (stepCount r) < maxSteps cfg)%nat
      end.
Proof.
  intros Hrun. unfold round. rewrite Hrun.
  destruct (cancelledBeforeDecide t).
  { by exists [], false, (Some (Batched.aborted "aborted")). }
  destruct (decided t (history r) (pending r)) as [[chunks d]|f c].
  2:{ destruct c;
        [exists [], false, (Some (Batched.aborted "aborted"))
        |exists [], false, (Some (Batched.error (faultMessage f)))];
        shape. }
  set (ev1 := [Batched.decision_start (decisionStage cfg)]
                ++ map Batched.decision_thinking chunks
                ++ [Batched.decision_result (action d) (target d)]).
  assert (H1 : Forall passing ev1).
  { subst ev1. apply Forall_app. split; [by repeat constructor|].
    apply Forall_app. split; [apply thinking_passing|by repeat constructor]. }
  destruct (cancelledBeforeRecognize t).
  { exists ev1, false, (Some (Batched.aborted "aborted")).
    shape. }
  destruct (recognized t) as [description|f c].
  2:{ destruct c;
        [exists ev1, false, (Some (Batched.aborted "aborted"))
        |exists ev1, false, (Some (Batched.error (faultMessage f)))];
        shape. }
  set (ev2 := [Batched.vision_start (visionStage cfg);
               Batched.vision_recognition description]).
  assert (H2 : Forall passing (ev1 ++ ev2)).
  { apply Forall_app. split; [done | by repeat constructor]. }
  destruct (cancelledBeforeExecute t).
  { exists (ev1 ++ ev2), false, (Some (Batched.aborted "aborted")).
    shape. }
  destruct (executed t) as [[fingerprint success]|f c].
  2:{ destruct c;
        [exists (ev1 ++ ev2), false, (Some (Batched.aborted "aborted"))
        |exists (ev1 ++ ev2), false, (Some (Batched.error (faultMessage f)))];
        shape. }
  destruct (cancelledDuringExecute t).
  { exists (ev1 ++ ev2), false, (Some (Batched.aborted "aborted")).
    shape. }
  destruct (AnomalyMonitor.observe _ _ _) as [anomaly' context].
  set (ev3 := [Batched.action_start (action d) (target d);
               Batched.action_result (action d) (target d) success]).
  assert (H3 : Forall passing (ev1 ++ ev2 ++ ev3)).
  { rewrite app_assoc. apply Forall_app.
    split; [done | by repeat constructor]. }
  destruct (completion d).
  { exists (ev1 ++ ev2 ++ ev3), true, (Some Batched.task_complete).
    shape. }
  unfold stopIfExceeded. cbn [status stepCount].
  destruct (Nat.leb_spec (maxSteps cfg) (S (stepCount r))).
  - exists (ev1 ++ ev2 ++ ev3), true,
      (Some (Batched.error "step budget exceeded")).
    shape.
  - exists (ev1 ++ ev2 ++ ev3), true, None.
    shape.
Qed.

Lemma passing_quiet (q : list Batched.Event) :
  Forall passing q →
  Forall (λ e, quiet e = true) q ∧ List.filter Batched.isTerminal q = [].
Proof.
  induction 1 as [|e q [Hq Ht] _ [IH1 IH2]]; [done|].
  split; [by constructor|]. simpl. by rewrite Ht.
Qed.

Lemma endOf_quiet (ending : option Batched.Event) :
  match ending with
  | Some e => Batched.isTerminal e = true
  | None => True
  end →
  Forall (λ e, quiet e = true) (endOf ending).
Proof.
  destruct ending as [e|]; [|done].
  intros He. constructor; [|done]. by destruct e.
Qed.

Lemma round_ok (cfg : Settings) (r : Loop) (t : Round) :
  settled cfg r → settled cfg (round cfg r t).
Proof.
  intros Hs. destruct (status r) eqn:Hst.
  2-4: by rewrite round_over by congruence.
  unfold settled in Hs. rewrite Hst in Hs. destruct Hs as [Hterm Hlt].
  destruct (round_shape cfg r t Hst) as (q & moved & ending & He & Hq & Hc & Hend).
  apply passing_quiet in Hq as [_ Hq].
  unfold settled. rewrite He, Hc.
  rewrite !List.filter_app, Hterm, Hq.
  assert (Hm : List.filter Batched.isTerminal
                 (if moved then [Batched.step_complete (S (stepCount r))]
                  else []) = []) by (by destruct moved).
  rewrite Hm. simpl.
  destruct ending as [e|].
  - destruct Hend as (Hin & Hte & Hno). simpl. rewrite Hte.
    assert (Hlast : last (emitted r ++ q
                            ++ (if moved
                                then [Batched.step_complete (S (stepCount r))]
                                else [])
                            ++ [e]) = Some e).
    { rewrite !app_assoc. apply last_snoc. }
    destruct (status (round cfg r t)); [done| | |]; by exists e.
  - destruct Hend as (-> & -> & Hlt'). done.
Qed.

Lemma round_tracks (cfg : Settings) (r : Loop) (t : Round) :
  tracks (emitted r) (stepCount r) →
  tracks (emitted (round cfg r t)) (stepCount (round cfg r t)).
Proof.
  intros Ht. destruct (status r) eqn:Hst.
  2-4: by rewrite round_over by congruence.
  destruct (round_shape cfg r t Hst) as (q & moved & ending & -> & Hq & -> & Hend).
  apply passing_quiet in Hq as [Hq _].
  apply tracks_extend; [done | done |].
  apply endOf_quiet. destruct ending; [by destruct Hend as (_ & ? & _) | done].
Qed.

Lemma stopIfExceeded_idle (cfg : Settings) (l : list Batched.Event) :
  Forall passing l ∨ (∃ steps n, l = [Batched.plan steps n]) →
  let r := stopIfExceeded cfg (emit l Batched.Running idleLoop) in
  settled cfg r ∧ tracks (emitted r) (stepCount r)
  ∧ stepCount r = 0%nat.
Proof.
  intros Hl. unfold stopIfExceeded. simpl.
  assert (Hterm : List.filter Batched.isTerminal l = []).
  { destruct Hl as [Hl|(steps & n & ->)]; [|done].
    by apply passing_quiet in Hl as [_ ?]. }
  assert (Htr : tracks l 0).
  { destruct Hl as [Hl|(steps & n & ->)]; [|done].
    apply passing_quiet in Hl as [Hl _].
    by apply (tracks_quiet [] l 0). }
  destruct (Nat.leb_spec (maxSteps cfg) 0).
  - split; [|split; [|done]].
    + unfold settled. simpl.
      exists (Batched.error "step budget exceeded").
      rewrite List.filter_app, Hterm. split; [done|]. split; [done|].
      apply last_snoc.
    + simpl. apply tracks_quiet; [done | by repeat constructor].
  - split; [|done]. unfold settled. simpl. split; [done | lia].
Qed.

Lemma startLoop_ok (cfg : Settings) (o : Opening) :
  settled cfg (startLoop cfg o)
  ∧ tracks (emitted (startLoop cfg o)) (stepCount (startLoop cfg o))
  ∧ stepCount (startLoop cfg o) = 0%nat.
Proof.
  unfold startLoop. destruct (planned o) as [answer|].
  2:{ apply (stopIfExceeded_idle cfg []). by left. }
  destruct (cancelledBeforePlan o).
  { split; [|done]. unfold settled. simpl.
    by exists (Batched.aborted "aborted"). }
  destruct answer as [p|f [|]].
  - apply (stopIfExceeded_idle cfg). right. by eexists _, _.
  - split; [|done]. unfold settled. simpl.
    by exists (Batched.aborted "aborted").
  - split; [|done]. unfold settled. simpl.
    by exists (Batched.error (faultMessage f)).
Qed.

Lemma runLoop_snoc (cfg : Settings) (o : Opening) (l : list Round)
    (t : Round) :
  runLoop cfg o (l ++ [t]) = round cfg (runLoop cfg o l) t.
Proof. unfold runLoop. by rewrite fold_left_app. Qed.

Lemma runLoop_ok (cfg : Settings) (o : Opening) (l : list Round) :
  settled cfg (runLoop cfg o l)
  ∧ tracks (emitted (runLoop cfg o l)) (stepCount (runLoop cfg o l)).
Proof.
  induction l as [|t l [IH1 IH2]] using rev_ind.
  - by destruct (startLoop_ok cfg o) as (? & ? & _).
  - rewrite runLoop_snoc. split; [by apply round_ok | by apply round_tracks].
Qed.

(** A loop that is still going has executed one step in every iteration. *)
Lemma runLoop_counts (cfg : Settings) (o : Opening) (l : list Round) :
  status (runLoop cfg o l) = Batched.Running →
  stepCount (runLoop cfg o l) = length l.
Proof.
  induction l as [|t l IH] using rev_ind.
  - intros _. by destruct (startLoop_ok cfg o) as (_ & _ & ?).
  - rewrite runLoop_snoc. intros Hrun.
    assert (Hr : status (runLoop cfg o l) = Batched.Running).
    { destruct (status (runLoop cfg o l)) eqn:Hst; [done| | |];
        rewrite round_over in Hrun by congruence; congruence. }
    destruct (round_shape cfg (runLoop cfg o l) t Hr)
      as (q & moved & ending & _ & _ & Hc & Hend).
    destruct ending as [e|]; [by destruct Hend as (_ & _ & ?)|].
    destruct Hend as (_ & -> & _).
    rewrite Hc, (IH Hr), length_app. simpl. lia.
Qed.

(** A Deliberate or Responsive run is over after as many iterations as
    the maximum step count. *)
Lemma runLoop_ends (cfg : Settings) (o : Opening) (l : list Round) :
  (maxSteps cfg ≤ length l)%nat →
  status (runLoop cfg o l) ≠ Batched.Running.
Proof.
  intros Hlen Hrun.
  pose proof (runLoop_counts cfg o l Hrun) as Hc.
  destruct (runLoop_ok cfg o l) as [Hs _].
  unfold settled in Hs. rewrite Hrun in Hs. lia.
Qed.

(** The step count of a loop never goes down and stays within the
    maximum. *)
Lemma round_stepCount (cfg : Settings) (r : Loop) (t : Round) :
  settled cfg r → (stepCount r ≤ maxSteps cfg)%nat →
  (stepCount r ≤ stepCount (round cfg r t))%nat
  ∧ (stepCount (round cfg r t) ≤ maxSteps cfg)%nat.
Proof.
  intros Hs Hle. destruct (status r) eqn:Hst.
  2-4: by rewrite round_over by congruence.
  unfold settled in Hs. rewrite Hst in Hs. destruct Hs as [_ Hlt].
  destruct (round_shape cfg r t Hst) as (q & moved & ending & _ & _ & -> & _).
  destruct moved; lia.
Qed.

Lemma runLoop_within (cfg : Settings) (o : Opening) (l : list Round) :
  (stepCount (runLoop cfg o l) ≤ maxSteps cfg)%nat.
Proof.
  induction l as [|t l IH] using rev_ind.
  - destruct (startLoop_ok cfg o) as (_ & _ & Hz).
    unfold runLoop. simpl. rewrite Hz. lia.
  - rewrite runLoop_snoc.
    destruct (runLoop_ok cfg o l) as [Hs _].
    by destruct (round_stepCount cfg (runLoop cfg o l) t Hs IH).
Qed.

(** *** Which failure ends a run with which event *)

(** The ways an iteration of the Deliberate/Responsive loop ends the run:
    cancelled when a flag was read as set, before a call or when a call
    raised; failed with the message of the error a call raised or with
    "step budget exceeded"; done when the Decision signalled completion. *)
Lemma round_causes (cfg : Settings) (r : Loop) (t : Round) :
  status r = Batched.Running →
  let r' := round cfg r t in
  (status r' = Batched.Cancelled →
     last (emitted r') = Some (Batched.aborted "aborted")
     ∧ (cancelledBeforeDecide t = true ∨ cancelledBeforeRecognize t = true
        ∨ cancelledBeforeExecute t = true ∨ cancelledDuringExecute t = true
        ∨ ∃ f, decided t (history r) (pending r) = raised f true
               ∨ recognized t = raised f true ∨ executed t = raised f true))
  ∧ (status r' = Batched.Failed →
     (last (emitted r') = Some (Batched.error "step budget exceeded")
      ∧ stepCount r' = S (stepCount r)
      ∧ (maxSteps cfg ≤ stepCount r')%nat)
     ∨ ∃ f, last (emitted r') = Some (Batched.error (faultMessage f))
            ∧ (decided t (history r) (pending r) = raised f false
               ∨ recognized t = raised f false ∨ executed t = raised f false))
  ∧ (status r' = Batched.Done →
     last (emitted r') = Some Batched.task_complete
     ∧ stepCount r' = S (stepCount r)
     ∧ ∃ chunks d, decided t (history r) (pending r) = returned (chunks, d)
                   ∧ completion d = true).
Proof.
  intros Hrun. unfold round. rewrite Hrun.
  destruct (cancelledBeforeDecide t) eqn:Hc1.
  { simpl. rewrite last_snoc. repeat split; (done || auto). }
  destruct (decided t (history r) (pending r)) as [[chunks d]|f c] eqn:Hd.
  2:{ destruct c; simpl; rewrite last_snoc; repeat split; try done.
      - right. right. right. right. exists f. auto.
      - intros _. right. exists f. auto. }
  destruct (cancelledBeforeRecognize t) eqn:Hc2.
  { simpl. rewrite last_snoc. repeat split; (done || auto). }
  destruct (recognized t) as [description|f c] eqn:Hr.
  2:{ destruct c; simpl; rewrite last_snoc; repeat split; try done.
      - right. right. right. right. exists f. auto.
      - intros _. right. exists f. auto. }
  destruct (cancelledBeforeExecute t) eqn:Hc3.
  { simpl. rewrite last_snoc. repeat split; (done || auto). }
  destruct (executed t) as [[fingerprint success]|f c] eqn:He.
  2:{ destruct c; simpl; rewrite last_snoc; repeat split; try done.
      - right. right. right. right. exists f. auto.
      - intros _. right. exists f. auto. }
  destruct (cancelledDuringExecute t) eqn:Hc4.
  { simpl. rewrite last_snoc. repeat split; (done || auto). }
  destruct (AnomalyMonitor.observe _ _ _) as [anomaly' context].
  destruct (completion d) eqn:Hdone.
  { simpl. rewrite last_snoc. repeat split; try done. by exists chunks, d. }
  unfold stopIfExceeded. cbn [status stepCount].
  destruct (Nat.leb_spec (maxSteps cfg) (S (stepCount r))).
  - simpl. rewrite last_snoc. repeat split; try done. intros _. by left.
  - simpl. repeat split; done.
Qed.

(** In Deliberate and Responsive mode an error raised by [decide],
    [recognize] or [execute] ends the run: with an error event that
    carries its message, or with [aborted] when the run was cancelled
    meanwhile. *)
Lemma round_fault (cfg : Settings) (r : Loop) (t : Round) (f : Fault)
    (cancelledMeanwhile : bool) :
  status r = Batched.Running →
  let r' := round cfg r t in
  let ended :=
    if cancelledMeanwhile
    then status r' = Batched.Cancelled
         ∧ last (emitted r') = Some (Batched.aborted "aborted")
    else status r' = Batched.Failed
         ∧ last (emitted r') = Some (Batched.error (faultMessage f)) in
  cancelledBeforeDecide t = false →
  (decided t (history r) (pending r) = raised f cancelledMeanwhile → ended)
  ∧ (∀ thought, decided t (history r) (pending r) = returned thought →
     cancelledBeforeRecognize t = false →
     (recognized t = raised f cancelledMeanwhile → ended)
     ∧ (∀ description, recognized t = returned description →
        cancelledBeforeExecute t = false →
        executed t = raised f cancelledMeanwhile → ended)).
Proof.
  intros Hrun r' ended Hc1. subst r' ended. unfold round. rewrite Hrun, Hc1.
  split.
  { intros ->. destruct cancelledMeanwhile; simpl; by rewrite last_snoc. }
  intros [chunks d] -> ->. split.
  { intros ->. destruct cancelledMeanwhile; simpl; by rewrite last_snoc. }
  intros description -> -> ->.
  destruct cancelledMeanwhile; simpl; by rewrite last_snoc.
Qed.

(** The ways an iteration of the Batched loop ends the run: cancelled
    when a flag was read as set, failed with "recovery exhausted" when the
    budget was used up, done when the sequence is consumed. *)
Lemma stepBatched_causes (cfg : AnomalyMonitor.Thresholds) (r : Batched.Run)
    (b : BatchRound) :
  Batched.status r = Batched.Running →
  let r' := stepBatched cfg r b in
  (Batched.status r' = Batched.Cancelled →
     last (Batched.emitted r') = Some (Batched.aborted "aborted")
     ∧ stopObserved b = true)
  ∧ (Batched.status r' = Batched.Failed →
     last (Batched.emitted r') = Some (Batched.error "recovery exhausted")
     ∧ Batched.replanBudget r ≤ 0)
  ∧ (Batched.status r' = Batched.Done →
     last (Batched.emitted r') = Some Batched.task_complete
     ∧ (length (Batched.sequence r') ≤ Batched.index r')%nat).
Proof.
  intros Hrun.
  assert (Hfinish : ∀ x, Batched.status x = Batched.Running →
            let x' := Batched.finishIfConsumed x in
            Batched.status x' ≠ Batched.Cancelled
            ∧ Batched.status x' ≠ Batched.Failed
            ∧ (Batched.status x' = Batched.Done →
               last (Batched.emitted x') = Some Batched.task_complete
               ∧ (length (Batched.sequence x') ≤ Batched.index x')%nat)).
  { intros x Hx. unfold Batched.finishIfConsumed. rewrite Hx.
    destruct (Nat.leb_spec (length (Batched.sequence x)) (Batched.index x)).
    - simpl. by rewrite last_snoc.
    - by rewrite Hx. }
  assert (Hh' : Batched.cancelledBeforeHumanize (asTurn r b) = true →
                stopObserved b = true).
  { unfold asTurn, stopObserved. simpl. intros ->. done. }
  assert (He' : Batched.cancelledBeforeExecute (asTurn r b) = true →
                stopObserved b = true).
  { unfold asTurn, stopObserved. simpl.
    intros [_ He]%andb_true_iff. 
    apply orb_true_iff in He as [He| ->]; [|by rewrite !orb_true_r].
    apply orb_true_iff in He as [-> | ->]; by rewrite !orb_true_r. }
  assert (Hre' : Batched.cancelledBeforeReplan (asTurn r b) = true →
                 stopObserved b = true).
  { unfold asTurn, stopObserved. simpl.
    intros [-> | ->]%orb_true_iff; by rewrite !orb_true_r. }
  unfold stepBatched, Batched.step. rewrite Hrun.
  destruct (Batched.sequence r !! Batched.index r) as [a|] eqn:Ha.
  2:{ destruct (Hfinish r Hrun) as (? & ? & ?).
      split; [by intros|]. split; [by intros | done]. }
  destruct (Batched.needsGeneration a
            && Batched.cancelledBeforeHumanize (asTurn r b)) eqn:Hh.
  { apply andb_true_iff in Hh as [_ Hh].
    simpl. rewrite last_snoc. repeat split; (done || auto). }
  destruct (Batched.cancelledBeforeExecute (asTurn r b)) eqn:He.
  { simpl. rewrite last_snoc. repeat split; (done || auto). }
  destruct (AnomalyMonitor.observe cfg (Batched.anomaly r)
              (Batched.observationOf a (asTurn r b))) as [anomaly' [ctx|]].
  - destruct (Z.ltb_spec 0 (Batched.replanBudget r)).
    + destruct (Batched.cancelledBeforeReplan (asTurn r b)) eqn:Hre.
      * simpl. rewrite last_snoc. repeat split; (done || auto).
      * match goal with
        | |- context [Batched.finishIfConsumed ?x] => set (r' := x)
        end.
        destruct (Hfinish r' eq_refl) as (? & ? & ?).
        split; [by intros|]. split; [by intros | done].
    + simpl. rewrite last_app. by repeat split.
  - match goal with
    | |- context [Batched.finishIfConsumed ?x] => set (r' := x)
    end.
    destruct (Hfinish r' eq_refl) as (? & ? & ?).
    split; [by intros|]. split; [by intros | done].
Qed.

(** In Batched mode an error raised by [humanize] or [execute] is a
    failed step: the channel gets the action's result as a failure and,
    unless the run is cancelled before the re-plan, the detector has
    counted one more consecutive failure. *)
Lemma stepBatched_fault (cfg : AnomalyMonitor.Thresholds) (r : Batched.Run)
    (b : BatchRound) (a : Batched.ActionStep) (f : Fault)
    (cancelledMeanwhile : bool) :
  Batched.status r = Batched.Running →
  Batched.sequence r !! Batched.index r = Some a →
  stopObserved b = false →
  (Batched.needsGeneration a = true
   ∧ humanizeReturns b = raised f cancelledMeanwhile)
  ∨ executeReturns b = raised f cancelledMeanwhile →
  let r' := stepBatched cfg r b in
  (∃ rest,
     Batched.emitted r'
     = Batched.emitted r
         ++ [Batched.action_start (Batched.action a) (Batched.target a);
             Batched.action_result (Batched.action a) (Batched.target a)
               false]
         ++ rest)
  ∧ (Batched.status r' ≠ Batched.Cancelled →
     AnomalyMonitor.consecutive_failures (Batched.anomaly r')
     = S (AnomalyMonitor.consecutive_failures (Batched.anomaly r))).
Proof.
  intros Hrun Ha Hh Hf.
  assert (Hfinish : ∀ x, ∃ rest,
            Batched.emitted (Batched.finishIfConsumed x)
            = Batched.emitted x ++ rest
            ∧ Batched.anomaly (Batched.finishIfConsumed x)
              = Batched.anomaly x).
  { intros x. unfold Batched.finishIfConsumed.
    destruct (Batched.status x); try (exists []; by rewrite app_nil_r).
    case_match; [by eexists | exists []; by rewrite app_nil_r]. }
  assert (Hfail : Batched.cancelledBeforeHumanize (asTurn r b) = false
                  ∧ Batched.cancelledBeforeExecute (asTurn r b) = false
                  ∧ Batched.outcomeSuccess (asTurn r b) = false).
  { unfold stopObserved in Hh.
    repeat (apply orb_false_iff in Hh as [Hh ?]).
    unfold asTurn. simpl. rewrite Ha.
    repeat match goal with H : _ = false |- _ => rewrite H end.
    destruct Hf as [[-> ->]| ->]; simpl;
      [by destruct (executeReturns b)|].
    by rewrite andb_false_r. }
  destruct Hfail as (Hch & Hce & Hout).
  unfold stepBatched, Batched.step. rewrite Hrun, Ha.
  rewrite Hch, andb_false_r, Hce. cbv zeta.
  destruct (AnomalyMonitor.observe cfg (Batched.anomaly r)
              (Batched.observationOf a (asTurn r b)))
    as [anomaly' ctx] eqn:Hobs.
  assert (Hcount : AnomalyMonitor.consecutive_failures anomaly'
                   = S (AnomalyMonitor.consecutive_failures
                          (Batched.anomaly r))).
  { apply (f_equal fst) in Hobs. cbn [fst] in Hobs. subst anomaly'.
    unfold AnomalyMonitor.observe, Batched.observationOf.
    cbn [fst AnomalyMonitor.consecutive_failures
           AnomalyMonitor.outcomeSuccess].
    by rewrite Hout. }
  rewrite Hout.
  destruct ctx as [ctx|].
  - destruct (0 <? Batched.replanBudget r).
    + destruct (Batched.cancelledBeforeReplan (asTurn r b)).
      * simpl. split; [|done].
        exists [Batched.aborted "aborted"]. by rewrite <- app_assoc.
      * match goal with
        | |- context [Batched.finishIfConsumed ?x] => set (r' := x)
        end.
        destruct (Hfinish r') as (rest & -> & ->). subst r'. simpl.
        split; [|done]. exists rest. by rewrite <- app_assoc.
    + simpl. split; [|done].
      by exists [Batched.error "recovery exhausted"].
  - match goal with
    | |- context [Batched.finishIfConsumed ?x] => set (r' := x)
    end.
    destruct (Hfinish r') as (rest & -> & ->). subst r'. simpl.
    split; [|done].
    exists (Batched.step_complete (S (Batched.index r)) :: rest).
    by rewrite <- !app_assoc.
Qed.

(** *** The three modes behind one interface *)

Lemma runTask_tracks (cfg : Settings) (m : Mode) (a : Answers) :
  tracks (events (runTask cfg m a)) (stepIndex (runTask cfg m a)).
Proof.
  destruct m; simpl;
    [apply runLoop_ok | apply runLoop_ok | apply runBatched_tracks].
Qed.

(** A run that is over has emitted exactly one terminal event, the one of
    its outcome, as its last event; a run still going has emitted none. *)
Lemma runTask_settled (cfg : Settings) (m : Mode) (a : Answers) :
  let t := runTask cfg m a in
  (outcome t = Batched.Running → terminalEvents t = [])
  ∧ (outcome t ≠ Batched.Running →
     ∃ e, Batched.isTerminal e = true ∧ Batched.endsIn (outcome t) e
          ∧ terminalEvents t = [e] ∧ last (events t) = Some e).
Proof.
  assert (Hend : ∀ s e, Batched.endsIn s e → Batched.isTerminal e = true).
  { intros s e. by destruct s, e. }
  assert (Hloop : ∀ r, settled cfg r →
            (status r = Batched.Running →
             List.filter Batched.isTerminal (emitted r) = [])
            ∧ (status r ≠ Batched.Running →
               ∃ e, Batched.isTerminal e = true
                    ∧ Batched.endsIn (status r) e
                    ∧ List.filter Batched.isTerminal (emitted r) = [e]
                    ∧ last (emitted r) = Some e)).
  { intros r Hs. unfold settled in Hs.
    destruct (status r); (split; [try done; by destruct Hs|]); try done;
      intros _; destruct Hs as (e & He & ? & ?); exists e;
      repeat split; try done; by apply (Hend _ _ He). }
  destruct m; simpl.
  - apply Hloop, runLoop_ok.
  - apply Hloop, runLoop_ok.
  - destruct (runBatched_ok (thresholds cfg) (batchOpening a) (batchRounds a))
      as [_ Hs].
    unfold Batched.settled in Hs. unfold terminalEvents. simpl.
    fold (Batched.terminalEvents
            (runBatched (thresholds cfg) (batchOpening a) (batchRounds a))).
    destruct (Batched.status _); (split; [try done; by destruct Hs|]);
      try done;
      intros _; destruct Hs as (e & He & ? & ?); exists e;
      repeat split; try done; by apply (Hend _ _ He).
Qed.

(** Every run ends: a Deliberate or Responsive run within as many
    iterations as the maximum step count, a Batched run whose re-plans have
    at most [longest] steps within the length of the first sequence and
    [longest] + 1 iterations more for each of the three re-plans. *)
Lemma runTask_ends (cfg : Settings) (m : Mode) (a : Answers)
    (longest : nat) :
  match m with
  | Deliberate | Responsive => (maxSteps cfg ≤ length (rounds a))%nat
  | Batched =>
      Forall (replansWithin longest) (batchRounds a)
      ∧ (match planBatchReturns (batchOpening a) with
         | returned planned => length (Batched.steps planned)
         | raised _ _ => 0
         end + 3 * S longest ≤ length (batchRounds a))%nat
  end →
  outcome (runTask cfg m a) ≠ Batched.Running.
Proof.
  destruct m; simpl.
  - apply runLoop_ends.
  - apply runLoop_ends.
  - intros [Hall Hlen]. by apply (runBatched_ends _ longest).
Qed.

End OrchestratorTheory.

(** ** Producer and consumer together *)
Module StreamTheory.
Import Orchestrator.

(** C4, as stated, fails on the stream of a run: in a Batched run of two
    planned taps whose second step is re-planned into two, the consumer
    ends at [currentStep] 3 while [totalSteps] is still the 2 of the
    first plan. *)
Lemma currentStep_exceeds_totalSteps :
  outcome (runTask sampleSettings Batched replannedRun) = Batched.Done
  ∧ DualModel.currentStep
      (shown (events (runTask sampleSettings Batched replannedRun))) = 3
  ∧ DualModel.totalSteps
      (shown (events (runTask sampleSettings Batched replannedRun))) = 2
  ∧ ¬ (∀ cfg m a,
         DualModel.currentStep (shown (events (runTask cfg m a)))
         ≤ DualModel.totalSteps (shown (events (runTask cfg m a)))).
Proof.
  repeat split. intros Hall.
  specialize (Hall sampleSettings Batched replannedRun).
  vm_compute in Hall. by apply Hall.
Qed.

(** C4, as the code has it.  The index of a Batched run never moves back
    and never exceeds the length of the active sequence; the step count of
    a Deliberate or Responsive run never moves back and never exceeds the
    maximum step count.  The consumer copies the step value of each
    [step_complete] event into [currentStep] and leaves it alone on every
    other event.  On the event stream of every run, in every mode,
    [currentStep] never decreases from one event to a later one, never
    exceeds the run's index and ends as that index; so in a Batched run it
    never exceeds the length of the active sequence.
    [totalSteps] is the length of the first sequence, so [currentStep]
    stays at or below it as long as the sequence has not been re-planned.
    (On any event sequence whose step values ascend up to a bound,
    [currentStep] never decreases and stays at or below the bound.) *)
Theorem step_index_monotone :
  (∀ cfg o rounds b,
     let r := runBatched cfg o rounds in
     (Batched.index r ≤ Batched.index (stepBatched cfg r b))%nat
     ∧ (Batched.index r ≤ length (Batched.sequence r))%nat)
  ∧ (∀ cfg planned turns t,
       let r := Batched.run cfg planned turns in
       (Batched.index r ≤ Batched.index (Batched.step cfg r t))%nat
       ∧ (Batched.index r ≤ length (Batched.sequence r))%nat)
  ∧ (∀ cfg o rounds t,
       let r := runLoop cfg o rounds in
       (stepCount r ≤ stepCount (round cfg r t))%nat
       ∧ (stepCount r ≤ maxSteps cfg)%nat)
  ∧ (∀ prev event, DualModel.type event = "step_complete" →
       DualModel.currentStep (DualModel.handleEvent prev event)
       = DualModel.step event)
  ∧ (∀ prev event, DualModel.type event ≠ "step_complete" →
       DualModel.currentStep (DualModel.handleEvent prev event)
       = DualModel.currentStep prev)
  ∧ (∀ cfg m a,
       let t := runTask cfg m a in
       DualModel.currentStep (shown (events t)) = Z.of_nat (stepIndex t)
       ∧ ∀ earlier later rest, events t = earlier ++ later ++ rest →
           0 ≤ DualModel.currentStep (shown earlier)
           ∧ DualModel.currentStep (shown earlier)
             ≤ DualModel.currentStep (shown (earlier ++ later))
           ∧ DualModel.currentStep (shown (earlier ++ later))
             ≤ Z.of_nat (stepIndex t))
  ∧ (∀ cfg o rounds,
       let r := runBatched cfg o rounds in
       DualModel.currentStep (shown (Batched.emitted r))
       ≤ Z.of_nat (length (Batched.sequence r))
       ∧ ∀ planned,
           stopBeforePlanBatch o = false →
           planBatchReturns o = returned planned →
           DualModel.totalSteps (shown (Batched.emitted r))
           = Z.of_nat (length (Batched.steps planned))
           ∧ (Batched.replansUsed r = 0%nat →
              DualModel.currentStep (shown (Batched.emitted r))
              ≤ DualModel.totalSteps (shown (Batched.emitted r))))
  ∧ (∀ cfg o rounds,
       let r := runBatched cfg o rounds in
       Batched.replansUsed r = 0%nat →
       DualModel.currentStep (shown (Batched.emitted r))
       ≤ DualModel.totalSteps (shown (Batched.emitted r)))
  ∧ (∀ s bound before after,
       DualModel.currentStep s ≤ bound →
       DualModel.stepsAscend (DualModel.currentStep s) bound (before ++ after) →
       DualModel.currentStep (DualModel.handleAll s before)
         ≤ DualModel.currentStep (DualModel.handleAll s (before ++ after))
       ∧ DualModel.currentStep (DualModel.handleAll s (before ++ after))
         ≤ bound).
Proof.
  assert (Hidx : ∀ cfg o rounds,
            (Batched.index (runBatched cfg o rounds)
             ≤ length (Batched.sequence (runBatched cfg o rounds)))%nat).
  { intros cfg o rounds.
    by destruct (OrchestratorTheory.runBatched_ok cfg o rounds)
      as [(_ & _ & ?) _]. }
  split.
  { intros cfg o rounds b r. split; [|apply Hidx].
    destruct (OrchestratorTheory.runBatched_ok cfg o rounds) as [Hb Hs].
    by destruct (BatchedTheory.step_ok cfg r (asTurn r b) Hb Hs)
      as (_ & _ & ? & _). }
  split; [apply BatchedTheory.index_monotone_bounded|].
  split.
  { intros cfg o rounds t r.
    destruct (OrchestratorTheory.runLoop_ok cfg o rounds) as [Hs _].
    pose proof (OrchestratorTheory.runLoop_within cfg o rounds) as Hle.
    by destruct (OrchestratorTheory.round_stepCount cfg r t Hs Hle). }
  split; [apply DualModelTheory.currentStep_step_complete|].
  split; [apply DualModelTheory.currentStep_other|].
  split.
  { intros cfg m a t.
    destruct (OrchestratorTheory.runTask_tracks cfg m a) as [Hasc Hcur].
    fold t in Hasc, Hcur. split; [done|].
    intros earlier later rest Hsplit. rewrite Hsplit in Hasc.
    rewrite app_assoc, map_app in Hasc. unfold shown.
    assert (H0 : DualModel.currentStep DualModel.initialState
                 ≤ Z.of_nat (stepIndex t)) by (simpl; lia).
    destruct (DualModelTheory.stepsAscend_app _ _ DualModel.initialState _ Hasc)
      as [Hboth _].
    rewrite map_app in Hboth |- *.
    destruct (DualModelTheory.stepsAscend_app _ _ DualModel.initialState _
                Hboth) as [Hearlier _].
    destruct (DualModelTheory.currentStep_ascends _ DualModel.initialState _
                H0 Hearlier) as [Hlow _].
    split; [exact Hlow|].
    apply (DualModelTheory.currentStep_monotone_on_ascending
             DualModel.initialState (Z.of_nat (stepIndex t))
             (map wire earlier) (map wire later) H0 Hboth). }
  split;
    [|split; [apply OrchestratorTheory.runBatched_within_plan
             |apply DualModelTheory.currentStep_monotone_on_ascending]].
  intros cfg o rounds r.
  destruct (OrchestratorTheory.runBatched_tracks cfg o rounds) as [_ Hcur].
  fold r in Hcur. pose proof (Hidx cfg o rounds) as Hle. fold r in Hle.
  split; [lia|].
  intros planned Hstop Hplan.
  pose proof (OrchestratorTheory.runBatched_totalSteps cfg o rounds) as Htot.
  fold r in Htot. rewrite Hstop, Hplan in Htot.
  split; [done|]. intros Hused.
  rewrite Htot, Hcur,
    <- (OrchestratorTheory.runBatched_first_sequence cfg o rounds planned
          Hstop Hplan Hused).
  fold r. lia.
Qed.

Lemma step_index_monotone_witness :
  DualModel.currentStep
    (shown (events (runTask sampleSettings Batched replannedRun)))
  = Z.of_nat (stepIndex (runTask sampleSettings Batched replannedRun))
  ∧ DualModel.currentStep
      (shown (events (runTask sampleSettings Batched replannedRun)))
    ≤ Z.of_nat
        (length
           (Batched.sequence
              (runBatched (thresholds sampleSettings)
                 (batchOpening replannedRun) (batchRounds replannedRun)))).
Proof.
  split.
  - exact (proj1 (proj1 (proj2 (proj2 (proj2 (proj2 (proj2
             step_index_monotone)))))
             sampleSettings Batched replannedRun)).
  - exact (proj1 (proj1 (proj2 (proj2 (proj2 (proj2 (proj2 (proj2
             step_index_monotone))))))
             (thresholds sampleSettings) (batchOpening replannedRun)
             (batchRounds replannedRun))).
Defined.

(** C7.  Every run, in each of the three modes and whatever the calls
    into the decision agent and the device answer, raise or are cancelled
    at, emits no terminal event while it is going and exactly one when it
    is over: done, error or aborted, according to how it ended, as the
    last event of its stream.  Every run ends.  An iteration ends the run
    as cancelled only on a cancellation flag, with [aborted]; as failed
    only with the message of an error a call raised or with
    "step budget exceeded" (Deliberate, Responsive) or with
    "recovery exhausted" (Batched), and every error raised in Deliberate or
    Responsive mode ends the run so, unless the run was cancelled
    meanwhile, which ends it with [aborted]; in Batched mode a raised
    [humanize] or [execute], when no cancellation is found, is a failed
    step the detector counts, and a raised [planBatch] ends the run like
    an error of the other modes.  On the consumer side:
    after the stream of a run that is over, as it arrives as tagged
    objects, both active flags of the dual-model state are off and both
    stages idle; the terminal event arrives at the panel as the done,
    error or aborted callback matching the outcome, which clears [loading]
    and the stream reference, marks the reply as no longer streaming and
    ends the stream; and so do these callbacks and [handleEvent] on every
    terminal event. *)
Theorem terminal_events_settle :
  (∀ cfg m a,
     let t := runTask cfg m a in
     (outcome t = Batched.Running → terminalEvents t = [])
     ∧ (outcome t ≠ Batched.Running →
        ∃ e, Batched.isTerminal e = true ∧ Batched.endsIn (outcome t) e
             ∧ terminalEvents t = [e] ∧ last (events t) = Some e))
  ∧ (∀ cfg planned turns,
       let r := Batched.run cfg planned turns in
       (Batched.status r = Batched.Running → Batched.terminalEvents r = [])
       ∧ (Batched.status r ≠ Batched.Running →
          ∃ e, Batched.isTerminal e = true
               ∧ Batched.endsIn (Batched.status r) e
               ∧ Batched.terminalEvents r = [e]
               ∧ last (Batched.emitted r) = Some e))
  ∧ (∀ cfg m a longest,
       match m with
       | Deliberate | Responsive => (maxSteps cfg ≤ length (rounds a))%nat
       | Batched =>
           Forall (replansWithin longest) (batchRounds a)
           ∧ (match planBatchReturns (batchOpening a) with
              | returned planned => length (Batched.steps planned)
              | raised _ _ => 0
              end + 3 * S longest ≤ length (batchRounds a))%nat
       end →
       outcome (runTask cfg m a) ≠ Batched.Running)
  ∧ (∀ cfg r t,
       status r = Batched.Running →
       let r' := round cfg r t in
       (status r' = Batched.Cancelled →
          last (emitted r') = Some (Batched.aborted "aborted")
          ∧ (cancelledBeforeDecide t = true
             ∨ cancelledBeforeRecognize t = true
             ∨ cancelledBeforeExecute t = true
             ∨ cancelledDuringExecute t = true
             ∨ ∃ f, decided t (history r) (pending r) = raised f true
                    ∨ recognized t = raised f true
                    ∨ executed t = raised f true))
       ∧ (status r' = Batched.Failed →
          (last (emitted r') = Some (Batched.error "step budget exceeded")
           ∧ stepCount r' = S (stepCount r)
           ∧ (maxSteps cfg ≤ stepCount r')%nat)
          ∨ ∃ f, last (emitted r') = Some (Batched.error (faultMessage f))
                 ∧ (decided t (history r) (pending r) = raised f false
                    ∨ recognized t = raised f false
                    ∨ executed t = raised f false))
       ∧ (status r' = Batched.Done →
          last (emitted r') = Some Batched.task_complete
          ∧ stepCount r' = S (stepCount r)
          ∧ ∃ chunks d,
              decided t (history r) (pending r) = returned (chunks, d)
              ∧ completion d = true))
  ∧ (∀ cfg r t f cancelledMeanwhile,
       status r = Batched.Running →
       let r' := round cfg r t in
       let ended :=
         if cancelledMeanwhile : bool
         then status r' = Batched.Cancelled
              ∧ last (emitted r') = Some (Batched.aborted "aborted")
         else status r' = Batched.Failed
              ∧ last (emitted r') = Some (Batched.error (faultMessage f)) in
       cancelledBeforeDecide t = false →
       (decided t (history r) (pending r) = raised f cancelledMeanwhile →
        ended)
       ∧ (∀ thought, decided t (history r) (pending r) = returned thought →
          cancelledBeforeRecognize t = false →
          (recognized t = raised f cancelledMeanwhile → ended)
          ∧ (∀ description, recognized t = returned description →
             cancelledBeforeExecute t = false →
             executed t = raised f cancelledMeanwhile → ended)))
  ∧ (∀ cfg r b,
       Batched.status r = Batched.Running →
       let r' := stepBatched cfg r b in
       (Batched.status r' = Batched.Cancelled →
          last (Batched.emitted r') = Some (Batched.aborted "aborted")
          ∧ stopObserved b = true)
       ∧ (Batched.status r' = Batched.Failed →
          last (Batched.emitted r')
          = Some (Batched.error "recovery exhausted")
          ∧ Batched.replanBudget r ≤ 0)
       ∧ (Batched.status r' = Batched.Done →
          last (Batched.emitted r') = Some Batched.task_complete
          ∧ (length (Batched.sequence r') ≤ Batched.index r')%nat))
  ∧ (∀ cfg r b a f cancelledMeanwhile,
       Batched.status r = Batched.Running →
       Batched.sequence r !! Batched.index r = Some a →
       stopObserved b = false →
       (Batched.needsGeneration a = true
        ∧ humanizeReturns b = raised f cancelledMeanwhile)
       ∨ executeReturns b = raised f cancelledMeanwhile →
       let r' := stepBatched cfg r b in
       (∃ rest,
          Batched.emitted r'
          = Batched.emitted r
              ++ [Batched.action_start (Batched.action a) (Batched.target a);
                  Batched.action_result (Batched.action a) (Batched.target a)
                    false]
              ++ rest)
       ∧ (Batched.status r' ≠ Batched.Cancelled →
          AnomalyMonitor.consecutive_failures (Batched.anomaly r')
          = S (AnomalyMonitor.consecutive_failures (Batched.anomaly r))))
  ∧ (∀ o f cancelledMeanwhile,
       stopBeforePlanBatch o = false →
       planBatchReturns o = raised f cancelledMeanwhile →
       if cancelledMeanwhile
       then Batched.status (startBatched o) = Batched.Cancelled
            ∧ Batched.emitted (startBatched o) = [Batched.aborted "aborted"]
       else Batched.status (startBatched o) = Batched.Failed
            ∧ Batched.emitted (startBatched o)
              = [Batched.error (faultMessage f)])
  ∧ (∀ cfg m a,
       outcome (runTask cfg m a) ≠ Batched.Running →
       let s := shown (events (runTask cfg m a)) in
       DualModel.decisionActive s = false ∧ DualModel.visionActive s = false
       ∧ DualModel.decisionStage s = "idle"
       ∧ DualModel.visionStage s = "idle")
  ∧ (∀ cfg m a summary,
       let t := runTask cfg m a in
       outcome t ≠ Batched.Running →
       ∃ e ev,
         last (events t) = Some e ∧ toPanel summary e = Some ev
         ∧ match outcome t with
           | Batched.Done => ev = DevicePanel.Done summary
           | Batched.Failed => ∃ event, ev = DevicePanel.Error event
           | Batched.Cancelled => ∃ event, ev = DevicePanel.Aborted event
           | Batched.Running => False
           end
         ∧ ∀ accepts P stream now w c,
             stream ∈ DevicePanel.openStreams w →
             DevicePanel.closures w !! stream = Some c →
             let w' := DevicePanel.deliver accepts P stream ev now w in
             DevicePanel.runSettled c w'
             ∧ stream ∉ DevicePanel.openStreams w')
  ∧ (∀ accepts P c now w,
       (∀ event,
          DevicePanel.runSettled c (DevicePanel.onDone accepts P c event now w))
       ∧ (∀ event,
            DevicePanel.runSettled c
              (DevicePanel.onError accepts P c event now w))
       ∧ (∀ event,
            DevicePanel.runSettled c (DevicePanel.onAborted c event now w)))
  ∧ (∀ accepts P stream ev now w c,
       stream ∈ DevicePanel.openStreams w →
       DevicePanel.closures w !! stream = Some c →
       DevicePanel.isTerminal ev = true →
       let w' := DevicePanel.deliver accepts P stream ev now w in
       DevicePanel.runSettled c w' ∧ stream ∉ DevicePanel.openStreams w')
  ∧ (∀ prev event,
       In (DualModel.type event) ["task_complete"; "error"; "aborted"] →
       let s := DualModel.handleEvent prev event in
       DualModel.decisionActive s = false ∧ DualModel.visionActive s = false
       ∧ DualModel.decisionStage s = "idle" ∧ DualModel.visionStage s = "idle").
Proof.
  split; [apply OrchestratorTheory.runTask_settled|].
  split; [apply BatchedTheory.one_terminal_event|].
  split; [apply OrchestratorTheory.runTask_ends|].
  split; [apply OrchestratorTheory.round_causes|].
  split; [apply OrchestratorTheory.round_fault|].
  split; [apply OrchestratorTheory.stepBatched_causes|].
  split; [apply OrchestratorTheory.stepBatched_fault|].
  split.
  { intros o f c Hstop Hplan. unfold startBatched. rewrite Hstop, Hplan.
    by destruct c. }
  split.
  { intros cfg m a Hover.
    destruct (OrchestratorTheory.runTask_settled cfg m a) as [_ Hend].
    destruct (Hend Hover) as (e & He & _ & _ & Hlast).
    by apply (OrchestratorTheory.shown_ended _ e). }
  split.
  { intros cfg m a summary t Hover.
    destruct (OrchestratorTheory.runTask_settled cfg m a) as [_ Hend].
    destruct (Hend Hover) as (e & He & Hin & _ & Hlast). fold t in Hin, Hlast.
    destruct (toPanel summary e) as [ev|] eqn:Hev; [|by destruct e].
    exists e, ev. split; [done|]. split; [done|]. split.
    - destruct (outcome t), e; try done; simpl in Hev;
        injection Hev as <-; (done || by eexists).
    - intros accepts P stream now w c Hopen Hc.
      apply DevicePanelTheory.deliver_terminal_settles; [done | done |].
      destruct e; try done; simpl in Hev; by injection Hev as <-. }
  split.
  { intros accepts P c now w. split; [|split]; intros event.
    - exact (proj1 (DevicePanelTheory.onDone_settles accepts P c event now w)).
    - exact (proj1 (DevicePanelTheory.onError_settles accepts P c event now w)).
    - exact (proj1 (DevicePanelTheory.onAborted_settles c event now w)). }
  split; [apply DevicePanelTheory.deliver_terminal_settles|].
  intros prev event Hin s. subst s. simpl in Hin.
  destruct Hin as [Ht|[Ht|[Ht|[]]]]; symmetry in Ht.
  - by rewrite (DualModelTheory.handleEvent_label prev DualModel.task_complete event Ht).
  - by rewrite (DualModelTheory.handleEvent_label prev DualModel.error event Ht).
  - by rewrite (DualModelTheory.handleEvent_label prev DualModel.aborted event Ht).
Qed.

Lemma terminal_events_settle_witness :
  ∃ e, Batched.isTerminal e = true
       ∧ Batched.endsIn
           (outcome (runTask sampleSettings Batched replannedRun)) e
       ∧ terminalEvents (runTask sampleSettings Batched replannedRun) = [e]
       ∧ last (events (runTask sampleSettings Batched replannedRun)) = Some e.
Proof.
  apply (proj2 (proj1 terminal_events_settle sampleSettings Batched
                  replannedRun)).
  vm_compute. discriminate.
Defined.

End StreamTheory.

(** ** The scenarios of the specification, run on the model *)
Module Scenarios.

(** Scenario A: two steps, both succeed. *)
Example batched_two_steps :
  Batched.emitted
    (Batched.run AnomalyMonitor.defaults
       {| Batched.steps := [Batched.tap "a"; Batched.tap "b"];
          Batched.summary := "open app" |}
       [Batched.succeedingTurn "s1"; Batched.succeedingTurn "s2"])
  = [Batched.plan ["tap: a"; "tap: b"] 2;
     Batched.action_start "tap" "a"; Batched.action_result "tap" "a" true;
     Batched.step_complete 1;
     Batched.action_start "tap" "b"; Batched.action_result "tap" "b" true;
     Batched.step_complete 2;
     Batched.task_complete].
Proof. reflexivity. Qed.

(** Scenario C: the detector reports on the second step, the re-plan puts a
    new sequence in its place, the run goes on to the end. *)
Example batched_replan_at_second_step :
  let r :=
    Batched.run AnomalyMonitor.defaults Batched.samplePlan
      [Batched.failingTurn "s1"; Batched.failingTurn "s2";
       Batched.succeedingTurn "s3"; Batched.succeedingTurn "s4"] in
  Batched.status r = Batched.Done
  ∧ Batched.replansUsed r = 1%nat
  ∧ Batched.replanBudget r = 2
  ∧ Batched.sequence r
    = [Batched.tap "a"; Batched.tap "retry"; Batched.tap "then"]
  ∧ Batched.index r = 3%nat
  ∧ length (Batched.executed r) = 3%nat.
Proof. repeat split. Qed.

(** The quota fallback of [saveHistoryItem]: with 25 entries stored and a
    browser that takes at most 21, the new item is written in front of the
    first 20. *)
Example history_fallback :
  let store : History.Storage :=
    <[History.historyKey "d" :=
        History.Json (replicate 25 (History.sampleItem "old"))]> ∅ in
  History.saveHistoryItem
    (λ _ _ text,
       match text with
       | History.Json items => (length items <=? 21)%nat
       | _ => true
       end)
    store "d" (History.sampleItem "new")
  = (<[History.historyKey "d" :=
         History.Json
           (History.sampleItem "new" :: replicate 20 (History.sampleItem "old"))]>
       store,
     History.SavedReduced).
Proof.
  intros store. unfold History.saveHistoryItem. subst store.
  rewrite lookup_insert_eq. reflexivity.
Qed.

(** A Deliberate run of two steps, the second of which completes the
    task, as it goes over the channel. *)
Example deliberate_two_steps :
  Orchestrator.events
    (Orchestrator.runTask Orchestrator.sampleSettings Orchestrator.Deliberate
       (Orchestrator.stepwiseRun
          [Orchestrator.tapRound "s1" false; Orchestrator.tapRound "s2" true]))
  = [Batched.plan ["open the chat"; "send"] 2;
     Batched.decision_start "analyzing";
     Batched.decision_thinking "the button is visible";
     Batched.decision_result "tap" "send";
     Batched.vision_start "capturing";
     Batched.vision_recognition "a button labelled send";
     Batched.action_start "tap" "send";
     Batched.action_result "tap" "send" true;
     Batched.step_complete 1;
     Batched.decision_start "analyzing";
     Batched.decision_thinking "the button is visible";
     Batched.decision_result "tap" "send";
     Batched.vision_start "capturing";
     Batched.vision_recognition "a button labelled send";
     Batched.action_start "tap" "send";
     Batched.action_result "tap" "send" true;
     Batched.step_complete 2;
     Batched.task_complete].
Proof. reflexivity. Qed.

(** A Responsive run that never completes stops at the maximum step
    count with the error "step budget exceeded". *)
Example responsive_step_budget :
  let t :=
    Orchestrator.runTask
      {| Orchestrator.maxSteps := 2;
         Orchestrator.thresholds := AnomalyMonitor.defaults;
         Orchestrator.decisionStage := "analyzing";
         Orchestrator.visionStage := "capturing" |}
      Orchestrator.Responsive
      (Orchestrator.stepwiseRun
         [Orchestrator.tapRound "s1" false; Orchestrator.tapRound "s2" false;
          Orchestrator.tapRound "s3" false]) in
  Orchestrator.outcome t = Batched.Failed
  ∧ Orchestrator.stepIndex t = 2%nat
  ∧ Orchestrator.terminalEvents t = [Batched.error "step budget exceeded"]
  ∧ last (Orchestrator.events t) = Some (Batched.error "step budget exceeded").
Proof. repeat split. Qed.

(** A Deliberate run whose device becomes unreachable during the second
    action ends with the error of the device as its one terminal event. *)
Example deliberate_device_error :
  let t :=
    Orchestrator.runTask Orchestrator.sampleSettings Orchestrator.Deliberate
      (Orchestrator.stepwiseRun
         [Orchestrator.tapRound "s1" false;
          {| Orchestrator.cancelledBeforeDecide := false;
             Orchestrator.decided :=
               Orchestrator.decided (Orchestrator.tapRound "s2" false);
             Orchestrator.cancelledBeforeRecognize := false;
             Orchestrator.recognized := Orchestrator.returned "a button";
             Orchestrator.cancelledBeforeExecute := false;
             Orchestrator.executed :=
               Orchestrator.raised
                 (Orchestrator.DeviceError "device unreachable") false;
             Orchestrator.cancelledDuringExecute := false |};
          Orchestrator.tapRound "s3" true]) in
  Orchestrator.outcome t = Batched.Failed
  ∧ Orchestrator.stepIndex t = 1%nat
  ∧ Orchestrator.terminalEvents t = [Batched.error "device unreachable"]
  ∧ last (Orchestrator.events t) = Some (Batched.error "device unreachable").
Proof. repeat split. Qed.

(** Scenario D: the run is cancelled while the second action is in
    flight; the outcome of the action is discarded, the channel gets one
    [aborted] event and nothing after it. *)
Example responsive_abort :
  let t :=
    Orchestrator.runTask Orchestrator.sampleSettings Orchestrator.Responsive
      (Orchestrator.stepwiseRun
         [Orchestrator.tapRound "s1" false;
          {| Orchestrator.cancelledBeforeDecide := false;
             Orchestrator.decided :=
               Orchestrator.decided (Orchestrator.tapRound "s2" false);
             Orchestrator.cancelledBeforeRecognize := false;
             Orchestrator.recognized := Orchestrator.returned "a button";
             Orchestrator.cancelledBeforeExecute := false;
             Orchestrator.executed := Orchestrator.returned ("s2", true);
             Orchestrator.cancelledDuringExecute := true |};
          Orchestrator.tapRound "s3" true]) in
  Orchestrator.outcome t = Batched.Cancelled
  ∧ Orchestrator.stepIndex t = 1%nat
  ∧ Orchestrator.terminalEvents t = [Batched.aborted "aborted"]
  ∧ last (Orchestrator.events t) = Some (Batched.aborted "aborted")
  ∧ length
      (List.filter
         (λ e, match e with Batched.action_result _ _ _ => true | _ => false end)
         (Orchestrator.events t)) = 1%nat.
Proof. repeat split. Qed.

(** A Batched run of two taps that both fail: the detector reports on
    the second, the re-plan puts two steps in its place, the run goes on to
    the end; the consumer then shows step 3 of a plan of 2. *)
Example batched_replanned_on_the_wire :
  let t :=
    Orchestrator.runTask Orchestrator.sampleSettings Orchestrator.Batched
      Orchestrator.replannedRun in
  Orchestrator.events t
  = [Batched.plan ["tap: a"; "tap: b"] 2;
     Batched.action_start "tap" "a"; Batched.action_result "tap" "a" false;
     Batched.step_complete 1;
     Batched.action_start "tap" "b"; Batched.action_result "tap" "b" false;
     Batched.action_start "tap" "retry";
     Batched.action_result "tap" "retry" true;
     Batched.step_complete 2;
     Batched.action_start "tap" "then";
     Batched.action_result "tap" "then" true;
     Batched.step_complete 3;
     Batched.task_complete]
  ∧ DualModel.taskPlan (Orchestrator.shown (Orchestrator.events t))
    = ["tap: a"; "tap: b"]
  ∧ DualModel.currentStep (Orchestrator.shown (Orchestrator.events t)) = 3
  ∧ DualModel.totalSteps (Orchestrator.shown (Orchestrator.events t)) = 2.
Proof. repeat split. Qed.

End Scenarios.

(** ** Reading, formatting and grouping the history *)
Module HistoryReadTheory.
Import History HistoryRead.

Lemma reviveDates_same (item : HistoryItem) : reviveDates item = item.
Proof. by destruct item. Qed.

Lemma map_reviveDates (items : list HistoryItem) : map reviveDates items = items.
Proof.
  induction items as [|item items IH]; [done|].
  simpl. by rewrite reviveDates_same, IH.
Qed.

Lemma historyKey_inj (d1 d2 : string) : historyKey d1 = historyKey d2 → d1 = d2.
Proof. unfold historyKey. apply (inj (String.app "history-")). Qed.

(** What [loadHistoryItems] returns is what [saveHistoryItem] parses. *)
Lemma load_parseStored (store : Storage) (deviceId : string) :
  loadHistoryItems store deviceId
  = default [] (parseStored (store !! historyKey deviceId)).
Proof.
  unfold loadHistoryItems.
  destruct (store !! historyKey deviceId) as [[items| |]|]; simpl; try done.
  apply map_reviveDates.
Qed.

Lemma load_insert (store : Storage) (deviceId : string) (items : list HistoryItem) :
  loadHistoryItems (<[historyKey deviceId := Json items]> store) deviceId
  = items.
Proof.
  unfold loadHistoryItems. rewrite lookup_insert_eq. apply map_reviveDates.
Qed.

Lemma load_other_key (store store' : Storage) (deviceId : string) :
  store' !! historyKey deviceId = store !! historyKey deviceId →
  loadHistoryItems store' deviceId = loadHistoryItems store deviceId.
Proof. unfold loadHistoryItems. by intros ->. Qed.

(** [saveHistoryItem] writes at most the key of its device. *)
Lemma save_other_keys
    (accepts : Storage → string → StoredText → bool)
    (store : Storage) (deviceId : string) (item : HistoryItem) (key : string) :
  key ≠ historyKey deviceId →
  (saveHistoryItem accepts store deviceId item).1 !! key = store !! key.
Proof.
  intros Hne. unfold saveHistoryItem.
  destruct (parseStored (store !! historyKey deviceId)); [|done].
  repeat case_match; simpl; try done; by rewrite lookup_insert_ne.
Qed.

(** The branches of [saveHistoryItem], with the second read of the store
    folded into the first. *)
Lemma save_cases
    (accepts : Storage → string → StoredText → bool)
    (store : Storage) (deviceId : string) (item : HistoryItem) :
  saveHistoryItem accepts store deviceId item
  = match parseStored (store !! historyKey deviceId) with
    | None => (store, Warned)
    | Some old =>
        if accepts store (historyKey deviceId) (Json (take 100 (item :: old)))
        then (<[historyKey deviceId := Json (take 100 (item :: old))]> store, Saved)
        else if accepts store (historyKey deviceId) (Json (item :: take 20 old))
        then (<[historyKey deviceId := Json (item :: take 20 old)]> store,
              SavedReduced)
        else (store, ReductionFailed)
    end.
Proof.
  unfold saveHistoryItem.
  by destruct (parseStored (store !! historyKey deviceId)).
Qed.

Ltac save_branches :=
  repeat match goal with
         | |- context [if ?b then _ else _] => destruct b eqn:?
         end;
  cbn [fst snd].

Lemma load_after_save
    (accepts : Storage → string → StoredText → bool)
    (store : Storage) (deviceId : string) (item : HistoryItem) :
  let before := loadHistoryItems store deviceId in
  let after :=
    loadHistoryItems (saveHistoryItem accepts store deviceId item).1 deviceId in
  match (saveHistoryItem accepts store deviceId item).2 with
  | Saved => after = take 100 (item :: before)
  | SavedReduced => after = item :: take 20 before
  | ReductionFailed | Warned => after = before
  end.
Proof.
  intros before after. subst before after.
  rewrite save_cases, (load_parseStored store).
  destruct (parseStored (store !! historyKey deviceId)) as [old|] eqn:Hold;
    [|by cbn [fst snd]; rewrite load_parseStored, Hold].
  save_branches; rewrite ?load_insert; try done.
  by rewrite load_parseStored, Hold.
Qed.

Lemma load_other_device
    (accepts : Storage → string → StoredText → bool)
    (store : Storage) (deviceId other : string) (item : HistoryItem) :
  other ≠ deviceId →
  loadHistoryItems (saveHistoryItem accepts store deviceId item).1 other
    = loadHistoryItems store other
  ∧ loadHistoryItems (clearHistory store deviceId) other
    = loadHistoryItems store other.
Proof.
  intros Hne.
  assert (Hkey : historyKey other ≠ historyKey deviceId).
  { intros Heq. by apply Hne, historyKey_inj. }
  split; apply load_other_key.
  - by apply save_other_keys.
  - unfold clearHistory. by rewrite lookup_delete_ne.
Qed.

(** X1. Saving and loading back: after a save that got through on the
    normal path the device's history loads as the new item followed by the
    history it loaded as before, cut to 100 entries; after a save through the
    quota fallback, as the new item followed by the first 20 of them; after
    a save that failed, as before. *)
Theorem save_then_load
    (accepts : Storage → string → StoredText → bool)
    (store : Storage) (deviceId : string) (item : HistoryItem) :
  let before := loadHistoryItems store deviceId in
  let after :=
    loadHistoryItems (saveHistoryItem accepts store deviceId item).1 deviceId in
  match (saveHistoryItem accepts store deviceId item).2 with
  | Saved => after = take 100 (item :: before)
  | SavedReduced => after = item :: take 20 before
  | ReductionFailed | Warned => after = before
  end.
Proof. apply load_after_save. Qed.

(** X2. Devices do not see each other's history: a save or a clear for
    one device leaves what every other device loads as it was. *)
Theorem other_devices_untouched
    (accepts : Storage → string → StoredText → bool)
    (store : Storage) (deviceId other : string) (item : HistoryItem) :
  other ≠ deviceId →
  loadHistoryItems (saveHistoryItem accepts store deviceId item).1 other
    = loadHistoryItems store other
  ∧ loadHistoryItems (clearHistory store deviceId) other
    = loadHistoryItems store other.
Proof. apply load_other_device. Qed.

Lemma other_devices_untouched_witness :
  loadHistoryItems
    (saveHistoryItem (λ _ _ _, true)
       (<[historyKey "a" := Json [sampleItem "first"]]> ∅) "b"
       (sampleItem "second")).1 "a"
  = loadHistoryItems (<[historyKey "a" := Json [sampleItem "first"]]> ∅) "a".
Proof.
  apply (proj1 (other_devices_untouched (λ _ _ _, true)
                  (<[historyKey "a" := Json [sampleItem "first"]]> ∅)
                  "b" "a" (sampleItem "second") ltac:(discriminate))).
Defined.

Lemma withinLimit_save
    (accepts : Storage → string → StoredText → bool)
    (store : Storage) (deviceId : string) (item : HistoryItem) :
  withinLimit store →
  withinLimit (saveHistoryItem accepts store deviceId item).1.
Proof.
  unfold withinLimit, MAX_HISTORY_ITEMS. intros Hstore device.
  destruct (decide (device = deviceId)) as [->|Hne].
  - pose proof (load_after_save accepts store deviceId item) as Hload.
    cbv zeta in Hload. specialize (Hstore deviceId).
    destruct ((saveHistoryItem accepts store deviceId item).2);
      rewrite Hload; try done.
    + rewrite length_take. lia.
    + simpl. rewrite length_take. lia.
  - by rewrite (proj1 (load_other_device accepts store deviceId device
                         item Hne)).
Qed.

Lemma withinLimit_empty : withinLimit ∅.
Proof.
  intros device. unfold loadHistoryItems. rewrite lookup_empty. simpl. lia.
Qed.

(** X3. The cap of 100 is an invariant of the store: whatever the browser
    accepts and whichever devices the items are saved for, in any order,
    starting from the empty store (or from any store within the cap), no
    device ever loads more than 100 entries. *)
Theorem history_never_exceeds_limit
    (accepts : Storage → string → StoredText → bool)
    (saves : list (string * HistoryItem)) :
  (∀ deviceId,
     (length (loadHistoryItems (saveMany accepts ∅ saves) deviceId) ≤ 100)%nat)
  ∧ (∀ store, withinLimit store → withinLimit (saveMany accepts store saves)).
Proof.
  assert (Hgen : ∀ store, withinLimit store →
                          withinLimit (saveMany accepts store saves)).
  { unfold saveMany. induction saves as [|[device item] rest IH];
      intros store Hstore; [done|].
    simpl. apply IH. by apply withinLimit_save. }
  split; [|exact Hgen]. apply (Hgen ∅ withinLimit_empty).
Qed.

Lemma history_never_exceeds_limit_witness :
  withinLimit
    (saveMany (λ _ _ _, true) (<[historyKey "a" := Json [sampleItem "first"]]> ∅)
       [("a", sampleItem "second"); ("b", sampleItem "third")]).
Proof.
  apply (proj2 (history_never_exceeds_limit (λ _ _ _, true)
                  [("a", sampleItem "second"); ("b", sampleItem "third")])).
  intros device. unfold loadHistoryItems, MAX_HISTORY_ITEMS.
  destruct (decide (historyKey "a" = historyKey device)) as [<-|Hne].
  - rewrite lookup_insert_eq. simpl. lia.
  - rewrite lookup_insert_ne, lookup_empty by done. simpl. lia.
Defined.

Lemma take_app_take {A : Type} (a b : list A) :
  ∀ n k, (n ≤ k)%nat → take n (a ++ take k b) = take n (a ++ b).
Proof.
  induction a as [|x a IH]; intros n k Hle; simpl.
  - rewrite take_take. f_equal. lia.
  - destruct n as [|n]; [done|]. simpl. f_equal. apply IH. lia.
Qed.

Lemma save_accepting (store : Storage) (deviceId : string) (item : HistoryItem) :
  store !! historyKey deviceId ≠ Some Malformed →
  (saveHistoryItem (λ _ _ _, true) store deviceId item).1
  = <[historyKey deviceId :=
        Json (take 100 (item :: loadHistoryItems store deviceId))]> store.
Proof.
  intros Hok. rewrite save_cases, load_parseStored.
  by destruct (store !! historyKey deviceId) as [[old| |]|].
Qed.

(** X4. With a browser that accepts every write, saving items one after
    the other keeps the newest first: a device whose stored text parses and
    is within the cap then loads the saved items in reverse order of saving,
    followed by what it loaded before, cut to 100 entries. *)
Theorem saves_keep_newest_first
    (store : Storage) (deviceId : string) (items : list HistoryItem) :
  store !! historyKey deviceId ≠ Some Malformed →
  (length (loadHistoryItems store deviceId) ≤ 100)%nat →
  loadHistoryItems (saveAll (λ _ _ _, true) store deviceId items) deviceId
  = take 100 (rev items ++ loadHistoryItems store deviceId).
Proof.
  unfold saveAll. revert store.
  induction items as [|item items IH]; intros store Hok Hlen.
  - simpl. by rewrite take_ge.
  - simpl. rewrite (save_accepting store deviceId item Hok).
    rewrite IH.
    + rewrite load_insert, take_app_take by lia.
      by rewrite <- app_assoc.
    + by rewrite lookup_insert_eq.
    + rewrite load_insert, length_take. lia.
Qed.

Lemma saves_keep_newest_first_witness :
  loadHistoryItems
    (saveAll (λ _ _ _, true) ∅ "d" [sampleItem "first"; sampleItem "second"]) "d"
  = take 100 (rev [sampleItem "first"; sampleItem "second"]
                ++ loadHistoryItems ∅ "d").
Proof.
  apply (saves_keep_newest_first ∅ "d" [sampleItem "first"; sampleItem "second"]).
  - by rewrite lookup_empty.
  - unfold loadHistoryItems. rewrite lookup_empty. simpl. lia.
Defined.

(** X5. A stored text that does not parse blocks the history of its
    device: every save for that device is dropped and leaves the store as
    it is, whatever the browser accepts, and the device keeps loading the
    empty history; [clearHistory] removes the text, after which the device
    loads the empty history and a save is stored again. *)
Theorem malformed_history_blocks_saves
    (accepts : Storage → string → StoredText → bool)
    (store : Storage) (deviceId : string) (items : list HistoryItem) :
  store !! historyKey deviceId = Some Malformed →
  saveAll accepts store deviceId items = store
  ∧ loadHistoryItems (saveAll accepts store deviceId items) deviceId = []
  ∧ loadHistoryItems (clearHistory store deviceId) deviceId = []
  ∧ (∀ item,
       loadHistoryItems
         (saveHistoryItem (λ _ _ _, true) (clearHistory store deviceId)
            deviceId item).1 deviceId
       = [item]).
Proof.
  intros Hbad.
  assert (Hsame : saveAll accepts store deviceId items = store).
  { unfold saveAll. induction items as [|item items IH]; [done|].
    simpl. rewrite save_cases, Hbad. simpl. exact IH. }
  assert (Hclear : clearHistory store deviceId !! historyKey deviceId = None).
  { unfold clearHistory. apply lookup_delete_eq. }
  split; [exact Hsame|]. rewrite Hsame. split.
  { unfold loadHistoryItems. by rewrite Hbad. }
  split.
  { unfold loadHistoryItems. by rewrite Hclear. }
  intros item. rewrite save_accepting by (by rewrite Hclear).
  rewrite load_insert. unfold loadHistoryItems. by rewrite Hclear.
Qed.

Lemma malformed_history_blocks_saves_witness :
  saveAll (λ _ _ _, true) (<[historyKey "d" := Malformed]> ∅) "d"
    [sampleItem "first"]
  = <[historyKey "d" := Malformed]> ∅.
Proof.
  apply (proj1 (malformed_history_blocks_saves (λ _ _ _, true)
                  (<[historyKey "d" := Malformed]> ∅) "d" [sampleItem "first"]
                  (lookup_insert_eq _ _ _))).
Defined.

Ltac zdiv := Z.to_euclidean_division_equations; lia.

(** X6. [formatDuration] on whole milliseconds: below one minute it prints
    the seconds alone; from one minute on it prints minutes and seconds, with
    at least one minute, seconds between 0 and 59, and both adding up to the
    whole seconds of the duration; a negative duration always takes the
    minutes form, with a negative minute count and seconds between -59
    and 0. *)
Theorem formatDuration_shape (ms : Z) :
  let total := ms `div` 1000 in
  (0 ≤ ms < 60000 →
     formatDuration ms = pretty total +:+ "s" ∧ 0 ≤ total < 60)
  ∧ (60000 ≤ ms →
     formatDuration ms
       = pretty (total `div` 60) +:+ "m " +:+ pretty (total `mod` 60) +:+ "s"
     ∧ 1 ≤ total `div` 60
     ∧ 0 ≤ total `mod` 60 < 60
     ∧ 60 * (total `div` 60) + total `mod` 60 = total)
  ∧ (ms < 0 →
     formatDuration ms
       = pretty (total `div` 60) +:+ "m " +:+ pretty (total `rem` 60) +:+ "s"
     ∧ total `div` 60 ≤ -1
     ∧ -60 < total `rem` 60 ≤ 0).
Proof.
  intros total. unfold formatDuration. fold total.
  split; [|split]; intros Hms.
  - assert (Ht : 0 ≤ total < 60) by (subst total; zdiv).
    rewrite (Z.div_small total 60), (Z.rem_small total 60) by lia. done.
  - assert (Ht : 60 ≤ total) by (subst total; zdiv).
    assert (Hm : 1 ≤ total `div` 60) by zdiv.
    destruct (Z.eqb_spec (total `div` 60) 0) as [H0|_]; [zdiv|].
    rewrite Z.rem_mod_nonneg by lia.
    repeat split; zdiv.
  - assert (Ht : total ≤ -1) by (subst total; zdiv).
    assert (Hm : total `div` 60 ≤ -1) by zdiv.
    destruct (Z.eqb_spec (total `div` 60) 0) as [H0|_]; [zdiv|].
    repeat split; zdiv.
Qed.

Lemma formatDuration_shape_witness :
  formatDuration 125000 = "2m 5s".
Proof.
  destruct (proj1 (proj2 (formatDuration_shape 125000)) ltac:(lia)) as [Heq _].
  exact Heq.
Defined.

(** X7. [formatHistoryTime]: a time stamp less than a minute old, or in the
    future, reads "Just now"; from one minute to under an hour it reads in
    minutes, 1 to 59; from one hour to under a day in hours, 1 to 23; from
    one day to under a week in days, 1 to 6; a week or more old it is left
    to the locale.  No relative label ever shows a zero. *)
Theorem formatHistoryTime_ranges (toLocaleString : Z → string)
    (now timestamp : Z) :
  let age := now - timestamp in
  let shown := formatHistoryTime toLocaleString now timestamp in
  (age < 60000 → shown = "Just now")
  ∧ (60000 ≤ age < 3600000 →
     shown = pretty (age `div` 60000) +:+ "m ago"
     ∧ 1 ≤ age `div` 60000 ≤ 59)
  ∧ (3600000 ≤ age < 86400000 →
     shown = pretty (age `div` 3600000) +:+ "h ago"
     ∧ 1 ≤ age `div` 3600000 ≤ 23)
  ∧ (86400000 ≤ age < 604800000 →
     shown = pretty (age `div` 86400000) +:+ "d ago"
     ∧ 1 ≤ age `div` 86400000 ≤ 6)
  ∧ (604800000 ≤ age → shown = toLocaleString timestamp).
Proof.
  intros age shown. subst shown. unfold formatHistoryTime. fold age.
  repeat match goal with |- _ ∧ _ => split end; intros Hage.
  - destruct (Z.ltb_spec (age `div` 60000) 1); [done | zdiv].
  - destruct (Z.ltb_spec (age `div` 60000) 1); [zdiv|].
    destruct (Z.ltb_spec (age `div` 60000) 60); [|zdiv].
    split; [done | zdiv].
  - destruct (Z.ltb_spec (age `div` 60000) 1); [zdiv|].
    destruct (Z.ltb_spec (age `div` 60000) 60); [zdiv|].
    destruct (Z.ltb_spec (age `div` 3600000) 24); [|zdiv].
    split; [done | zdiv].
  - destruct (Z.ltb_spec (age `div` 60000) 1); [zdiv|].
    destruct (Z.ltb_spec (age `div` 60000) 60); [zdiv|].
    destruct (Z.ltb_spec (age `div` 3600000) 24); [zdiv|].
    destruct (Z.ltb_spec (age `div` 86400000) 7); [|zdiv].
    split; [done | zdiv].
  - destruct (Z.ltb_spec (age `div` 60000) 1); [zdiv|].
    destruct (Z.ltb_spec (age `div` 60000) 60); [zdiv|].
    destruct (Z.ltb_spec (age `div` 3600000) 24); [zdiv|].
    destruct (Z.ltb_spec (age `div` 86400000) 7); [zdiv|].
    done.
Qed.

Lemma formatHistoryTime_ranges_witness :
  formatHistoryTime (λ _, "Jan 1, 12:00 AM") 1700007200000 1700000000000
  = "2h ago".
Proof.
  destruct (proj1 (proj2 (proj2
              (formatHistoryTime_ranges (λ _, "Jan 1, 12:00 AM")
                 1700007200000 1700000000000))) ltac:(lia)) as [Heq _].
  exact Heq.
Defined.

Lemma groups_from (todayStart yesterdayStart : Z) (items : list HistoryItem) :
  ∀ acc,
    let g := fold_left (pushToGroup todayStart yesterdayStart) items acc in
    today g = today acc ++ List.filter (isToday todayStart) items
    ∧ yesterday g
      = yesterday acc ++ List.filter (isYesterday todayStart yesterdayStart) items
    ∧ earlier g
      = earlier acc ++ List.filter (isEarlier todayStart yesterdayStart) items.
Proof.
  induction items as [|item items IH]; intros acc.
  - simpl. by rewrite !app_nil_r.
  - simpl. destruct (IH (pushToGroup todayStart yesterdayStart acc item))
      as (Ht & Hy & He).
    rewrite Ht, Hy, He. unfold pushToGroup, isToday, isYesterday, isEarlier.
    destruct (todayStart <=? startTime item);
      [|destruct (yesterdayStart <=? startTime item)];
      simpl; by rewrite <- ?app_assoc.
Qed.

Lemma three_way_split (todayStart yesterdayStart : Z) (items : list HistoryItem) :
  List.filter (isToday todayStart) items
    ++ List.filter (isYesterday todayStart yesterdayStart) items
    ++ List.filter (isEarlier todayStart yesterdayStart) items
  ≡ₚ items.
Proof.
  induction items as [|item items IH]; [done|].
  simpl. unfold isToday, isYesterday, isEarlier.
  destruct (todayStart <=? startTime item);
    [|destruct (yesterdayStart <=? startTime item)]; simpl.
  - by rewrite IH.
  - rewrite <- Permutation_middle. by rewrite IH.
  - rewrite app_assoc, <- Permutation_middle, <- app_assoc. by rewrite IH.
Qed.

Lemma grouped_filters (todayStart yesterdayStart : Z) (items : list HistoryItem) :
  let g := groupHistoryByDate todayStart yesterdayStart items in
  today g = List.filter (isToday todayStart) items
  ∧ yesterday g = List.filter (isYesterday todayStart yesterdayStart) items
  ∧ earlier g = List.filter (isEarlier todayStart yesterdayStart) items.
Proof.
  apply (groups_from todayStart yesterdayStart items
           {| today := []; yesterday := []; earlier := [] |}).
Qed.

(** X8. [groupHistoryByDate] sorts every item into exactly one group: the
    three groups are the items of today, of yesterday and of before, each in
    the order of the input, and together they are a rearrangement of the
    input, nothing lost and nothing doubled. *)
Theorem groupHistoryByDate_partition (todayStart yesterdayStart : Z)
    (items : list HistoryItem) :
  let g := groupHistoryByDate todayStart yesterdayStart items in
  today g
    = List.filter (λ item, todayStart <=? startTime item) items
  ∧ yesterday g
    = List.filter (λ item, negb (todayStart <=? startTime item)
                           && (yesterdayStart <=? startTime item)) items
  ∧ earlier g
    = List.filter (λ item, negb (todayStart <=? startTime item)
                           && negb (yesterdayStart <=? startTime item)) items
  ∧ today g ++ yesterday g ++ earlier g ≡ₚ items
  ∧ (length (today g) + length (yesterday g) + length (earlier g)
     = length items)%nat.
Proof.
  intros g. destruct (grouped_filters todayStart yesterdayStart items)
    as (Ht & Hy & He). fold g in Ht, Hy, He.
  assert (Hperm : today g ++ yesterday g ++ earlier g ≡ₚ items).
  { rewrite Ht, Hy, He. apply three_way_split. }
  repeat split; try done.
  apply Permutation_length in Hperm. rewrite !length_app in Hperm. lia.
Qed.



End HistoryReadTheory.

(** ** The history dialog *)
Module HistoryDialogTheory.
Import History HistoryRead HistoryDialog.

Lemma group_shown (items : list HistoryItem) :
  default [] (if (0 <? length items)%nat then HistoryGroup items else None)
  = items
  ∧ ((if (0 <? length items)%nat then HistoryGroup items else None) = None
     ↔ items = []).
Proof. unfold HistoryGroup. by destruct items. Qed.

(** X10. The history dialog draws every loaded item exactly once: the
    cards of the today, yesterday and earlier groups, top to bottom, are the
    items of those date ranges in stored order, and together a rearrangement
    of the loaded list.  The empty state is drawn exactly when no group is,
    and the clear-all button exactly when the empty state is not.  Before
    anything is loaded the dialog draws nothing. *)
Theorem dialog_shows_every_item (todayStart yesterdayStart : Z)
    (items : list HistoryItem) :
  render todayStart yesterdayStart None = None
  ∧ ∃ v, render todayStart yesterdayStart (Some items) = Some v
      ∧ cards v
        = List.filter (λ item, todayStart <=? startTime item) items
          ++ List.filter (λ item, negb (todayStart <=? startTime item)
                                  && (yesterdayStart <=? startTime item)) items
          ++ List.filter (λ item, negb (todayStart <=? startTime item)
                                  && negb (yesterdayStart <=? startTime item)) items
      ∧ cards v ≡ₚ items
      ∧ (emptyState v = true ↔
           todayGroup v = None ∧ yesterdayGroup v = None ∧ earlierGroup v = None)
      ∧ clearAllButton v = negb (emptyState v).
Proof.
  split; [done|]. eexists. split; [reflexivity|].
  destruct (HistoryReadTheory.grouped_filters todayStart yesterdayStart items)
    as (Ht & Hy & He).
  pose proof (HistoryReadTheory.three_way_split todayStart yesterdayStart items)
    as Hperm.
  set (g := groupHistoryByDate todayStart yesterdayStart items) in *.
  destruct (group_shown (today g)) as [Hct Hnt].
  destruct (group_shown (yesterday g)) as [Hcy Hny].
  destruct (group_shown (earlier g)) as [Hce Hne].
  assert (Hcards : cards
            {| todayGroup :=
                 if (0 <? length (today g))%nat
                 then HistoryGroup (today g) else None;
               yesterdayGroup :=
                 if (0 <? length (yesterday g))%nat
                 then HistoryGroup (yesterday g) else None;
               earlierGroup :=
                 if (0 <? length (earlier g))%nat
                 then HistoryGroup (earlier g) else None;
               emptyState := (length items =? 0)%nat;
               clearAllButton := (0 <? length items)%nat |}
          = today g ++ yesterday g ++ earlier g).
  { unfold cards. simpl. by rewrite Hct, Hcy, Hce. }
  split; [by rewrite Hcards, Ht, Hy, He|].
  split; [by rewrite Hcards, Ht, Hy, He|].
  split.
  - simpl. rewrite Hnt, Hny, Hne, Ht, Hy, He.
    split.
    + intros Hempty. apply Nat.eqb_eq in Hempty.
      destruct items; [done | discriminate].
    + intros (H1 & H2 & H3). rewrite H1, H2, H3 in Hperm. simpl in Hperm.
      apply Permutation_nil_l in Hperm. by subst items.
  - simpl. by destruct items.
Qed.

(** X11. Clearing from the dialog: when the question is confirmed, the
    device's stored history is removed, the dialog shows the empty state,
    and a dialog opened afterwards loads nothing; when it is declined,
    store and dialog stay as they are. *)
Theorem dialog_clear_all (deviceId : string) (store : Storage)
    (shown : option (list HistoryItem)) (todayStart yesterdayStart : Z) :
  handleClearAll false deviceId store shown = (store, shown)
  ∧ (let '(store', shown') := handleClearAll true deviceId store shown in
     store' !! historyKey deviceId = None
     ∧ loadHistoryItems store' deviceId = []
     ∧ (∃ v, render todayStart yesterdayStart shown' = Some v
             ∧ emptyState v = true ∧ cards v = [] ∧ clearAllButton v = false)
     ∧ (deviceId ≠ "" →
        loadEffect true deviceId store' None = Some [])
     ∧ (∀ other, other ≠ deviceId →
          loadHistoryItems store' other = loadHistoryItems store other)).
Proof.
  split; [done|]. simpl.
  assert (Hgone : clearHistory store deviceId !! historyKey deviceId = None).
  { unfold clearHistory. apply lookup_delete_eq. }
  assert (Hload : loadHistoryItems (clearHistory store deviceId) deviceId = []).
  { unfold loadHistoryItems. by rewrite Hgone. }
  split; [done|]. split; [done|]. split.
  { eexists. split; [reflexivity|]. by repeat split. }
  split.
  - intros Hd. unfold loadEffect. rewrite Hload.
    by destruct (String.eqb_spec deviceId "").
  - intros other Hne.
    apply HistoryReadTheory.load_other_key. unfold clearHistory.
    rewrite lookup_delete_ne; [done|].
    intros Heq. by apply Hne, HistoryReadTheory.historyKey_inj.
Qed.

Lemma dialog_clear_all_witness :
  loadEffect true "d"
    (handleClearAll true "d" (<[historyKey "d" := Json [sampleItem "first"]]> ∅)
       (Some [sampleItem "first"])).1 None
  = Some [].
Proof.
  pose proof (proj2 (dialog_clear_all "d"
                       (<[historyKey "d" := Json [sampleItem "first"]]> ∅)
                       (Some [sampleItem "first"]) 0 0)) as H.
  simpl in H. destruct H as (_ & _ & _ & H & _).
  apply H. discriminate.
Defined.

End HistoryDialogTheory.

(** ** More about the dual-model stream consumer *)
Module DualModelStreamTheory.
Import DualModel.

Lemma string_app_cons (x : Ascii.ascii) (a b : string) :
  String x a +:+ b = String x (a +:+ b).
Proof. reflexivity. Qed.

Lemma string_app_empty_l (a : string) : "" +:+ a = a.
Proof. reflexivity. Qed.

Lemma string_app_assoc (a b c : string) : (a +:+ b) +:+ c = a +:+ (b +:+ c).
Proof.
  induction a as [|x a IH]; [done|]. by rewrite !string_app_cons, IH.
Qed.

Lemma string_app_empty_r (a : string) : a +:+ "" = a.
Proof. induction a as [|x a IH]; [done|]. by rewrite string_app_cons, IH. Qed.

Lemma handleAll_snoc (s : DualModelState) (events : list DualModelStreamEvent)
    (e : DualModelStreamEvent) :
  handleAll s (events ++ [e]) = handleEvent (handleAll s events) e.
Proof. unfold handleAll. by rewrite fold_left_app. Qed.

Lemma dispatch_None_tag (tag : string) (k : Kind) :
  dispatch tag = None → String.eqb tag (label k) = false.
Proof.
  intros Hnone. destruct (String.eqb_spec tag (label k)) as [->|]; [|done].
  by rewrite DualModelTheory.dispatch_label in Hnone.
Qed.

Ltac default_branch Hk :=
  repeat match goal with
         | |- context [String.eqb _ ?tag] =>
             match tag with
             | "decision_result" =>
                 rewrite (dispatch_None_tag _ decision_result Hk : String.eqb _ "decision_result" = false)
             | "decision_thinking" =>
                 rewrite (dispatch_None_tag _ decision_thinking Hk : String.eqb _ "decision_thinking" = false)
             | "vision_recognition" =>
                 rewrite (dispatch_None_tag _ vision_recognition Hk : String.eqb _ "vision_recognition" = false)
             | "action_result" =>
                 rewrite (dispatch_None_tag _ action_result Hk : String.eqb _ "action_result" = false)
             | "task_plan" =>
                 rewrite (dispatch_None_tag _ task_plan Hk : String.eqb _ "task_plan" = false)
             | "step_complete" =>
                 rewrite (dispatch_None_tag _ step_complete Hk : String.eqb _ "step_complete" = false)
             end
         end.

(** What one event adds to the three history lists. *)
Lemma handleEvent_lists (s : DualModelState) (e : DualModelStreamEvent) :
  decisions (handleEvent s e)
    = decisions s ++ (if String.eqb (type e) "decision_result" then [e] else [])
  ∧ recognitions (handleEvent s e)
    = recognitions s
        ++ (if String.eqb (type e) "vision_recognition" then [e] else [])
  ∧ actions (handleEvent s e)
    = actions s ++ (if String.eqb (type e) "action_result" then [e] else []).
Proof.
  unfold handleEvent. destruct (dispatch (type e)) as [k|] eqn:Hk.
  - apply DualModelTheory.dispatch_Some in Hk.
    destruct k; simpl in *; rewrite Hk; simpl; by rewrite ?app_nil_r.
  - default_branch Hk. by rewrite !app_nil_r.
Qed.

Lemma handleAll_lists (events : list DualModelStreamEvent) :
  ∀ s,
    decisions (handleAll s events)
      = decisions s
          ++ List.filter (λ e, String.eqb (type e) "decision_result") events
    ∧ recognitions (handleAll s events)
      = recognitions s
          ++ List.filter (λ e, String.eqb (type e) "vision_recognition") events
    ∧ actions (handleAll s events)
      = actions s
          ++ List.filter (λ e, String.eqb (type e) "action_result") events.
Proof.
  induction events as [|e events IH]; intros s; simpl.
  - by rewrite !app_nil_r.
  - destruct (IH (handleEvent s e)) as (Hd & Hr & Ha).
    destruct (handleEvent_lists s e) as (Hd1 & Hr1 & Ha1).
    rewrite Hd, Hr, Ha, Hd1, Hr1, Ha1.
    repeat split; rewrite <- app_assoc; f_equal;
      match goal with |- context [if ?b then _ else _] => by destruct b end.
Qed.

(** X12. The three history lists of the state only grow, and they record
    the stream faithfully: after any events, [decisions] is what it was
    followed by the [decision_result] events handled, in arrival order, and
    likewise [recognitions] for [vision_recognition] and [actions] for
    [action_result]; no other event enters a list and none is dropped. *)
Theorem history_lists_record_stream (s : DualModelState)
    (events : list DualModelStreamEvent) :
  decisions (handleAll s events)
    = decisions s
        ++ List.filter (λ e, String.eqb (type e) "decision_result") events
  ∧ recognitions (handleAll s events)
    = recognitions s
        ++ List.filter (λ e, String.eqb (type e) "vision_recognition") events
  ∧ actions (handleAll s events)
    = actions s
        ++ List.filter (λ e, String.eqb (type e) "action_result") events.
Proof. apply handleAll_lists. Qed.

Lemma decisionThinking_handleEvent (s : DualModelState)
    (e : DualModelStreamEvent) :
  decisionThinking (handleEvent s e)
  = if String.eqb (type e) "decision_result" then ""
    else if String.eqb (type e) "decision_thinking"
    then decisionThinking s +:+ chunk e
    else decisionThinking s.
Proof.
  unfold handleEvent. destruct (dispatch (type e)) as [k|] eqn:Hk.
  - apply DualModelTheory.dispatch_Some in Hk.
    destruct k; simpl in *; by rewrite Hk.
  - by default_branch Hk.
Qed.

Lemma thinking_accumulates (events : list DualModelStreamEvent) :
  ∀ s,
    Forall (λ e, type e ≠ "decision_result") events →
    decisionThinking (handleAll s events)
    = decisionThinking s
        +:+ String.concat ""
              (map chunk
                 (List.filter (λ e, String.eqb (type e) "decision_thinking")
                    events)).
Proof.
  induction events as [|e events IH]; intros s Hall; simpl.
  - by rewrite string_app_empty_r.
  - apply Forall_cons in Hall as [He Hall].
    rewrite (IH _ Hall), decisionThinking_handleEvent.
    destruct (String.eqb_spec (type e) "decision_result"); [done|].
    destruct (String.eqb (type e) "decision_thinking"); simpl; [|done].
    rewrite string_app_assoc. f_equal.
    destruct (map chunk _); simpl; [by rewrite string_app_empty_r | done].
Qed.

(** X13. Streamed reasoning is shown complete and in order: over events
    among which there is no [decision_result], [decisionThinking] is what it
    was followed by the chunks of the [decision_thinking] events in arrival
    order; a [decision_result] empties it, so after one the text is made of
    the chunks that arrived since. *)
Theorem thinking_is_concatenation :
  (∀ s events,
     Forall (λ e, type e ≠ "decision_result") events →
     decisionThinking (handleAll s events)
     = decisionThinking s
         +:+ String.concat ""
               (map chunk
                  (List.filter (λ e, String.eqb (type e) "decision_thinking")
                     events)))
  ∧ (∀ s before result after,
       type result = "decision_result" →
       Forall (λ e, type e ≠ "decision_result") after →
       decisionThinking (handleAll s (before ++ result :: after))
       = String.concat ""
           (map chunk
              (List.filter (λ e, String.eqb (type e) "decision_thinking")
                 after))).
Proof.
  split; [intros s events; apply thinking_accumulates|].
  intros s before result after Hres Hafter.
  rewrite DualModelTheory.handleAll_app. simpl.
  rewrite (thinking_accumulates after _ Hafter), decisionThinking_handleEvent.
  by rewrite Hres.
Qed.

Lemma thinking_is_concatenation_witness :
  decisionThinking
    (handleAll initialState
       [probe "decision_start"; probe "decision_thinking";
        probe "decision_thinking"])
  = "" +:+ String.concat "" ["c"; "c"].
Proof.
  apply (proj1 thinking_is_concatenation initialState
           [probe "decision_start"; probe "decision_thinking";
            probe "decision_thinking"]).
  repeat constructor; discriminate.
Defined.

Lemma progress_handleEvent (s : DualModelState) (e : DualModelStreamEvent) :
  taskPlan (handleEvent s e)
    = (if String.eqb (type e) "task_plan" then Plan.steps (plan e)
       else taskPlan s)
  ∧ totalSteps (handleEvent s e)
    = (if String.eqb (type e) "task_plan" then Plan.estimated_actions (plan e)
       else totalSteps s)
  ∧ currentStep (handleEvent s e)
    = (if String.eqb (type e) "step_complete" then step e else currentStep s).
Proof.
  unfold handleEvent. destruct (dispatch (type e)) as [k|] eqn:Hk.
  - apply DualModelTheory.dispatch_Some in Hk.
    destruct k; simpl in *; by rewrite Hk.
  - by default_branch Hk.
Qed.

(** X14. Progress shows the latest word of the stream: after any events,
    [taskPlan] and [totalSteps] are those of the last [task_plan] event
    handled and [currentStep] is the step of the last [step_complete] event;
    with no such event they are what they were.  A later plan replaces the
    earlier one and leaves [currentStep] where it is. *)
Theorem progress_is_last_event (s : DualModelState)
    (events : list DualModelStreamEvent) :
  let lastPlan :=
    last (List.filter (λ e, String.eqb (type e) "task_plan") events) in
  let lastStep :=
    last (List.filter (λ e, String.eqb (type e) "step_complete") events) in
  let s' := handleAll s events in
  taskPlan s' = from_option (λ e, Plan.steps (plan e)) (taskPlan s) lastPlan
  ∧ totalSteps s'
    = from_option (λ e, Plan.estimated_actions (plan e)) (totalSteps s) lastPlan
  ∧ currentStep s' = from_option step (currentStep s) lastStep.
Proof.
  induction events as [|e events IH] using rev_ind; [done|].
  cbv zeta in *. rewrite handleAll_snoc, !List.filter_app.
  destruct IH as (Hp & Ht & Hc).
  destruct (progress_handleEvent (handleAll s events) e) as (Hp1 & Ht1 & Hc1).
  rewrite Hp1, Ht1, Hc1, Hp, Ht, Hc. simpl.
  repeat split;
    match goal with |- context [if ?b then _ else _] => destruct b end;
    by rewrite ?app_nil_r, ?last_snoc.
Qed.

(** X15. Receiving an event twice in a row is harmless for every kind but
    the four that append: for an event that is not a [decision_thinking],
    [decision_result], [vision_recognition] or [action_result], handling it
    a second time changes nothing. *)
Theorem redelivery_is_harmless (s : DualModelState) (e : DualModelStreamEvent) :
  ¬ In (type e)
      ["decision_thinking"; "decision_result"; "vision_recognition";
       "action_result"] →
  handleEvent (handleEvent s e) e = handleEvent s e.
Proof.
  intros Hnot. unfold handleEvent.
  destruct (dispatch (type e)) as [k|] eqn:Hk; [|done].
  apply DualModelTheory.dispatch_Some in Hk.
  destruct k; simpl in *; try done; exfalso; apply Hnot; rewrite Hk; tauto.
Qed.

Lemma redelivery_is_harmless_witness :
  handleEvent (handleEvent busyState (probe "task_complete")) (probe "task_complete")
  = handleEvent busyState (probe "task_complete").
Proof.
  apply (redelivery_is_harmless busyState (probe "task_complete")).
  simpl. intros H. repeat (destruct H as [H|H]; [discriminate H|]). exact H.
Defined.

End DualModelStreamTheory.

(** ** The dual-model panel *)
Module DualModelPanelTheory.
Import DualModel DualModelPanel.

(** The marks of a plan of [n] lines at step [c]. *)
Lemma marks_closed_form (c : Z) (plan : list string) :
  imap (λ idx _, stepMark c idx) plan
  = replicate (Z.to_nat (Z.min c (Z.of_nat (length plan)))) Completed
      ++ (if bool_decide (0 ≤ c < Z.of_nat (length plan)) then [Current] else [])
      ++ replicate (Z.to_nat (Z.of_nat (length plan) - 1 - Z.max c (-1))) Upcoming.
Proof.
  induction plan as [|line plan IH] using rev_ind.
  - change (Z.of_nat (length (@nil string))) with 0.
    rewrite bool_decide_false by lia.
    replace (Z.to_nat (Z.min c 0)) with 0%nat by lia.
    replace (Z.to_nat (0 - 1 - Z.max c (-1))) with 0%nat by lia. done.
  - rewrite imap_app, IH, length_app, Nat2Z.inj_add.
    change (Z.of_nat (length [line])) with 1.
    change (imap (λ idx _, stepMark c (length plan + idx)) [line])
      with [stepMark c (length plan + 0)].
    rewrite Nat.add_0_r. unfold stepMark.
    set (n := Z.of_nat (length plan)).
    assert (Hn : 0 ≤ n) by lia. clearbody n.
    destruct (Z.ltb_spec n c) as [Hlt|Hge].
    + (* the new line is completed *)
      rewrite !bool_decide_false by lia.
      replace (Z.to_nat (n - 1 - Z.max c (-1))) with 0%nat by lia.
      replace (Z.to_nat (n + 1 - 1 - Z.max c (-1))) with 0%nat by lia.
      replace (Z.to_nat (Z.min c (n + 1)))
        with (S (Z.to_nat (Z.min c n))) by lia.
      rewrite replicate_S_end. simpl. by rewrite !app_nil_r.
    + destruct (Z.eqb_spec n c) as [Heq|Hne].
      * (* the new line is the current one *)
        rewrite (bool_decide_false (0 ≤ c < n)) by lia.
        rewrite (bool_decide_true (0 ≤ c < n + 1)) by lia.
        replace (Z.to_nat (n - 1 - Z.max c (-1))) with 0%nat by lia.
        replace (Z.to_nat (n + 1 - 1 - Z.max c (-1))) with 0%nat by lia.
        replace (Z.to_nat (Z.min c (n + 1)))
          with (Z.to_nat (Z.min c n)) by lia.
        simpl. by rewrite !app_nil_r.
      * (* the new line is still to come *)
        replace (Z.to_nat (Z.min c (n + 1)))
          with (Z.to_nat (Z.min c n)) by lia.
        replace (Z.to_nat (n + 1 - 1 - Z.max c (-1)))
          with (S (Z.to_nat (n - 1 - Z.max c (-1)))) by lia.
        rewrite replicate_S_end.
        destruct (decide (0 ≤ c)) as [Hc|Hc].
        -- rewrite !bool_decide_true by lia. by rewrite <- !app_assoc.
        -- rewrite !bool_decide_false by lia. by rewrite <- !app_assoc.
Qed.

(** X16. The task plan is drawn as a progress list: with [n] lines and
    the current step at [c], the first [min c n] lines are marked completed,
    line [c] is marked current when there is such a line, and the lines
    after it are marked upcoming; with [c] at or past [n] every line is
    completed, and with a negative [c] none is. *)
Theorem plan_marks_are_a_progress_list (state : DualModelState) :
  let n := Z.of_nat (length (taskPlan state)) in
  let c := currentStep state in
  planMarks state
  = replicate (Z.to_nat (Z.min c n)) Completed
      ++ (if bool_decide (0 ≤ c < n) then [Current] else [])
      ++ replicate (Z.to_nat (n - 1 - Z.max c (-1))) Upcoming.
Proof. apply marks_closed_form. Qed.

Lemma lastFive_length {A : Type} (xs : list A) :
  length (lastFive xs) = Nat.min 5 (length xs).
Proof. unfold lastFive. rewrite length_drop. lia. Qed.

(** X17. The two history sections of the panel show the latest five: the
    decision section lists the last five [decision_result] events of the
    stream (all of them when there are fewer), in arrival order, and the
    action section the last five [action_result] events. *)
Theorem panel_histories_show_latest_five
    (events : list DualModelStreamEvent) :
  let results :=
    List.filter (λ e, String.eqb (type e) "decision_result") events in
  let outcomes :=
    List.filter (λ e, String.eqb (type e) "action_result") events in
  let state := handleAll initialState events in
  decisionHistory state = drop (length results - 5)%nat results
  ∧ length (decisionHistory state) = Nat.min 5 (length results)
  ∧ decisionHistory state `suffix_of` results
  ∧ actionHistory state = drop (length outcomes - 5)%nat outcomes
  ∧ length (actionHistory state) = Nat.min 5 (length outcomes)
  ∧ actionHistory state `suffix_of` outcomes.
Proof.
  intros results outcomes state.
  destruct (DualModelStreamTheory.handleAll_lists events initialState)
    as (Hd & _ & Ha).
  fold state results outcomes in Hd, Ha. simpl in Hd, Ha.
  unfold decisionHistory, actionHistory. rewrite Hd, Ha.
  repeat split; try apply lastFive_length; apply suffix_drop.
Qed.

End DualModelPanelTheory.

(** ** The resize handle and the width control *)
Module ResizableHandleTheory.
Import ResizableHandle.

(** X18. On whole pixels: when the bounds, the width at mouse-down and the
    pointer positions are whole numbers of pixels, the handle, while
    dragging, reports the change of width that keeps the panel between
    [minWidth] and [maxWidth]: the width at mouse-down plus the reported
    delta is within the two bounds; it is the pointer's travel when that
    keeps the width within them, and otherwise the distance to the bound
    that was passed. *)
Theorem drag_reports_clamped_delta (P : ResizableHandleProps) (h : Handle)
    (downX width moveX : Z) :
  wholePixels (minWidth P) → wholePixels (maxWidth P) →
  wholePixels width → wholePixels downX → wholePixels moveX →
  minWidth P ≤ maxWidth P →
  let dragging := (handleMouseDown downX (Some width) h).1 in
  ∃ delta,
    (handleMouseMove P moveX dragging).2 = [onResize delta]
    ∧ minWidth P ≤ width + delta ≤ maxWidth P
    ∧ (minWidth P ≤ width + (moveX - downX) ≤ maxWidth P →
       delta = moveX - downX)
    ∧ (width + (moveX - downX) < minWidth P → delta = minWidth P - width)
    ∧ (maxWidth P < width + (moveX - downX) → delta = maxWidth P - width).
Proof.
  intros _ _ _ _ _ Hbounds dragging. subst dragging. simpl.
  eexists. split; [reflexivity|]. repeat split; lia.
Qed.

Lemma drag_reports_clamped_delta_witness :
  (handleMouseMove defaultProps 900
     (handleMouseDown 100 (Some 400) initialHandle).1).2
  = [onResize 240].
Proof.
  destruct (drag_reports_clamped_delta defaultProps initialHandle 100 400 900)
    as (delta & Hout & _ & _ & _ & Hmax);
    try (unfold wholePixels; simpl; lia).
  rewrite Hout. f_equal. f_equal. apply Hmax. simpl. lia.
Defined.

Lemma mouse_bracketed (P : ResizableHandleProps) (h : Handle) (m : Mouse) :
  ∀ rest,
    bracketed (isDragging (mouse P h m).1) rest = true →
    bracketed (isDragging h) ((mouse P h m).2 ++ rest) = true.
Proof.
  intros rest. destruct m as [x w|x|]; simpl.
  - done.
  - unfold handleMouseMove. destruct (isDragging h) eqn:Hd; simpl.
    + rewrite Hd. by intros ->.
    + by rewrite Hd.
  - unfold handleMouseUp. destruct (isDragging h) eqn:Hd; simpl.
    + by intros ->.
    + by rewrite Hd.
Qed.

(** X19. The callbacks of the handle are well bracketed: whatever mouse
    events arrive, in whatever order, [onResize] and [onResizeEnd] are only
    ever called inside a drag that [onResizeStart] opened; in particular
    mouse moves and releases outside a drag call nothing. *)
Theorem callbacks_are_bracketed (P : ResizableHandleProps) (ms : list Mouse) :
  (∀ h, bracketed (isDragging h) (mouseAll P h ms).2 = true)
  ∧ (∀ h x, isDragging h = false →
       handleMouseMove P x h = (h, []) ∧ handleMouseUp h = (h, [])).
Proof.
  split.
  - induction ms as [|m ms IH]; intros h; [done|].
    simpl. pose proof (mouse_bracketed P h m) as Hm.
    destruct (mouse P h m) as [h1 out1].
    specialize (IH h1). destruct (mouseAll P h1 ms) as [h2 out2].
    simpl in *. by apply Hm.
  - intros h x Hd. unfold handleMouseMove, handleMouseUp. by rewrite Hd.
Qed.

Lemma callbacks_are_bracketed_witness :
  handleMouseMove defaultProps 500 initialHandle = (initialHandle, []).
Proof.
  apply (proj2 (callbacks_are_bracketed defaultProps []) initialHandle 500).
  reflexivity.
Defined.

End ResizableHandleTheory.

Module WidthControlTheory.
Import WidthControl.





(** X21. On whole pixels, plus and minus undo each other away from the
    bounds: for a whole width from 240 to 600 a click on plus followed by a
    click on minus gives the width back, and for a whole width from 280 to
    640 so does minus followed by plus; and on a whole width an enabled
    button always changes the width, minus to a smaller and plus to a
    larger one. *)
Theorem plus_and_minus_undo_each_other (w : Z) :
  wholePixels w →
  (240 ≤ w ≤ 600 →
     handleDecrease (afterClick (Px w) (handleIncrease (Px w))) = Some (Px w))
  ∧ (280 ≤ w ≤ 640 →
     handleIncrease (afterClick (Px w) (handleDecrease (Px w))) = Some (Px w))
  ∧ (decreaseDisabled w = false →
     ∃ w', handleDecrease (Px w) = Some (Px w') ∧ 240 ≤ w' < w)
  ∧ (increaseDisabled w = false →
     ∃ w', handleIncrease (Px w) = Some (Px w') ∧ w < w' ≤ 640).
Proof.
  intros _. unfold decreaseDisabled, increaseDisabled.
  repeat match goal with |- _ ∧ _ => split end; intros Hw; simpl.
  - do 2 f_equal. lia.
  - do 2 f_equal. lia.
  - eexists. split; [reflexivity | lia].
  - eexists. split; [reflexivity | lia].
Qed.

Lemma plus_and_minus_undo_each_other_witness :
  handleDecrease (afterClick (Px 400) (handleIncrease (Px 400))) = Some (Px 400).
Proof.
  apply (proj1 (plus_and_minus_undo_each_other 400
                  ltac:(unfold wholePixels; simpl; lia))).
  lia.
Defined.

End WidthControlTheory.

(** ** More about the device panel *)
Module PanelViewTheory.
Import DevicePanel PanelView.

(** X22. A message of white space only is never sent: [trim] leaves the
    empty string exactly of the strings made of white space (of any of the
    white space characters of the language, not only the ASCII ones), so a
    send on such an input (the empty input among them) returns the world as
    it is, also from the keyboard.  Any other input is sent when the panel
    is not loading: at once when the panel is initialized or has no
    configuration, and otherwise after one [initAgent] call, when that has
    returned, whatever it returned.  Nothing is sent from the keyboard
    without Ctrl or Cmd together with Enter. *)
Theorem blank_input_is_never_sent (P : DevicePanelProps) (now : Z) (w : World) :
  (trim (input w) = "" ↔ blank (input w) = true)
  ∧ (blank (input w) = true →
     handleSend P now w = w
     ∧ ∀ metaKey ctrlKey key, handleInputKeyDown P metaKey ctrlKey key now w = w)
  ∧ (blank (input w) = false → loading w = false →
     (initialized w = true ∨ config P = None →
      streamsStarted (calls (handleSend P now w))
      = S (streamsStarted (calls w)))
     ∧ (initialized w = false → config P ≠ None →
        calls (handleSend P now w) = calls w ++ [InitAgent (deviceId P) false]
        ∧ ∀ r later,
            streamsStarted
              (calls (initAgentReturns P (length (pendingInits w)) r later
                        (handleSend P now w)))
            = S (streamsStarted (calls w)))
     ∧ handleInputKeyDown P false true "Enter" now w = handleSend P now w
     ∧ handleInputKeyDown P true false "Enter" now w = handleSend P now w)
  ∧ (∀ key, handleInputKeyDown P false false key now w = w)
  ∧ (∀ metaKey ctrlKey key, key ≠ "Enter" →
       handleInputKeyDown P metaKey ctrlKey key now w = w).
Proof.
  split; [apply DevicePanelTheory.trim_empty_iff_blank|]. split.
  { intros Hb. apply DevicePanelTheory.trim_empty_iff_blank in Hb.
    assert (Hsend : handleSend P now w = w)
      by (by apply DevicePanelTheory.handleSend_empty).
    split; [exact Hsend|]. intros metaKey ctrlKey key.
    unfold handleInputKeyDown. by case_match. }
  split.
  { intros Hb Hl.
    assert (Hne : trim (input w) ≠ "").
    { intros He. apply DevicePanelTheory.trim_empty_iff_blank in He.
      congruence. }
    split; [|split; [|done]].
    - intros Hready.
      rewrite DevicePanelTheory.handleSend_at_once by done.
      destruct (DevicePanelTheory.handleSendResumes_fields P
                  (trim (input w)) now w) as (_ & _ & _ & _ & -> & _).
      unfold streamsStarted. rewrite List.filter_app, length_app. simpl. lia.
    - intros Hi Hc. destruct (config P) as [cfg|] eqn:Hcfg; [|done].
      split.
      { by rewrite (DevicePanelTheory.handleSend_waits P now w cfg). }
      intros r later.
      rewrite (DevicePanelTheory.send_after_init P now later w cfg) by done.
      destruct (DevicePanelTheory.handleSendResumes_fields P
                  (trim (input w)) later
                  (handleInitResumes false r
                     (logCall (InitAgent (deviceId P) false) w)))
        as (_ & _ & _ & _ & -> & _).
      destruct (DevicePanelTheory.handleInitResumes_fields false r
                  (logCall (InitAgent (deviceId P) false) w))
        as ((_ & _ & _ & ->) & _).
      unfold streamsStarted. simpl.
      rewrite !List.filter_app, !length_app. simpl. lia. }
  split; [done|].
  intros metaKey ctrlKey key Hkey. unfold handleInputKeyDown.
  destruct (String.eqb_spec key "Enter"); [done|].
  by rewrite andb_false_r.
Qed.

Lemma blank_input_is_never_sent_witness :
  handleSend sampleProps 1700000000000 (setInput " 　 " (initialWorld ∅))
  = setInput " 　 " (initialWorld ∅).
Proof.
  apply (proj1 (proj2 (blank_input_is_never_sent sampleProps 1700000000000
                         (setInput " 　 " (initialWorld ∅))))).
  reflexivity.
Defined.

(** *** An accepted send *)

(** X23. What an accepted send does, and when.  Past the guard, and past
    the wait for [initAgent] if there is one, it appends the user's message,
    with the trimmed input as content, and after it a streaming reply with
    empty content and a different id; it empties the input and the error
    and sets the loading flag; it opens one stream with the trimmed text for
    the panel's device and keeps its reference.  On a panel that is
    initialized or has no configuration it does so at once.  On a
    configured panel that is not initialized it first calls [initAgent] and
    waits, showing nothing and with the loading flag still off; when
    [initAgent] returns it goes on, whether the call succeeded or not, with
    the text it had trimmed when it was clicked. *)
Theorem accepted_send (P : DevicePanelProps) (now : Z) (w : World) :
  blank (input w) = false → loading w = false →
  let text := trim (input w) in
  (∀ later w0,
     let w' := handleSendResumes P text later w0 in
     ∃ userMessage agentMessage closure,
       messages w' = messages w0 ++ [userMessage; agentMessage]
       ∧ role userMessage = user
       ∧ content userMessage = text
       ∧ blank (content userMessage) = false
       ∧ role agentMessage = assistant
       ∧ content agentMessage = ""
       ∧ isStreaming agentMessage = Some true
       ∧ id userMessage ≠ id agentMessage
       ∧ input w' = "" ∧ error w' = None ∧ loading w' = true
       ∧ chatStreamRef w' = Some (streamCount w0)
       ∧ closures w' !! streamCount w0 = Some closure
       ∧ agentMessageId closure = id agentMessage
       ∧ thinkingList closure = [] ∧ actionsList closure = []
       ∧ calls w'
         = calls w0 ++ [SendMessageStream text (deviceId P) (streamCount w0)])
  ∧ (initialized w = true ∨ config P = None →
     handleSend P now w = handleSendResumes P text now w)
  ∧ (initialized w = false → config P ≠ None →
     let waiting := handleSend P now w in
     calls waiting = calls w ++ [InitAgent (deviceId P) false]
     ∧ messages waiting = messages w ∧ input waiting = input w
     ∧ loading waiting = false ∧ chatStreamRef waiting = chatStreamRef w
     ∧ ∀ r later,
         initAgentReturns P (length (pendingInits w)) r later waiting
         = handleSendResumes P text later
             (handleInitResumes false r
                (logCall (InitAgent (deviceId P) false) w))).
Proof.
  intros Hb Hl text. subst text.
  assert (Hne : trim (input w) ≠ "").
  { intros He. apply DevicePanelTheory.trim_empty_iff_blank in He.
    congruence. }
  split; [|split].
  - intros later w0 w'. subst w'.
    destruct (DevicePanelTheory.handleSendResumes_shows P (trim (input w))
                later w0)
      as (u & a & c & Hm & Hru & Hcu & Hra & Hca & Hsa & Hid & Hi & He & Hlo
          & Hr & Hcl & Hcid & Ht & Ha & Hcalls).
    exists u, a, c. rewrite Hcl, lookup_insert_eq, Hcu.
    repeat match goal with |- _ ∧ _ => split end; try done.
    by apply DevicePanelTheory.trim_blank_result.
  - intros Hready. by apply DevicePanelTheory.handleSend_at_once.
  - intros Hi Hc waiting. subst waiting.
    destruct (config P) as [cfg|] eqn:Hcfg; [|done].
    split; [by rewrite (DevicePanelTheory.handleSend_waits P now w cfg)|].
    rewrite (DevicePanelTheory.handleSend_waits P now w cfg) by done.
    repeat match goal with |- _ ∧ _ => split end; try done.
    intros r later.
    rewrite <- (DevicePanelTheory.handleSend_waits P now w cfg) by done.
    by apply (DevicePanelTheory.send_after_init P now later w cfg).
Qed.

Lemma accepted_send_witness :
  ∃ userMessage agentMessage,
    messages sampleRunning = [userMessage; agentMessage]
    ∧ content userMessage = "open settings"
    ∧ id userMessage ≠ id agentMessage.
Proof.
  destruct (proj1 (accepted_send sampleProps 1700000000000
                     (setInput "open settings" sampleReady)
                     eq_refl eq_refl)
              1700000000000 (setInput "open settings" sampleReady))
    as (u & a & c & Hm & _ & Hc & _ & _ & _ & _ & Hid & _).
  exists u, a. repeat split; [exact Hm | exact Hc | exact Hid].
Defined.

(** *** Streamed reasoning *)

Lemma concat_cons (x : string) (xs : list string) :
  String.concat "" (x :: xs) = x +:+ String.concat "" xs.
Proof.
  destruct xs; simpl; [|done].
  by rewrite DualModelStreamTheory.string_app_empty_r.
Qed.

Lemma concat_app (xs ys : list string) :
  String.concat "" (xs ++ ys) = String.concat "" xs +:+ String.concat "" ys.
Proof.
  induction xs as [|x xs IH]; [done|].
  rewrite <- app_comm_cons, !concat_cons, IH.
  by rewrite DualModelStreamTheory.string_app_assoc.
Qed.

Lemma feed_pending (cw : Closure * World) (f : Feed) :
  pendingText (feed cw f).1 = pendingText cw.1 +:+ chunkOf f
  ∧ agentMessageId (feed cw f).1 = agentMessageId cw.1
  ∧ thinkingList (feed cw f).1 = thinkingList cw.1
  ∧ actionsList (feed cw f).1 = actionsList cw.1.
Proof.
  destruct cw as [c w]. destruct f as [event timer|]; simpl.
  - unfold pendingText. simpl. rewrite concat_app. simpl.
    by rewrite DualModelStreamTheory.string_app_assoc.
  - unfold flushThinkingUpdate, pendingText.
    destruct (thinkingChunksBuffer c) as [|x xs] eqn:Hbuf; simpl;
      by rewrite !DualModelStreamTheory.string_app_empty_r.
Qed.

Lemma feedAll_pending (ops : list Feed) :
  ∀ cw,
    pendingText (fold_left feed ops cw).1
      = pendingText cw.1 +:+ String.concat "" (map chunkOf ops)
    ∧ agentMessageId (fold_left feed ops cw).1 = agentMessageId cw.1
    ∧ thinkingList (fold_left feed ops cw).1 = thinkingList cw.1
    ∧ actionsList (fold_left feed ops cw).1 = actionsList cw.1.
Proof.
  induction ops as [|f ops IH]; intros cw.
  - simpl. by rewrite DualModelStreamTheory.string_app_empty_r.
  - simpl fold_left. destruct (IH (feed cw f)) as (Hp & Hi & Ht & Ha).
    destruct (feed_pending cw f) as (Hp1 & Hi1 & Ht1 & Ha1).
    rewrite Hp, Hi, Ht, Ha, Hp1, Hi1, Ht1, Ha1.
    repeat split. simpl map. rewrite concat_cons.
    by rewrite DualModelStreamTheory.string_app_assoc.
Qed.

Lemma flush_shows (c : Closure) (w : World) :
  let '(c', w') := flushThinkingUpdate c w in
  currentThinkingText c' = pendingText c
  ∧ thinkingChunksBuffer c' = []
  ∧ updateTimeoutId c' = None
  ∧ (thinkingChunksBuffer c ≠ [] →
     Forall (λ msg, id msg = agentMessageId c →
                    currentThinking msg = Some (pendingText c))
       (messages w'))
  ∧ (thinkingChunksBuffer c = [] → w' = w).
Proof.
  unfold flushThinkingUpdate, pendingText.
  destruct (thinkingChunksBuffer c) as [|x xs] eqn:Hbuf; simpl.
  - by rewrite DualModelStreamTheory.string_app_empty_r.
  - repeat split; try done. intros _.
    unfold updateById. apply Forall_forall. intros msg Hin.
    apply list_elem_of_In, in_map_iff in Hin as (old & <- & _).
    destruct (String.eqb_spec (id old) (agentMessageId c)); [done|].
    intros ?. done.
Qed.

(** X24. No streamed chunk is lost or reordered by the batching: however
    chunk callbacks and timer flushes interleave, the text shown so far
    followed by the buffered chunks is the text at the start followed by all
    the chunks received, in order; the next flush makes exactly that the
    shown text, empties the buffer and disarms the timer, and when there was
    something buffered writes it into the reply's [currentThinking]. *)
Theorem chunks_are_batched_without_loss (c : Closure) (w : World)
    (ops : list Feed) :
  let '(c1, w1) := fold_left feed ops (c, w) in
  let '(c2, w2) := flushThinkingUpdate c1 w1 in
  pendingText c1 = pendingText c +:+ String.concat "" (map chunkOf ops)
  ∧ currentThinkingText c2
    = pendingText c +:+ String.concat "" (map chunkOf ops)
  ∧ thinkingChunksBuffer c2 = []
  ∧ updateTimeoutId c2 = None
  ∧ (thinkingChunksBuffer c1 ≠ [] →
     Forall (λ msg, id msg = agentMessageId c →
                    currentThinking msg
                    = Some (pendingText c
                              +:+ String.concat "" (map chunkOf ops)))
       (messages w2)).
Proof.
  destruct (feedAll_pending ops (c, w)) as (Hp & Hi & _ & _).
  destruct (fold_left feed ops (c, w)) as [c1 w1]. simpl in Hp, Hi.
  pose proof (flush_shows c1 w1) as Hf.
  destruct (flushThinkingUpdate c1 w1) as [c2 w2].
  destruct Hf as (Ht & Hb & Hu & Hshow & _).
  rewrite <- Hp, <- Hi. repeat split; try done.
Qed.

(** *** The step lists *)

Lemma flush_lists (c : Closure) (w : World) :
  thinkingList (flushThinkingUpdate c w).1 = thinkingList c
  ∧ actionsList (flushThinkingUpdate c w).1 = actionsList c.
Proof. unfold flushThinkingUpdate. by destruct (thinkingChunksBuffer c). Qed.

Lemma onStep_lists (c : Closure) (event : StepEvent.t) (w : World) :
  ∃ stepThinking,
    thinkingList (onStep c event w).1
      = thinkingList c ++ (if String.eqb stepThinking "" then [] else [stepThinking])
    ∧ actionsList (onStep c event w).1
      = actionsList c ++ [StepEvent.action event]
    ∧ (StepEvent.thinking event ≠ "" → stepThinking = StepEvent.thinking event)
    ∧ (StepEvent.thinking event = "" → updateTimeoutId c = None →
       stepThinking = currentThinkingText c)
    ∧ (StepEvent.thinking event = "" → updateTimeoutId c ≠ None →
       stepThinking = pendingText c).
Proof.
  unfold onStep.
  destruct (updateTimeoutId c) as [timer|] eqn:Htimer.
  - destruct (flush_lists c w) as [Ht Ha].
    pose proof (flush_shows c w) as Hf.
    destruct (flushThinkingUpdate c w) as [c1 w1]. simpl in Ht, Ha.
    destruct Hf as (Htext & _).
    exists (if String.eqb (StepEvent.thinking event) ""
            then currentThinkingText c1 else StepEvent.thinking event).
    simpl. rewrite Ht, Ha, Htext.
    destruct (String.eqb_spec (StepEvent.thinking event) "") as [He|He];
      repeat split; try done; case_match; by rewrite ?app_nil_r.
  - exists (if String.eqb (StepEvent.thinking event) ""
            then currentThinkingText c else StepEvent.thinking event).
    simpl.
    destruct (String.eqb_spec (StepEvent.thinking event) "") as [He|He];
      repeat split; try done; case_match; by rewrite ?app_nil_r.
Qed.

Lemma onStep_aligned (c : Closure) (event : StepEvent.t) (w : World) :
  listsAligned c → listsAligned (onStep c event w).1.
Proof.
  intros [Hne Hlen]. destruct (onStep_lists c event w) as (t & Ht & Ha & _).
  unfold listsAligned. rewrite Ht, Ha, !length_app. simpl.
  destruct (String.eqb_spec t ""); simpl.
  - rewrite app_nil_r. split; [done | lia].
  - split; [|lia]. apply Forall_app. split; [done|]. by constructor.
Qed.

Section WithQuota.
Variable accepts : History.Storage → string → History.StoredText → bool.
Variable deleteHistoryItem : History.Storage → string → string → History.Storage.

Lemma handleSendResumes_aligned (P : DevicePanelProps) (inputValue : string)
    (now : Z) (w0 : World) :
  allAligned w0 → allAligned (handleSendResumes P inputValue now w0).
Proof.
  unfold allAligned. intros Hw.
  destruct (DevicePanelTheory.handleSendResumes_shows P inputValue now w0)
    as (u & a & c & _ & _ & _ & _ & _ & _ & _ & _ & _ & _ & _ & Hcl & _
        & Ht & Ha & _).
  rewrite Hcl. apply map_Forall_insert_2; [|done].
  unfold listsAligned. rewrite Ht, Ha. split; [constructor | done].
Qed.

Lemma act_aligned (P : DevicePanelProps) (w : World) (a : Action) :
  allAligned w → allAligned (act accepts deleteHistoryItem P w a).
Proof.
  intros Hw.
  destruct a as [text|now|force|k r now| | |item|confirmed|itemId
                 |stream ev now|stream]; cbn [act].
  - done.
  - destruct (DevicePanelTheory.handleSend_cases P now w) as [->|[->| ->]].
    + done.
    + by apply handleSendResumes_aligned.
    + unfold allAligned.
      by destruct (DevicePanelTheory.handleInit_fields P false
                     (Some (trim (input w))) w)
        as (_ & _ & _ & _ & _ & _ & -> & _).
  - unfold allAligned.
    by destruct (DevicePanelTheory.handleInit_fields P force None w)
      as (_ & _ & _ & _ & _ & _ & -> & _).
  - assert (Hw0 : ∀ p, allAligned
                         (handleInitResumes (initForce p) r
                            (setPendingInits (delete k (pendingInits w)) w))).
    { intros p. unfold allAligned.
      by destruct (DevicePanelTheory.handleInitResumes_fields (initForce p) r
                     (setPendingInits (delete k (pendingInits w)) w))
        as (_ & _ & _ & _ & -> & _). }
    destruct (DevicePanelTheory.initAgentReturns_cases P k r now w)
      as [->|(p & _ & [->|(inputValue & _ & ->)])]; [done|apply Hw0|].
    apply handleSendResumes_aligned, Hw0.
  - unfold handleAbortChat. by destruct (chatStreamRef w).
  - unfold handleReset. by destruct (chatStreamRef w).
  - done.
  - by destruct confirmed.
  - done.
  - unfold allAligned in *. unfold deliver. case_bool_decide; [|done].
    destruct (closures w !! stream) as [c|] eqn:Hc; [|done].
    pose proof (Hw stream c Hc) as Hal.
    destruct ev as [event timer|event|event|event|event]; simpl; try done.
    + apply map_Forall_insert_2; [|done]. exact Hal.
    + pose proof (onStep_aligned c event w Hal) as Hs.
      assert (Hcl : closures (onStep c event w).2 = closures w).
      { unfold onStep. destruct (updateTimeoutId c); [|done].
        unfold flushThinkingUpdate. by destruct (thinkingChunksBuffer c). }
      destruct (onStep c event w) as [c' w']. simpl in *.
      rewrite Hcl. by apply map_Forall_insert_2.
  - unfold allAligned in *. unfold timerFires.
    destruct (closures w !! stream) as [c|] eqn:Hc; [|done].
    destruct (updateTimeoutId c); [|done].
    pose proof (Hw stream c Hc) as Hal.
    destruct (flush_lists c w) as [Ht Ha].
    assert (Hcl : closures (flushThinkingUpdate c w).2 = closures w).
    { unfold flushThinkingUpdate. by destruct (thinkingChunksBuffer c). }
    destruct (flushThinkingUpdate c w) as [c' w']. simpl in *.
    rewrite Hcl. apply map_Forall_insert_2; [|done].
    unfold listsAligned. by rewrite Ht, Ha.
Qed.

(** X25. The step lists of a run: each step callback adds exactly one
    action, and adds one reasoning entry unless the step has no reasoning
    text (neither from the backend nor streamed), in which case it adds
    none; so whatever happens to a panel, in every run the reasoning list
    holds no empty entry and is at most as long as the action list. *)
Theorem step_lists_stay_aligned (P : DevicePanelProps)
    (store : History.Storage) (happened : list Action) :
  (∀ stream c,
     closures (actAll accepts deleteHistoryItem P (initialWorld store) happened)
       !! stream = Some c →
     Forall (λ t, t ≠ "") (thinkingList c)
     ∧ (length (thinkingList c) ≤ length (actionsList c))%nat)
  ∧ (∀ c event w,
       length (actionsList (onStep c event w).1) = S (length (actionsList c))
       ∧ (StepEvent.thinking event ≠ "" →
          thinkingList (onStep c event w).1
          = thinkingList c ++ [StepEvent.thinking event])
       ∧ (StepEvent.thinking event = "" → pendingText c = "" →
          thinkingList (onStep c event w).1 = thinkingList c)).
Proof.
  split.
  - assert (Hall : ∀ l w, allAligned w →
                          allAligned (actAll accepts deleteHistoryItem P w l)).
    { induction l as [|a l IH]; intros w Hw; [done|].
      simpl. apply IH. by apply act_aligned. }
    intros stream c Hc.
    apply (Hall happened (initialWorld store)) in Hc; [done|].
    unfold allAligned. simpl. apply map_Forall_empty.
  - intros c event w.
    destruct (onStep_lists c event w) as (t & Ht & Ha & Hgiven & Hshown & Hpend).
    rewrite Ht, Ha, length_app. simpl. split; [lia|]. split.
    + intros Hne. rewrite (Hgiven Hne).
      by destruct (String.eqb_spec (StepEvent.thinking event) "").
    + intros He Hp.
      assert (Htext : t = "").
      { destruct (updateTimeoutId c) eqn:Hu.
        - by rewrite Hpend.
        - rewrite (Hshown He eq_refl).
          unfold pendingText in Hp.
          destruct (currentThinkingText c); [done | discriminate]. }
      rewrite Htext. simpl. by rewrite app_nil_r.
Qed.
End WithQuota.

(** *** What is written to the history *)

Lemma flush_storage (c : Closure) (w : World) :
  localStorage (flushThinkingUpdate c w).2 = localStorage w.
Proof. unfold flushThinkingUpdate. by destruct (thinkingChunksBuffer c). Qed.

Lemma onStep_storage (c : Closure) (event : StepEvent.t) (w : World) :
  localStorage (onStep c event w).2 = localStorage w.
Proof.
  unfold onStep. destruct (updateTimeoutId c); [|done].
  pose proof (flush_storage c w) as Hf.
  by destruct (flushThinkingUpdate c w).
Qed.

Lemma handleSend_storage (P : DevicePanelProps) (now : Z) (w : World) :
  localStorage (handleSend P now w) = localStorage w.
Proof.
  destruct (DevicePanelTheory.handleSend_cases P now w) as [->|[->| ->]].
  - done.
  - done.
  - by destruct (DevicePanelTheory.handleInit_fields P false
                   (Some (trim (input w))) w)
      as (_ & _ & _ & _ & _ & _ & _ & -> & _).
Qed.

Lemma initAgentReturns_storage (P : DevicePanelProps) (k : nat)
    (r : option string) (now : Z) (w : World) :
  localStorage (initAgentReturns P k r now w) = localStorage w.
Proof.
  assert (Hw0 : ∀ p, localStorage
                       (handleInitResumes (initForce p) r
                          (setPendingInits (delete k (pendingInits w)) w))
                     = localStorage w).
  { intros p.
    by destruct (DevicePanelTheory.handleInitResumes_fields (initForce p) r
                   (setPendingInits (delete k (pendingInits w)) w))
      as (_ & _ & _ & _ & _ & -> & _). }
  destruct (DevicePanelTheory.initAgentReturns_cases P k r now w)
    as [->|(p & _ & [->|(inputValue & _ & ->)])]; [done|apply Hw0|].
  destruct (DevicePanelTheory.handleSendResumes_fields P inputValue now
              (handleInitResumes (initForce p) r
                 (setPendingInits (delete k (pendingInits w)) w)))
    as (_ & _ & _ & _ & _ & -> & _).
  apply Hw0.
Qed.

Section WithQuota.
Variable accepts : History.Storage → string → History.StoredText → bool.
Variable deleteHistoryItem : History.Storage → string → string → History.Storage.

Lemma act_storage (P : DevicePanelProps) (w : World) (a : Action) :
  (writesHistory a = false →
   localStorage (act accepts deleteHistoryItem P w a) = localStorage w)
  ∧ (deletesItem a = false →
     ∀ key, key ≠ History.historyKey (deviceSerial P) →
       localStorage (act accepts deleteHistoryItem P w a) !! key
       = localStorage w !! key).
Proof.
  assert (Hsame : localStorage (act accepts deleteHistoryItem P w a)
                  = localStorage w →
                  ∀ key, key ≠ History.historyKey (deviceSerial P) →
                         localStorage (act accepts deleteHistoryItem P w a) !! key
                         = localStorage w !! key).
  { by intros ->. }
  destruct a as [text|now|force|k r now| | |item|confirmed|itemId
                 |stream ev now|stream].
  - split; [done | by intros _; apply Hsame].
  - pose proof (handleSend_storage P now w).
    split; [done | by intros _; apply Hsame].
  - assert (localStorage (handleInit P force None w) = localStorage w).
    { by destruct (DevicePanelTheory.handleInit_fields P force None w)
        as (_ & _ & _ & _ & _ & _ & _ & -> & _). }
    split; [done | by intros _; apply Hsame].
  - pose proof (initAgentReturns_storage P k r now w).
    split; [done | by intros _; apply Hsame].
  - assert (localStorage (handleAbortChat P w) = localStorage w).
    { unfold handleAbortChat. by destruct (chatStreamRef w). }
    split; [done | by intros _; apply Hsame].
  - assert (localStorage (handleReset P w) = localStorage w).
    { unfold handleReset. by destruct (chatStreamRef w). }
    split; [done | by intros _; apply Hsame].
  - split; [done | by intros _; apply Hsame].
  - destruct confirmed; [|split; [done | by intros _; apply Hsame]].
    split; [done|]. intros _ key Hkey. simpl.
    unfold History.clearHistory. by rewrite lookup_delete_ne.
  - by split.
  - simpl in *. unfold deliver in *.
    case_bool_decide; [|by split].
    destruct (closures w !! stream) as [c|]; [|by split].
    destruct ev as [event timer|event|event|event|event]; simpl in *.
    + by split.
    + pose proof (onStep_storage c event w) as Hs.
      destruct (onStep c event w) as [c' w']. simpl in *.
      split; [done | by intros _ key _; rewrite Hs].
    + split; [done|]. intros _ key Hkey.
      unfold onDone, saveToHistory. simpl.
      by apply HistoryReadTheory.save_other_keys.
    + split; [done|]. intros _ key Hkey.
      unfold onError, saveToHistory. simpl.
      by apply HistoryReadTheory.save_other_keys.
    + by split.
  - assert (localStorage (timerFires stream w) = localStorage w).
    { unfold timerFires. destruct (closures w !! stream) as [c|]; [|done].
      destruct (updateTimeoutId c); [|done].
      pose proof (flush_storage c w) as Hf.
      by destruct (flushThinkingUpdate c w). }
    split; [done | by intros _; apply Hsame].
Qed.

(** X26. Who writes the history.  Of all that can happen to a panel, four
    things write to [localStorage]: the done callback, the error callback,
    a confirmed [handleClearHistory] and [handleDeleteItem].  Typing,
    sending and the return of [initAgent], the stop button, reset, the
    choice of a history item, a declined clear, streamed chunks and steps,
    timers and the aborted callback leave it as it is; so a run that was
    aborted is not recorded.  And apart from [handleDeleteItem], whose
    [deleteHistoryItem] is not among the sources, nothing that happens to a
    panel changes what another device loads as its history.  A confirmed
    [handleClearHistory] removes the stored history of the panel's device,
    which then loads as empty, and [handleDeleteItem] stores what
    [deleteHistoryItem] makes of the store. *)
Theorem history_writers (P : DevicePanelProps)
    (w : World) (happened : list Action) :
  (Forall (λ a, writesHistory a = false) happened →
     localStorage (actAll accepts deleteHistoryItem P w happened)
     = localStorage w)
  ∧ (Forall (λ a, deletesItem a = false) happened →
     ∀ other, other ≠ deviceSerial P →
       HistoryRead.loadHistoryItems
         (localStorage (actAll accepts deleteHistoryItem P w happened)) other
       = HistoryRead.loadHistoryItems (localStorage w) other)
  ∧ (localStorage (act accepts deleteHistoryItem P w (ClearHistory true))
     = History.clearHistory (localStorage w) (deviceSerial P)
     ∧ HistoryRead.loadHistoryItems
         (localStorage (act accepts deleteHistoryItem P w (ClearHistory true)))
         (deviceSerial P) = [])
  ∧ (∀ itemId,
       localStorage (act accepts deleteHistoryItem P w (DeleteItem itemId))
       = deleteHistoryItem (localStorage w) (deviceSerial P) itemId).
Proof.
  assert (Hclear : localStorage
                     (act accepts deleteHistoryItem P w (ClearHistory true))
                   = History.clearHistory (localStorage w) (deviceSerial P)
                   ∧ HistoryRead.loadHistoryItems
                       (localStorage
                          (act accepts deleteHistoryItem P w
                             (ClearHistory true)))
                       (deviceSerial P) = []).
  { split; [done|]. simpl.
    unfold HistoryRead.loadHistoryItems, History.clearHistory.
    by rewrite lookup_delete_eq. }
  split; [clear Hclear|split; [clear Hclear|split; [exact Hclear|done]]].
  - revert w. induction happened as [|a l IH]; intros w Hall; [done|].
    apply Forall_cons in Hall as [Ha Hl]. simpl.
    rewrite (IH _ Hl). by apply act_storage.
  - intros Hall other Hne. apply HistoryReadTheory.load_other_key.
    assert (Hkey : History.historyKey other
                   ≠ History.historyKey (deviceSerial P)).
    { intros Heq. by apply Hne, HistoryReadTheory.historyKey_inj. }
    revert w. induction happened as [|a l IH]; intros w; [done|].
    apply Forall_cons in Hall as [Ha Hl].
    simpl. rewrite (IH Hl). by apply act_storage.
Qed.
End WithQuota.

Lemma history_writers_witness :
  localStorage
    (actAll (λ _ _ _, true) (λ store _ _, store) sampleProps sampleRunning
       [Deliver 0 (Aborted {| AbortedEvent.message := "" |}) 1700000001000;
        SelectHistory (History.sampleItem "a"); ClearHistory false;
        ClickReset])
  = localStorage sampleRunning.
Proof.
  apply (proj1 (history_writers (λ _ _ _, true) (λ store _ _, store)
                  sampleProps sampleRunning
                  [Deliver 0 (Aborted {| AbortedEvent.message := "" |})
                     1700000001000;
                   SelectHistory (History.sampleItem "a"); ClearHistory false;
                   ClickReset])).
  by repeat constructor.
Defined.

(** X27. What the done and the error callback record, with a browser that
    accepts the write and a stored text that parses: the device's history
    then loads with a new first item, cut to 100 entries.  For a done event
    the item has the event's success flag and step count, the reasoning and
    actions of the run, the user's text as task and the event's message as
    final message.  For an error event the item is a failure whose final and
    error message are the event's message after "Error: ", and its step
    count is that of the reply object the callbacks close over, 0 when that
    has none: the steps streamed before the error are not counted. *)
Theorem done_and_error_are_recorded (P : DevicePanelProps) (c : Closure)
    (now : Z) (w : World) :
  localStorage w !! History.historyKey (deviceSerial P) ≠ Some History.Malformed →
  let before := HistoryRead.loadHistoryItems (localStorage w) (deviceSerial P) in
  (∀ event,
     ∃ item,
       HistoryRead.loadHistoryItems
         (localStorage (onDone (λ _ _ _, true) P c event now w)) (deviceSerial P)
       = take 100 (item :: before)
       ∧ History.success item = DoneEvent.success event
       ∧ History.steps item = DoneEvent.steps event
       ∧ History.thinking item = thinkingList c
       ∧ History.actions item = actionsList c
       ∧ History.taskText item
         = History.or_else (content (userMessage c)) "No task description"
       ∧ History.finalMessage item
         = History.or_else (DoneEvent.message event) "No result message"
       ∧ History.startTime item = timestamp (userMessage c)
       ∧ History.endTime item = now)
  ∧ (∀ event,
       ∃ item,
         HistoryRead.loadHistoryItems
           (localStorage (onError (λ _ _ _, true) P c event now w))
           (deviceSerial P)
         = take 100 (item :: before)
         ∧ History.success item = false
         ∧ History.steps item = default 0 (steps (agentMessage c))
         ∧ History.finalMessage item = "Error: " +:+ ErrorEvent.message event
         ∧ History.errorMessage item
           = Some ("Error: " +:+ ErrorEvent.message event)
         ∧ History.thinking item = thinkingList c
         ∧ History.actions item = actionsList c).
Proof.
  intros Hok before. subst before. split; intros event.
  - eexists. unfold onDone, saveToHistory. simpl.
    rewrite (HistoryReadTheory.save_accepting _ _ _ Hok),
      HistoryReadTheory.load_insert.
    split; [reflexivity|]. by repeat split.
  - eexists. unfold onError, saveToHistory. simpl.
    rewrite (HistoryReadTheory.save_accepting _ _ _ Hok),
      HistoryReadTheory.load_insert.
    split; [reflexivity|]. by repeat split.
Qed.

Lemma done_and_error_are_recorded_witness :
  ∃ item,
    HistoryRead.loadHistoryItems
      (localStorage
         (onDone (λ _ _ _, true) sampleProps
            {| userMessage := historyUserMessage (History.sampleItem "a");
               agentMessageId := "1700000000001";
               agentMessage := historyAgentMessage (History.sampleItem "a");
               thinkingList := ["look at the screen"]; actionsList := [];
               currentThinkingText := ""; thinkingChunksBuffer := [];
               updateTimeoutId := None |}
            {| DoneEvent.message := "opened"; DoneEvent.success := true;
               DoneEvent.steps := 3 |}
            1700000002000 sampleRunning))
      (deviceSerial sampleProps)
    = take 100
        (item :: HistoryRead.loadHistoryItems (localStorage sampleRunning)
                   (deviceSerial sampleProps))
    ∧ History.success item = true ∧ History.steps item = 3.
Proof.
  assert (Hok : localStorage sampleRunning
                  !! History.historyKey (deviceSerial sampleProps)
                ≠ Some History.Malformed) by (by vm_compute).
  destruct (proj1 (done_and_error_are_recorded sampleProps
                     {| userMessage := historyUserMessage (History.sampleItem "a");
                        agentMessageId := "1700000000001";
                        agentMessage := historyAgentMessage (History.sampleItem "a");
                        thinkingList := ["look at the screen"]; actionsList := [];
                        currentThinkingText := ""; thinkingChunksBuffer := [];
                        updateTimeoutId := None |}
                     1700000002000 sampleRunning Hok)
              {| DoneEvent.message := "opened"; DoneEvent.success := true;
                 DoneEvent.steps := 3 |})
    as (item & Hload & Hs & Hn & _).
  exists item. repeat split; [exact Hload | exact Hs | exact Hn].
Defined.

(** *** Looking at a recorded run *)

Lemma string_app_inj (p s t : string) : p +:+ s = p +:+ t → s = t.
Proof.
  induction p as [|a p IH]; [done|].
  rewrite !DualModelStreamTheory.string_app_cons. intros [=]. by apply IH.
Qed.

(** X28. From the chat to the history and back: the item
    [createHistoryItem] makes of a user message and a reply, when selected
    in the history popover, replaces the chat by exactly two messages, a
    user message and an assistant reply with different ids, that carry the
    texts, time stamps, step count, success flag, reasoning and actions of
    the original pair (with the defaults of [createHistoryItem] where the
    original had none), the reply not streaming.  Selecting touches nothing
    else: the loading flag, the stream reference and the open streams, the
    calls made and the storage are as before, so a run in progress goes on;
    and the popover is closed. *)
Theorem selecting_a_record_restores_the_run (codeUnits : string → nat)
    (jsonLength : list string → nat) (now : Z) (device name : string)
    (um am : Message) (w : World) (c : Chrome) :
  let item :=
    History.createHistoryItem now device name
      (asUserMessage um) (asAgentMessage am) in
  let '(w', c') := handleSelectHistory codeUnits jsonLength item w c in
  ∃ u a,
    messages w' = [u; a]
    ∧ role u = user ∧ role a = assistant ∧ id u ≠ id a
    ∧ content u = History.or_else (content um) "No task description"
    ∧ content a = History.or_else (content am) "No result message"
    ∧ timestamp u = timestamp um ∧ timestamp a = timestamp am
    ∧ steps a = Some (default 0 (steps am))
    ∧ success a = Some (default false (success am))
    ∧ thinking a = Some (default [] (thinking am))
    ∧ actions a = Some (default [] (actions am))
    ∧ isStreaming a = Some false
    ∧ loading w' = loading w ∧ chatStreamRef w' = chatStreamRef w
    ∧ openStreams w' = openStreams w ∧ calls w' = calls w
    ∧ localStorage w' = localStorage w
    ∧ showHistoryPopover c' = false.
Proof.
  simpl. eexists _, _. split; [reflexivity|].
  repeat match goal with |- _ ∧ _ => split end; try done.
  simpl. intros Heq. by apply string_app_inj in Heq.
Qed.

(** X29. The "new messages" notice of the scroll effect.  It is shown only
    to a user who is away from the bottom of a chat that has messages.  It
    is raised when a message is appended while the user is away from the
    bottom.  Scrolling alone never raises it: when the effect runs again
    after a scroll with the messages unchanged, the notice is on only if it
    was on before and the user is more than 80 pixels from the bottom.  And
    selecting a history item never raises it, wherever the user scrolls to
    before the effect runs. *)
Theorem notice_follows_new_content (codeUnits : string → nat)
    (jsonLength : list string → nat) (w : World) (c : Chrome) :
  let effect := scrollEffect codeUnits jsonLength in
  (showNewMessageNotice (effect w c) = true →
     isAtBottom c = false ∧ messages w ≠ [])
  ∧ (∀ m, isAtBottom c = false →
          (prevMessageCountRef c ≤ length (messages w))%nat →
          showNewMessageNotice
            (effect (setMessages (λ prev, prev ++ [m]) w) c) = true)
  ∧ (∀ distance,
       showNewMessageNotice
         (effect w (updateScrollState distance (effect w c))) = true →
       showNewMessageNotice (effect w c) = true ∧ 80 < distance)
  ∧ (∀ item distance,
       let '(w', c') := handleSelectHistory codeUnits jsonLength item w c in
       showNewMessageNotice (effect w' (updateScrollState distance c'))
       = false).
Proof.
  simpl. repeat match goal with |- _ ∧ _ => split end.
  - unfold scrollEffect. simpl.
    destruct (isAtBottom c); [done|].
    destruct (messages w); [done|]. by intros _.
  - intros m Hb Hprev. unfold scrollEffect. simpl. rewrite Hb.
    rewrite length_app. simpl.
    replace (length (messages w) + 1 =? 0)%nat with false
      by (symmetry; apply Nat.eqb_neq; lia).
    replace (prevMessageCountRef c <? length (messages w) + 1)%nat with true
      by (symmetry; apply Nat.ltb_lt; lia).
    done.
  - intros distance. unfold scrollEffect, updateScrollState. simpl.
    rewrite Nat.ltb_irrefl, bool_decide_true by done. simpl.
    destruct (distance <=? 1) eqn:H1; [done|].
    destruct (length (messages w) =? 0)%nat; [done|].
    destruct (distance <=? 80) eqn:H80; [done|].
    intros Hn. split; [exact Hn | lia].
  - intros item distance. unfold scrollEffect, updateScrollState. simpl.
    rewrite bool_decide_true by done. simpl.
    destruct (distance <=? 1); [done|]. by destruct (distance <=? 80).
Qed.

(** *** Reset *)

Lemma handleReset_cleared (P : DevicePanelProps) (w : World) :
  cleared (handleReset P w).
Proof.
  by destruct (DevicePanelTheory.handleReset_fields P w)
    as (? & _ & _ & ? & ? & _).
Qed.

Section WithQuota.
Variable accepts : History.Storage → string → History.StoredText → bool.
Variable deleteHistoryItem : History.Storage → string → string → History.Storage.

Lemma act_cleared (P : DevicePanelProps) (w : World) (a : Action) :
  refills a = false → cleared w →
  cleared (act accepts deleteHistoryItem P w a).
Proof.
  intros Ha (Hm & Hl & Hr).
  destruct a as [text|now|force|k r now| | |item|confirmed|itemId
                 |stream ev now|stream]; try discriminate Ha; cbn [act].
  - done.
  - unfold cleared.
    by destruct (DevicePanelTheory.handleInit_fields P force None w)
      as (-> & -> & _ & _ & -> & _).
  - by rewrite DevicePanelTheory.handleAbortChat_idle.
  - apply handleReset_cleared.
  - by destruct confirmed.
  - done.
  - unfold deliver. case_bool_decide; [|done].
    destruct (closures w !! stream) as [c|]; [|done].
    destruct ev as [event timer|event|event|event|event];
      unfold cleared; simpl; rewrite ?Hm; try done.
    unfold onStep. destruct (updateTimeoutId c); simpl; [|by rewrite Hm].
    unfold flushThinkingUpdate.
    destruct (thinkingChunksBuffer c); simpl; by rewrite Hm.
  - unfold timerFires. destruct (closures w !! stream) as [c|]; [|done].
    destruct (updateTimeoutId c); [|done].
    unfold flushThinkingUpdate.
    destruct (thinkingChunksBuffer c); unfold cleared; simpl; [done|].
    by rewrite Hm.
Qed.

Lemma actAll_cleared (P : DevicePanelProps) (l : list Action) (w : World) :
  Forall (λ a, refills a = false) l → cleared w →
  cleared (actAll accepts deleteHistoryItem P w l).
Proof.
  revert w. induction l as [|a l IH]; intros w Hall Hw; [done|].
  apply Forall_cons in Hall as [Ha Hl]. simpl.
  apply IH; [done|]. by apply act_cleared.
Qed.

(** X30. Reset.  Reset leaves an empty chat that is neither loading nor in
    error and refers to no stream; the input draft, the stored history and
    the sends that wait for [initAgent] are kept, and the stream the panel
    referred to is closed before the one [resetChat] call; from a coherent
    panel no stream is left open.  The chat then stays empty and idle
    whatever happens, except for three things: events that still arrive
    from a stream, a batch timer of an old run, the stop button, a second
    reset, typing, initialisation, clearing or deleting history leave it
    so; a click on send, the choice of a history item, and the return of
    [initAgent] can fill it.  In particular a send that was waiting for
    [initAgent] when reset was clicked is not cancelled: when [initAgent]
    returns, it puts its two messages into the cleared chat, sets the
    loading flag and opens its stream. *)
Theorem reset_clears_until_refilled (P : DevicePanelProps) (w : World)
    (later : list Action) :
  let w' := handleReset P w in
  cleared w' ∧ error w' = None
  ∧ input w' = input w ∧ localStorage w' = localStorage w
  ∧ pendingInits w' = pendingInits w
  ∧ calls w'
    = calls w
      ++ match chatStreamRef w with
         | Some stream => [StreamClose stream]
         | None => []
         end
      ++ [ResetChat (deviceId P)]
  ∧ (coherent w → openStreams w' = ∅)
  ∧ (Forall (λ a, refills a = false) later →
       cleared (actAll accepts deleteHistoryItem P w' later))
  ∧ (∀ k p text r now,
       pendingInits w !! k = Some p → resumesSend p = Some text →
       let resumed := initAgentReturns P k r now w' in
       length (messages resumed) = 2%nat ∧ loading resumed = true
       ∧ chatStreamRef resumed = Some (streamCount w)
       ∧ streamCount w ∈ openStreams resumed).
Proof.
  simpl.
  destruct (DevicePanelTheory.handleReset_fields P w)
    as (Hr & Ho & Hc & Hm & Hl & He & Hi & Hs & Hp & Hcalls).
  split; [apply handleReset_cleared|].
  repeat match goal with |- _ ∧ _ => split end; try done.
  - intros Hw. apply (DevicePanelTheory.handleReset_coherent P) in Hw.
    unfold coherent in Hw. by rewrite Hr in Hw.
  - intros Hall. apply actAll_cleared; [done | apply handleReset_cleared].
  - intros k p text r now Hk Ht.
    unfold initAgentReturns. rewrite Hp, Hk, Ht.
    set (w0 := handleInitResumes (initForce p) r
                 (setPendingInits (delete k (pendingInits w))
                    (handleReset P w))).
    destruct (DevicePanelTheory.handleInitResumes_fields (initForce p) r
                (setPendingInits (delete k (pendingInits w))
                   (handleReset P w)))
      as (_ & Hc0 & Hm0 & _).
    fold w0 in Hc0, Hm0.
    change (streamCount w0 = streamCount (handleReset P w)) in Hc0.
    change (messages w0 = messages (handleReset P w)) in Hm0.
    destruct (DevicePanelTheory.handleSendResumes_shows P text now w0)
      as (u & a & c & Hmsg & _).
    destruct (DevicePanelTheory.handleSendResumes_fields P text now w0)
      as (Href & Hload & Hopen & _).
    rewrite Hmsg, Href, Hload, Hopen, Hm0, Hm, Hc0, Hc.
    repeat split. apply elem_of_union_l. by apply elem_of_singleton.
Qed.
End WithQuota.

Lemma reset_clears_until_refilled_witness :
  messages
    (actAll (λ _ _ _, true) (λ store _ _, store) sampleProps
       (handleReset sampleProps sampleRunning)
       [Deliver 0
          (Done {| DoneEvent.message := "opened"; DoneEvent.success := true;
                   DoneEvent.steps := 3 |})
          1700000002000;
        TimerFires 0; ClickAbort])
  = [].
Proof.
  apply (proj2 (proj2 (proj2 (proj2 (proj2 (proj2 (proj2
           (reset_clears_until_refilled (λ _ _ _, true) (λ store _ _, store)
              sampleProps sampleRunning
              [Deliver 0
                 (Done {| DoneEvent.message := "opened";
                          DoneEvent.success := true; DoneEvent.steps := 3 |})
                 1700000002000;
               TimerFires 0; ClickAbort])))))))).
  by repeat constructor.
Defined.

End PanelViewTheory.
